(** * Resume Builder: the template-to-PDF pipeline of [script.js]

    A shallow embedding of the rendering pipeline of the Resume Builder
    ([adjustTemplateForContent], [handleMultiPagePDF], [generatePDF],
    [handleFormSubmission]) and of the form validation that guards it
    ([cacheElements], [isFieldRequired], [validateField],
    [validateAllFields]).

    Modelling conventions.
    - JavaScript numbers are modelled by exact rationals ([Qc], rationals
      in lowest terms, so that equal numbers are equal terms).  Every
      number of the pipeline is a small integer or a quotient of such; the
      rounding of IEEE doubles is not modelled.  Quotients are only
      meaningful when the divisor is not zero (JavaScript yields
      [Infinity] or [NaN] there); the theorems carry that hypothesis.
    - The DOM is a store of elements indexed by their [id]; the script's
      objects used as dictionaries ([ResumeBuilder.elements], inline
      styles, attributes) are finite maps.
    - Code that can throw runs in a state-and-exception monad; [try],
      [catch] and [finally] are combinators with JavaScript's semantics.
    - An [async] function is modelled by its run to completion: the waits
      of the pipeline ([waitForResources], the 150 ms pause) do not touch
      the state, and what the rasterizer answers is supplied by the
      environment.  Console output and timers are not part of the state. *)

From Stdlib Require Import QArith Qcanon Qround ZArith NArith Lia List Bool Ascii.
From stdpp Require Import base gmap strings list numbers pretty.

Local Open Scope Z_scope.

(** ** Numbers *)

Module Num.

Definition of_Z (z : Z) : Qc := Qc_of_Z z.
Definition of_N (n : N) : Qc := Qc_of_Z (Z.of_N n).

(** [x < y] and [x <= y] as the script's comparisons. *)
Definition ltb (x y : Qc) : bool :=
  match (x ?= y)%Qc with Lt => true | _ => false end.
Definition leb (x y : Qc) : bool :=
  match (x ?= y)%Qc with Gt => false | _ => true end.

(** [Math.max], [Math.ceil]; assigning a number to a canvas dimension
    (an [unsigned long]) drops its fractional part. *)
Definition max (x y : Qc) : Qc := if ltb x y then y else x.
Definition ceil (x : Qc) : Z := Qceiling x.
Definition to_ulong (x : Qc) : N := Z.to_N (Qfloor x).

(** A decimal literal [n / 10^k]. *)
Definition dec (n : Z) (d : positive) : Qc := Q2Qc (n # d).

End Num.

Notation "x <? y" := (Num.ltb x y) : Qc_scope.
Notation "x <=? y" := (Num.leb x y) : Qc_scope.

(** ** Bitmaps and the jsPDF document *)

(** An [HTMLCanvasElement], as far as the script reads it. *)
Record Canvas := { width : N; height : N }.

(** The result of [toDataURL]: either the whole rendered canvas, or a
    temporary page canvas onto which [drawImage] copied the source
    rectangle [(0, sourceY, canvas.width, sourceHeight)]. *)
Inductive ImageData :=
| CanvasImage (canvas : Canvas)
| PageImage (canvas : Canvas) (pageCanvas : Canvas) (sourceY sourceHeight : Qc).

(** One [pdf.addImage(data, 'PNG', x, y, w, h)]. *)
Record Placement := {
  data : ImageData;
  img_x : Qc; img_y : Qc; img_w : Qc; img_h : Qc
}.

(** A jsPDF document: the pages before the current one, and the current
    page; [addImage] draws on the current page. *)
Record jsPDF := { earlier : list (list Placement); current : list Placement }.

Definition new_jsPDF : jsPDF := {| earlier := []; current := [] |}.
Definition addPage (pdf : jsPDF) : jsPDF :=
  {| earlier := earlier pdf ++ [current pdf]; current := [] |}.
Definition addImage (pdf : jsPDF) (d : ImageData) (x y w h : Qc) : jsPDF :=
  {| earlier := earlier pdf;
     current := current pdf ++ [ {| data := d; img_x := x; img_y := y; img_w := w; img_h := h |} ] |}.
Definition pages (pdf : jsPDF) : list (list Placement) := earlier pdf ++ [current pdf].

(** ** Paginator: [handleMultiPagePDF] *)

Definition scaledHeight (canvas : Canvas) (imgWidth : Qc) : Qc :=
  (Num.of_N (height canvas) * imgWidth / Num.of_N (width canvas))%Qc.

(** The slice of page [page]: [sourceY] and [sourceHeight]. *)
Definition sourceHeight (canvas : Canvas) (totalPages : Z) : Qc :=
  (Num.of_N (height canvas) / Num.of_Z totalPages)%Qc.
Definition sourceY (canvas : Canvas) (totalPages page : Z) : Qc :=
  (Num.of_Z page * (Num.of_N (height canvas) / Num.of_Z totalPages))%Qc.

(** The body of the [for] loop, for one value of [page]. *)
Definition pageStep (canvas : Canvas) (imgWidth pageHeight : Qc) (totalPages page : Z)
    (pdf : jsPDF) : jsPDF :=
  let pdf := if 0 <? page then addPage pdf else pdf in
  let sy := sourceY canvas totalPages page in
  let sh := sourceHeight canvas totalPages in
  let pageCanvas := {| width := width canvas; height := Num.to_ulong sh |} in
  addImage pdf (PageImage canvas pageCanvas sy sh) (Q2Qc 0) (Q2Qc 0) imgWidth pageHeight.

(** [for (let page = 0; page < totalPages; page++)]: [fuel] bounds the
    number of iterations, the guard is the loop's own. *)
Fixpoint pageLoop (fuel : nat) (canvas : Canvas) (imgWidth pageHeight : Qc)
    (totalPages page : Z) (pdf : jsPDF) : jsPDF :=
  match fuel with
  | O => pdf
  | S fuel' =>
      if page <? totalPages
      then pageLoop fuel' canvas imgWidth pageHeight totalPages (page + 1)
             (pageStep canvas imgWidth pageHeight totalPages page pdf)
      else pdf
  end.

Definition totalPagesOf (canvas : Canvas) (pageWidth pageHeight : Qc) : Z :=
  Num.ceil (scaledHeight canvas pageWidth / pageHeight)%Qc.

Definition handleMultiPagePDF (pdf : jsPDF) (canvas : Canvas) (pageWidth pageHeight : Qc) : jsPDF :=
  let imgWidth := pageWidth in
  let totalPages := totalPagesOf canvas pageWidth pageHeight in
  pageLoop (Z.to_nat totalPages) canvas imgWidth pageHeight totalPages 0 pdf.

(** ** Assembler, document part: lines 814-835 of [generatePDF]

    [generatePDF] fixes [pageWidth = 210] and [pageHeight = 297]; the
    body is stated for any page geometry and instantiated below. *)
Definition assemble (pageWidth pageHeight : Qc) (canvas : Canvas) : jsPDF :=
  let pdf := new_jsPDF in
  let imgWidth := pageWidth in
  let imgHeight := scaledHeight canvas imgWidth in
  if (imgHeight <=? pageHeight)%Qc
  then addImage pdf (CanvasImage canvas) (Q2Qc 0) (Q2Qc 0) imgWidth imgHeight
  else handleMultiPagePDF pdf canvas pageWidth pageHeight.

Definition A4_width : Qc := Num.of_Z 210.
Definition A4_height : Qc := Num.of_Z 297.
Definition assembleA4 : Canvas -> jsPDF := assemble A4_width A4_height.

(** The slices of a document: what each page shows of the source. *)
Definition sliceOf (p : Placement) : option (Qc * Qc) :=
  match data p with
  | PageImage _ _ sy sh => Some (sy, sh)
  | CanvasImage _ => None
  end.

Definition slices (pdf : jsPDF) : list (Qc * Qc) := omap sliceOf (concat (pages pdf)).
Definition sumQc (l : list Qc) : Qc := foldr Qcplus (Q2Qc 0) l.

(** The placement [handleMultiPagePDF] makes for page [page]. *)
Definition slicePlacement (canvas : Canvas) (imgWidth pageHeight : Qc) (totalPages page : Z) : Placement :=
  {| data := PageImage canvas
               {| width := width canvas; height := Num.to_ulong (sourceHeight canvas totalPages) |}
               (sourceY canvas totalPages page) (sourceHeight canvas totalPages);
     img_x := Q2Qc 0; img_y := Q2Qc 0; img_w := imgWidth; img_h := pageHeight |}.

(** ** The DOM, as far as the script touches it *)

(** A value of an inline style property.  The script builds two of them
    from numbers: [`scale(${scaleFactor})`] and [`${100 / scaleFactor}%`]. *)
Inductive CSSValue :=
| CssText (s : string)
| CssScale (factor : Qc)
| CssPercent (p : Qc).

(** The own state of one DOM element: its string properties ([value],
    [textContent], [innerHTML], [src], [alt]), [checked], its class list,
    its attributes and its inline style. *)
Record Node := {
  props : gmap string string;
  checked : bool;
  classList : gset string;
  attributes : gmap string string;
  style : gmap string CSSValue
}.

Definition with_props (f : gmap string string -> gmap string string) (n : Node) : Node :=
  {| props := f (props n); checked := checked n; classList := classList n;
     attributes := attributes n; style := style n |}.
Definition with_classList (f : gset string -> gset string) (n : Node) : Node :=
  {| props := props n; checked := checked n; classList := f (classList n);
     attributes := attributes n; style := style n |}.
Definition with_attributes (f : gmap string string -> gmap string string) (n : Node) : Node :=
  {| props := props n; checked := checked n; classList := classList n;
     attributes := f (attributes n); style := style n |}.
Definition with_style (f : gmap string CSSValue -> gmap string CSSValue) (n : Node) : Node :=
  {| props := props n; checked := checked n; classList := classList n;
     attributes := attributes n; style := f (style n) |}.

Definition setProp (k v : string) : Node -> Node := with_props (insert k v).
Definition setStyle (k : string) (v : CSSValue) : Node -> Node := with_style (insert k v).
Definition setAttribute (k v : string) : Node -> Node := with_attributes (insert k v).
Definition removeAttribute (k : string) : Node -> Node := with_attributes (delete k).
Definition classAdd (c : string) : Node -> Node := with_classList (fun s => s ∪ {[c]}).
Definition classRemove (c : string) : Node -> Node := with_classList (fun s => s ∖ {[c]}).
Definition getProp (k : string) (n : Node) : string := default "" (props n !! k).

(** The [.form-group] ancestor of a form control, with its
    [.error-message] descendant when it has one. *)
Record FormGroup := { group : Node; errorElement : option Node }.

(** An element with an [id], together with the elements the script
    reaches from it through [closest] and [querySelector(All)]:
    - [formGroup]: [closest('.form-group')];
    - [paragraph]: [querySelector('p')];
    - [blocks]: [querySelectorAll('.content-block, .classic-content-block,
      .creative-content-block')];
    - [photo]: [querySelector('.pdf-photo, .pdf-photo-classic,
      .pdf-photo-creative')]. *)
Record Element := {
  self : Node;
  formGroup : option FormGroup;
  paragraph : option Node;
  blocks : list Node;
  photo : option Node
}.

Definition with_self (f : Node -> Node) (e : Element) : Element :=
  {| self := f (self e); formGroup := formGroup e; paragraph := paragraph e;
     blocks := blocks e; photo := photo e |}.
Definition with_formGroup (f : FormGroup -> FormGroup) (e : Element) : Element :=
  {| self := self e; formGroup := f <$> formGroup e; paragraph := paragraph e;
     blocks := blocks e; photo := photo e |}.
Definition with_paragraph (f : Node -> Node) (e : Element) : Element :=
  {| self := self e; formGroup := formGroup e; paragraph := f <$> paragraph e;
     blocks := blocks e; photo := photo e |}.
Definition with_blocks (f : Node -> Node) (e : Element) : Element :=
  {| self := self e; formGroup := formGroup e; paragraph := paragraph e;
     blocks := f <$> blocks e; photo := photo e |}.
Definition with_photo (f : Node -> Node) (e : Element) : Element :=
  {| self := self e; formGroup := formGroup e; paragraph := paragraph e;
     blocks := blocks e; photo := f <$> photo e |}.

(** ** ContentFitter: [adjustTemplateForContent]

    [compact] is the body of [adjustTemplateForContent] between the
    measurement of [scrollHeight] and the final 150 ms pause.  The source
    fixes [pageHeight = 297 * 3.77953]; the body is stated for any page
    height and instantiated at that one by [compactA4], which
    [adjustTemplateForContent] applies. *)

Definition overflowRatioOf (contentHeight : N) (pageHeight : Qc) : Qc :=
  (Num.of_N contentHeight / pageHeight)%Qc.

Definition scaleFactorOf (overflowRatio : Qc) : Qc :=
  Num.max (Num.dec 75 100) (Q2Qc 1 / overflowRatio)%Qc.

(** Lines 877-880: the scale transform and the enlarged logical box. *)
Definition applyScale (scaleFactor : Qc) (n : Node) : Node :=
  setStyle "height" (CssPercent (Num.of_Z 100 / scaleFactor)%Qc)
    (setStyle "width" (CssPercent (Num.of_Z 100 / scaleFactor)%Qc)
      (setStyle "transformOrigin" (CssText "top left")
        (setStyle "transform" (CssScale scaleFactor) n))).

(** Lines 890-891 and 897-898: what each content block and the photo get. *)
Definition shrinkSection (section : Node) : Node :=
  setStyle "fontSize" (CssText "9px") (setStyle "margin" (CssText "2px 0") section).
Definition shrinkPhoto (photo : Node) : Node :=
  setStyle "height" (CssText "50px") (setStyle "width" (CssText "50px") photo).

Definition compact (pageHeight : Qc) (contentHeight : N) (templateElement : Element) : Element :=
  let overflowRatio := overflowRatioOf contentHeight pageHeight in
  if (Num.dec 11 10 <? overflowRatio)%Qc then
    let el := with_self (classAdd "compact") templateElement in
    let el :=
      if (Num.dec 16 10 <? overflowRatio)%Qc
      then with_self (applyScale (scaleFactorOf overflowRatio)) el
      else el in
    if (Num.dec 20 10 <? overflowRatio)%Qc
    then with_photo shrinkPhoto (with_blocks shrinkSection el)
    else el
  else templateElement.

(** [297 * 3.77953]: the A4 height in CSS pixels. *)
Definition pageHeightPx : Qc := (Num.of_Z 297 * Num.dec 377953 100000)%Qc.

(** The scale factor found in an element's inline [transform]. *)
Definition appliedScale (el : Element) : option Qc :=
  match style (self el) !! "transform" with
  | Some (CssScale f) => Some f
  | _ => None
  end.

(** The compaction at the source's page height. *)
Definition compactA4 : N -> Element -> Element := compact pageHeightPx.

(** Two numbers that agree when rounded to three decimals. *)
Definition approx3 (x y : Qc) : Prop :=
  (y - Num.dec 1 2000 <= x /\ x <= y + Num.dec 1 2000)%Qc.

(** ** Strings

    Characters are code units below 256; [\s] is the white space among them. *)

Definition isSpace (c : ascii) : bool :=
  match N_of_ascii c with
  | 9 | 10 | 11 | 12 | 13 | 32 | 160 => true
  | _ => false
  end%N.
Definition isDigit (c : ascii) : bool :=
  let n := N_of_ascii c in (48 <=? n)%N && (n <=? 57)%N.
Definition isLetter (c : ascii) : bool :=
  let n := N_of_ascii c in
  ((65 <=? n)%N && (n <=? 90)%N) || ((97 <=? n)%N && (n <=? 122)%N).

Fixpoint trimStart (s : string) : string :=
  match s with
  | String c r => if isSpace c then trimStart r else s
  | EmptyString => EmptyString
  end.
Definition trim (s : string) : string :=
  String.rev (trimStart (String.rev (trimStart s))).

Fixpoint allChars (p : ascii -> bool) (s : string) : bool :=
  match s with
  | String c r => p c && allChars p r
  | EmptyString => true
  end.
Fixpoint mapChars (f : ascii -> string) (s : string) : string :=
  match s with
  | String c r => f c +:+ mapChars f r
  | EmptyString => EmptyString
  end.

(** [s.split(sep)] for a one-character separator. *)
Fixpoint splitOn (sep : ascii) (cur : string) (s : string) : list string :=
  match s with
  | String c r =>
      if Ascii.eqb c sep then String.rev cur :: splitOn sep "" r
      else splitOn sep (String c cur) r
  | EmptyString => [String.rev cur]
  end.
Definition split (sep : ascii) (s : string) : list string := splitOn sep "" s.

(** [s.replace(/\n/g, '<br>')] *)
Definition newlinesToBr : string -> string :=
  mapChars (fun c => if Ascii.eqb c "010"%char then "<br>" else String c "").
(** [s.replace(/[^a-zA-Z0-9]/g, '_')] *)
Definition sanitizeName : string -> string :=
  mapChars (fun c => if isLetter c || isDigit c then String c "" else "_").
(** [escapeHtml]: the [innerHTML] of a text node. *)
Definition escapeHtml : string -> string :=
  mapChars (fun c =>
    if Ascii.eqb c "&"%char then "&amp;"
    else if Ascii.eqb c "<"%char then "&lt;"
    else if Ascii.eqb c ">"%char then "&gt;"
    else if (N_of_ascii c =? 160)%N then "&nbsp;"
    else String c "").
Definition joinStrings (l : list string) : string := foldr String.app "" l.

(** A JavaScript string in a condition. *)
Definition truthy (s : string) : bool :=
  match s with EmptyString => false | _ => true end.

(** ** Validation rules *)

Inductive Pattern := NamePattern | EmailPattern | PhonePattern.

(** [/^[a-zA-Z\s'-]+$/] *)
Definition nameChar (c : ascii) : bool :=
  isLetter c || isSpace c || Ascii.eqb c "'"%char || Ascii.eqb c "-"%char.
(** [[^\s@]] *)
Definition mailChar (c : ascii) : bool := negb (isSpace c) && negb (Ascii.eqb c "@"%char).
(** [[\d\s\(\)\-]] *)
Definition phoneChar (c : ascii) : bool :=
  isDigit c || isSpace c || Ascii.eqb c "("%char || Ascii.eqb c ")"%char || Ascii.eqb c "-"%char.

(** [[^\s@]+\.[^\s@]+$]: a dot with at least one character on each side. *)
Fixpoint hasInnerDot (seen : bool) (s : string) : bool :=
  match s with
  | String c r =>
      (seen && Ascii.eqb c "."%char && truthy r) || hasInnerDot true r
  | EmptyString => false
  end.
Fixpoint emailFrom (seenLocal : bool) (s : string) : bool :=
  match s with
  | String c r =>
      if Ascii.eqb c "@"%char then seenLocal && allChars mailChar r && hasInnerDot false r
      else negb (isSpace c) && emailFrom true r
  | EmptyString => false
  end.

Definition test (p : Pattern) (value : string) : bool :=
  match p with
  | NamePattern => truthy value && allChars nameChar value
  | EmailPattern => emailFrom false value
  | PhonePattern =>
      let rest := match value with
                  | String c r => if Ascii.eqb c "+"%char then r else value
                  | EmptyString => value
                  end in
      (10 <=? String.length rest)%nat && allChars phoneChar rest
  end.

(** A validator returns [None] for [true] and [Some message] otherwise. *)
Record Rules := {
  required : bool;
  minLength : option nat;
  pattern : option Pattern;
  customValidator : option (string -> option string);
  message : string
}.

Definition skillsValidator (value : string) : option string :=
  if negb (truthy (trim value)) then None
  else
    let skills := filter (fun s => (0 < String.length s)%nat) (trim <$> split ","%char value) in
    if (2 <=? length skills)%nat then None
    else Some "Please enter at least 2 skills separated by commas".

Definition rule (req : bool) (len : option nat) (pat : option Pattern)
    (custom : option (string -> option string)) (msg : string) : Rules :=
  {| required := req; minLength := len; pattern := pat; customValidator := custom; message := msg |}.

Definition ValidationRules : gmap string Rules :=
  list_to_map [
    ("name", rule true (Some 2%nat) (Some NamePattern) None
       "Name must contain only letters, spaces, hyphens, and apostrophes");
    ("email", rule true None (Some EmailPattern) None
       "Please enter a valid email address");
    ("phone", rule true None (Some PhonePattern) None
       "Please enter a valid phone number (minimum 10 digits)");
    ("address", rule true (Some 10%nat) None None
       "Address must be at least 10 characters");
    ("about", rule false (Some 20%nat) None None
       "Professional summary should be at least 20 characters");
    ("experience", rule false (Some 20%nat) None None
       "Experience should be at least 20 characters when provided");
    ("education", rule false (Some 20%nat) None None
       "Education should be at least 20 characters when provided");
    ("skills", rule false (Some 5%nat) None (Some skillsValidator)
       "Please enter at least 2 skills separated by commas when provided");
    ("strengths", rule false (Some 10%nat) None None
       "Strengths should be at least 10 characters when provided");
    ("achievements", rule false (Some 10%nat) None None
       "Achievements should be at least 10 characters when provided");
    ("projects", rule false (Some 10%nat) None None
       "Projects should be at least 10 characters when provided");
    ("certificates", rule false (Some 10%nat) None None
       "Certificates should be at least 10 characters when provided");
    ("custom-title", rule false (Some 2%nat) None None
       "Custom section title must be at least 2 characters");
    ("custom-content", rule false (Some 5%nat) None None
       "Custom section content should be at least 5 characters when provided")
  ].

(** ** Application state *)

(** What [collectFormData] returns. *)
Record FormData := {
  fd_name : string; fd_email : string; fd_phone : string; fd_address : string;
  fd_about : string; fd_experience : string; fd_education : string;
  fd_skills : string; fd_strengths : string; fd_achievements : string;
  fd_projects : string; fd_certificates : string;
  fd_customTitle : string; fd_customContent : string;
  fd_template : string;
  fd_includePhoto : bool;
  fd_photo : option string
}.

(** A reference to a DOM element is its [id]; [None] is [null]. *)
Abbreviation Ref := (option string).

(** [ResumeBuilder] and the page.
    - [elements]: the element-valued entries of [ResumeBuilder.elements]; a
      key that was never stored is absent ([undefined]);
    - [fields]: [ResumeBuilder.elements.fields], in insertion order, [None]
      while [elements] is still [{}];
    - [document]: the elements of the page by [id];
    - [downloads]: the files written by [pdf.save];
    - [lastGeneration]: the template and name kept in [localStorage] by
      [saveSuccessfulGeneration]. *)
Record App := {
  isGenerating : bool;
  currentTemplate : string;
  elements : gmap string Ref;
  fields : option (list (string * Ref));
  document : gmap string Element;
  downloads : list (string * jsPDF);
  lastGeneration : option (string * string)
}.

Definition set_isGenerating (b : bool) (s : App) : App :=
  {| isGenerating := b; currentTemplate := currentTemplate s; elements := elements s;
     fields := fields s; document := document s; downloads := downloads s;
     lastGeneration := lastGeneration s |}.
Definition set_cache (e : gmap string Ref) (f : option (list (string * Ref))) (s : App) : App :=
  {| isGenerating := isGenerating s; currentTemplate := currentTemplate s; elements := e;
     fields := f; document := document s; downloads := downloads s;
     lastGeneration := lastGeneration s |}.
Definition set_document (d : gmap string Element) (s : App) : App :=
  {| isGenerating := isGenerating s; currentTemplate := currentTemplate s; elements := elements s;
     fields := fields s; document := d; downloads := downloads s;
     lastGeneration := lastGeneration s |}.
Definition add_download (f : string) (pdf : jsPDF) (s : App) : App :=
  {| isGenerating := isGenerating s; currentTemplate := currentTemplate s; elements := elements s;
     fields := fields s; document := document s; downloads := downloads s ++ [(f, pdf)];
     lastGeneration := lastGeneration s |}.
Definition set_lastGeneration (g : string * string) (s : App) : App :=
  {| isGenerating := isGenerating s; currentTemplate := currentTemplate s; elements := elements s;
     fields := fields s; document := document s; downloads := downloads s;
     lastGeneration := Some g |}.

(** ** Exceptions *)

Inductive JSError :=
| TypeError (what : string)      (* a property of [null] or [undefined] *)
| Error (message : string).      (* [new Error(message)], or a rejection *)

Inductive Outcome (A : Type) :=
| Ok (a : A)
| Throw (e : JSError).
Arguments Ok {A} a.
Arguments Throw {A} e.

(** The capabilities of the browser the pipeline relies on: layout
    ([scrollHeight], [offsetWidth]) and the rasterizer, which may reject. *)
Record RasterOptions := { opt_scale : Qc; opt_height : N; opt_width : N }.
Record Env := {
  scrollHeight : gmap string Element -> string -> N;
  offsetWidth : gmap string Element -> string -> N;
  html2canvas : gmap string Element -> string -> RasterOptions -> Outcome Canvas
}.

(** ** The monad of script code *)

Definition M (A : Type) : Type := App -> Outcome A * App.

Definition ret {A} (a : A) : M A := fun s => (Ok a, s).
Definition throw {A} (e : JSError) : M A := fun s => (Throw e, s).
Definition bind {A B} (m : M A) (k : A -> M B) : M B :=
  fun s => match m s with
           | (Ok a, s') => k a s'
           | (Throw e, s') => (Throw e, s')
           end.

Declare Scope js_scope.
Delimit Scope js_scope with js.
Notation "x <- m ;; k" := (bind m (fun x => k))
  (at level 100, m at next level, right associativity) : js_scope.
Notation "m ;; k" := (bind m (fun _ => k))
  (at level 100, right associativity) : js_scope.
Local Open Scope js_scope.

(** [try { body } catch (error) { handler }] *)
Definition try_catch {A} (body : M A) (handler : JSError -> M A) : M A :=
  fun s => match body s with
           | (Ok a, s') => (Ok a, s')
           | (Throw e, s') => handler e s'
           end.

(** [try { body } finally { cleanup }]: the cleanup runs on both paths and
    its own exception, if any, replaces the outcome of the body. *)
Definition try_finally {A} (body : M A) (cleanup : M unit) : M A :=
  fun s => match body s with
           | (r, s') => match cleanup s' with
                        | (Ok _, s'') => (r, s'')
                        | (Throw e, s'') => (Throw e, s'')
                        end
           end.

Definition get : M App := fun s => (Ok s, s).
Definition modify (f : App -> App) : M unit := fun s => (Ok tt, f s).
Definition when (b : bool) (m : M unit) : M unit := if b then m else ret tt.

(** *** DOM access *)

Definition getElementById (id : string) : M Ref :=
  s <- get ;; ret (match document s !! id with Some _ => Some id | None => None end).

(** Reading a property of the element [r] refers to; [null] and
    [undefined] have no properties. *)
Definition read {A} (r : option Ref) (what : string) (f : Element -> A) : M A :=
  s <- get ;;
  match r with
  | Some (Some id) =>
      match document s !! id with
      | Some e => ret (f e)
      | None => throw (TypeError what)
      end
  | _ => throw (TypeError what)
  end.

(** Writing to the element [r] refers to. *)
Definition write (r : option Ref) (what : string) (f : Element -> Element) : M unit :=
  s <- get ;;
  match r with
  | Some (Some id) =>
      match document s !! id with
      | Some e => modify (set_document (<[id := f e]> (document s)))
      | None => throw (TypeError what)
      end
  | _ => throw (TypeError what)
  end.

(** [ResumeBuilder.elements.key] *)
Definition cached (key : string) : M (option Ref) :=
  s <- get ;; ret (elements s !! key).

(** Property lookup in an object literal: [undefined] for a missing key. *)
Fixpoint property (key : string) (object : list (string * Ref)) : option Ref :=
  match object with
  | [] => None
  | (k, v) :: rest => if decide (k = key) then Some v else property key rest
  end.

(** [ResumeBuilder.elements.fields[fieldName]] *)
Definition fieldRef (fieldName : string) : M (option Ref) :=
  s <- get ;;
  match fields s with
  | Some fs => ret (property fieldName fs)
  | None => throw (TypeError "fields")
  end.

(** ** Initialisation: [cacheElements] *)

Fixpoint lookupAll (ids : list (string * string)) : M (list (string * Ref)) :=
  match ids with
  | [] => ret []
  | (key, id) :: rest =>
      r <- getElementById id ;;
      rs <- lookupAll rest ;;
      ret ((key, r) :: rs)
  end.

(** The element-valued keys of the cache and the [id] each is looked up
    by.  ([templateRadios], a [NodeList], is not used by the functions
    modelled here.) *)
Definition cachedIds : list (string * string) :=
  [ ("form", "resumeForm"); ("messageContainer", "message-container");
    ("loadingIndicator", "loading-indicator"); ("photoInput", "photo");
    ("photoPreview", "photo-preview"); ("saveButton", "save-progress");
    ("includePhoto", "include-photo");
    ("photoGroup", "photo-group"); ("experienceGroup", "experience-group");
    ("projectsGroup", "projects-group"); ("certificatesGroup", "certificates-group");
    ("customTitleGroup", "custom-title-group");
    ("customContentGroup", "custom-content-group") ].

Definition fieldIds : list (string * string) :=
  (fun f => (f, f)) <$>
  [ "name"; "email"; "phone"; "address"; "about"; "experience"; "education";
    "skills"; "strengths"; "achievements"; "projects"; "certificates";
    "custom-title"; "custom-content" ].

Definition cacheElements : M unit :=
  es <- lookupAll cachedIds ;;
  fs <- lookupAll fieldIds ;;
  modify (set_cache (list_to_map es) (Some fs)).

(** ** UI helpers *)

(** [container.className = type] for a one-word [type], then
    [classList.remove('hidden')].  (The timer that hides a success message
    later and the scrolling are not part of the state.) *)
Definition notice (message type : string) (n : Node) : Node :=
  classRemove "hidden" (with_classList (fun _ => {[type]}) (setProp "textContent" message n)).

Definition showMessage (message type : string) : M unit :=
  container <- cached "messageContainer" ;;
  write container "textContent" (with_self (notice message type)).

Definition showLoading (message : string) : M unit :=
  indicator <- cached "loadingIndicator" ;;
  write indicator "querySelector" (with_paragraph (setProp "textContent" message)) ;;
  write indicator "classList"
    (with_self (fun n => setAttribute "aria-hidden" "false" (classRemove "hidden" n))) ;;
  form <- cached "form" ;;
  write form "style"
    (with_self (fun n =>
       setStyle "opacity" (CssText "0.6") (setStyle "pointerEvents" (CssText "none") n))).

Definition hiddenIndicator (n : Node) : Node :=
  setAttribute "aria-hidden" "true" (classAdd "hidden" n).
Definition enabledForm (n : Node) : Node :=
  setStyle "opacity" (CssText "1") (setStyle "pointerEvents" (CssText "auto") n).

Definition hideLoading : M unit :=
  indicator <- cached "loadingIndicator" ;;
  write indicator "classList" (with_self hiddenIndicator) ;;
  form <- cached "form" ;;
  write form "style" (with_self enabledForm).

(** [scrollToFirstError] scrolls and focuses; nothing in the state changes. *)
Definition scrollToFirstError : M unit := ret tt.

Definition announceToScreenReader (message : string) : M unit :=
  liveRegion <- getElementById "live-region" ;;
  match liveRegion with
  | Some _ => write (Some liveRegion) "textContent" (with_self (setProp "textContent" message))
  | None => ret tt
  end.

Definition labels : gmap string string :=
  list_to_map [
    ("name", "Full Name"); ("email", "Email"); ("phone", "Phone");
    ("address", "Address"); ("experience", "Professional Experience");
    ("education", "Education"); ("skills", "Skills"); ("strengths", "Strengths");
    ("achievements", "Achievements"); ("projects", "Projects");
    ("certificates", "Certificates"); ("custom-title", "Custom Section Title");
    ("custom-content", "Custom Section Content") ].

Definition getFieldLabel (fieldName : string) : string :=
  match labels !! fieldName with
  | Some l => if truthy l then l else fieldName
  | None => fieldName
  end.

(** ** Form validation *)

(** [field.closest('.form-group')], on which the next statement calls
    [querySelector]. *)
Definition closestFormGroup (field : option Ref) : M FormGroup :=
  formGroup <- read field "closest" formGroup ;;
  match formGroup with
  | Some g => ret g
  | None => throw (TypeError "querySelector")
  end.

Definition fieldValue (field : option Ref) : M string :=
  read field "value" (fun e => getProp "value" (self e)).

Definition showFieldError (fieldName message : string) : M unit :=
  field <- fieldRef fieldName ;;
  closestFormGroup field ;;
  write field "classList"
    (with_formGroup (fun fg =>
       {| group := classRemove "success" (classAdd "error" (group fg));
          errorElement := (fun e => classAdd "show" (setProp "textContent" message e))
                            <$> errorElement fg |})) ;;
  write field "setAttribute" (with_self (setAttribute "aria-invalid" "true")) ;;
  announceToScreenReader ("Error in " +:+ getFieldLabel fieldName +:+ ": " +:+ message).

Definition showFieldSuccess (fieldName : string) : M unit :=
  field <- fieldRef fieldName ;;
  closestFormGroup field ;;
  write field "classList"
    (with_formGroup (fun fg =>
       {| group := classRemove "error" (classAdd "success" (group fg));
          errorElement := errorElement fg |})) ;;
  write field "setAttribute" (with_self (setAttribute "aria-invalid" "false")).

Definition clearFieldError (fieldName : string) : M unit :=
  field <- fieldRef fieldName ;;
  closestFormGroup field ;;
  write field "classList"
    (with_formGroup (fun fg =>
       {| group := classRemove "error" (group fg);
          errorElement := classRemove "show" <$> errorElement fg |})) ;;
  match ValidationRules !! fieldName with
  | None => throw (TypeError "required")
  | Some rules =>
      value <- fieldValue field ;;
      when (negb (required rules) || truthy (trim value))
        (write field "removeAttribute" (with_self (removeAttribute "aria-invalid")))
  end.

(** [ResumeBuilder.elements.key.checked] *)
Definition checkbox (key : string) : M bool :=
  box <- cached key ;;
  read box "checked" (fun e => checked (self e)).

Definition isFieldRequired (fieldName : string) : M bool :=
  match ValidationRules !! fieldName with
  | None => ret false
  | Some rules =>
      if required rules then ret true
      else if decide (fieldName = "experience") then checkbox "includeExperience"
      else if decide (fieldName = "projects") then checkbox "includeProjects"
      else if decide (fieldName = "certificates") then checkbox "includeCertificates"
      else if decide (fieldName = "custom-title") then checkbox "includeCustom"
      else if decide (fieldName = "custom-content") then checkbox "includeCustom"
      else ret false
  end.

Definition tooShort (rules : Rules) (value : string) : bool :=
  match minLength rules with
  | Some n => negb (n =? 0)%nat && (String.length value <? n)%nat
  | None => false
  end.
Definition mismatch (rules : Rules) (value : string) : bool :=
  match pattern rules with
  | Some p => negb (test p value)
  | None => false
  end.
Definition customResult (rules : Rules) (value : string) : option string :=
  match customValidator rules with
  | Some validator => validator value
  | None => None
  end.

(** The body of the [try] block of [validateField]. *)
Definition checkField (fieldName : string) (rules : Rules) (value : string) : M bool :=
  isRequired <- isFieldRequired fieldName ;;
  if isRequired && negb (truthy value) then
    (showFieldError fieldName (getFieldLabel fieldName +:+ " is required") ;; ret false)
  else if negb (truthy value) && negb isRequired then
    ret true
  else if tooShort rules value then
    (showFieldError fieldName
       (getFieldLabel fieldName +:+ " must be at least "
          +:+ pretty (default 0%nat (minLength rules)) +:+ " characters") ;;
     ret false)
  else if mismatch rules value then
    (showFieldError fieldName (message rules) ;; ret false)
  else
    match customResult rules value with
    | Some customMessage => (showFieldError fieldName customMessage ;; ret false)
    | None => (showFieldSuccess fieldName ;; ret true)
    end.

Definition validateField (fieldName : string) : M bool :=
  field <- fieldRef fieldName ;;
  match field with
  | None | Some None => ret true
  | Some (Some _) =>
      match ValidationRules !! fieldName with
      | None => ret true
      | Some rules =>
          raw <- fieldValue field ;;
          let value := trim raw in
          clearFieldError fieldName ;;
          try_catch (checkField fieldName rules value)
            (fun error =>
               showFieldError fieldName "Validation error occurred" ;; ret false)
      end
  end.

(** The [forEach] of [validateAllFields], threading [isValid]. *)
Fixpoint validateEach (fieldNames : list string) (isValid : bool) : M bool :=
  match fieldNames with
  | [] => ret isValid
  | fieldName :: rest =>
      ok <- validateField fieldName ;;
      validateEach rest (if ok then isValid else false)
  end.

Definition validateAllFields : M bool :=
  s <- get ;;
  match fields s with
  | None => throw (TypeError "Object.keys")
  | Some fs => validateEach (fst <$> fs) true
  end.

(** ** Form submission and PDF generation *)

Definition trimmedField (fieldName : string) : M string :=
  field <- fieldRef fieldName ;;
  value <- fieldValue field ;;
  ret (trim value).

Definition collectFormData : M (option FormData) :=
  try_catch
    (name <- trimmedField "name" ;;
     email <- trimmedField "email" ;;
     phone <- trimmedField "phone" ;;
     address <- trimmedField "address" ;;
     about <- trimmedField "about" ;;
     experience <- trimmedField "experience" ;;
     education <- trimmedField "education" ;;
     skills <- trimmedField "skills" ;;
     strengths <- trimmedField "strengths" ;;
     achievements <- trimmedField "achievements" ;;
     projects <- trimmedField "projects" ;;
     certificates <- trimmedField "certificates" ;;
     customTitle <- trimmedField "custom-title" ;;
     customContent <- trimmedField "custom-content" ;;
     s <- get ;;
     includePhoto <- checkbox "includePhoto" ;;
     photo <- (if includePhoto
               then (preview <- cached "photoPreview" ;;
                     src <- read preview "src" (fun e => getProp "src" (self e)) ;;
                     ret (Some src))
               else ret None) ;;
     ret (Some {| fd_name := name; fd_email := email; fd_phone := phone;
                  fd_address := address; fd_about := about;
                  fd_experience := experience; fd_education := education;
                  fd_skills := skills; fd_strengths := strengths;
                  fd_achievements := achievements; fd_projects := projects;
                  fd_certificates := certificates; fd_customTitle := customTitle;
                  fd_customContent := customContent;
                  fd_template := currentTemplate s;
                  fd_includePhoto := includePhoto; fd_photo := photo |}))
    (fun error => ret None).

(** *** [populateTemplate] *)

Definition byId (id what : string) (f : Element -> Element) : M unit :=
  r <- getElementById id ;; write (Some r) what f.
Definition setText (id text : string) : M unit :=
  byId id "textContent" (with_self (setProp "textContent" text)).
Definition setHTML (id html : string) : M unit :=
  byId id "innerHTML" (with_self (setProp "innerHTML" html)).
Definition setDisplay (id value : string) : M unit :=
  byId id "style" (with_self (setStyle "display" (CssText value))).

Definition filled (content : string) : bool := truthy content && truthy (trim content).

(** The pattern of the about, experience, education, strengths,
    achievements, projects and certificates sections. *)
Definition populateSection (template section content : string) : M unit :=
  if filled content then
    (setHTML ("pdf-" +:+ section +:+ "-" +:+ template) (newlinesToBr content) ;;
     setDisplay (section +:+ "-section-" +:+ template) "block")
  else setDisplay (section +:+ "-section-" +:+ template) "none".

Definition populatePhoto (template : string) (formData : FormData) : M unit :=
  let photo := default "" (fd_photo formData) in
  if fd_includePhoto formData && truthy photo then
    byId ("pdf-photo-" +:+ template) "src"
      (with_self (fun n =>
         setStyle "display" (CssText "block")
           (setProp "alt" (fd_name formData +:+ "'s profile photo")
              (setProp "src" photo n))))
  else
    (photoElement <- getElementById ("pdf-photo-" +:+ template) ;;
     match photoElement with
     | Some _ =>
         write (Some photoElement) "style" (with_self (setStyle "display" (CssText "none")))
     | None => ret tt
     end ;;
     when (bool_decide (template = "classic"))
       (headerElement <- getElementById "classic-header" ;;
        match headerElement with
        | Some _ =>
            when (negb (fd_includePhoto formData))
              (write (Some headerElement) "classList" (with_self (classAdd "no-photo")))
        | None => ret tt
        end)).

Definition populateSkills (template skills : string) : M unit :=
  if filled skills then
    (let items := filter (fun s => (0 < String.length s)%nat) (trim <$> split ","%char skills) in
     setHTML ("pdf-skills-" +:+ template)
       (joinStrings ((fun skill => "<li>" +:+ escapeHtml skill +:+ "</li>") <$> items)) ;;
     setDisplay ("skills-section-" +:+ template) "block")
  else setDisplay ("skills-section-" +:+ template) "none".

Definition populateCustom (template title content : string) : M unit :=
  if filled title && filled content then
    (setText ("pdf-custom-title-" +:+ template) title ;;
     setHTML ("pdf-custom-content-" +:+ template) (newlinesToBr content) ;;
     setDisplay ("custom-section-" +:+ template) "block")
  else setDisplay ("custom-section-" +:+ template) "none".

Definition populateTemplate (formData : FormData) : M unit :=
  try_catch
    (let template := fd_template formData in
     setText ("pdf-name-" +:+ template) (fd_name formData) ;;
     setText ("pdf-address-" +:+ template) (fd_address formData) ;;
     setText ("pdf-phone-" +:+ template) (fd_phone formData) ;;
     setText ("pdf-email-" +:+ template) (fd_email formData) ;;
     populateSection template "about" (fd_about formData) ;;
     populatePhoto template formData ;;
     populateSection template "experience" (fd_experience formData) ;;
     populateSection template "education" (fd_education formData) ;;
     populateSkills template (fd_skills formData) ;;
     populateSection template "strengths" (fd_strengths formData) ;;
     populateSection template "achievements" (fd_achievements formData) ;;
     populateSection template "projects" (fd_projects formData) ;;
     populateSection template "certificates" (fd_certificates formData) ;;
     populateCustom template (fd_customTitle formData) (fd_customContent formData))
    (fun error => throw (Error "Failed to populate template with form data")).

(** *** [generatePDF] *)

(** [waitForResources] waits for fonts and a timer; it always resolves. *)
Definition waitForResources : M unit := ret tt.

(** [adjustTemplateForContent]: measure, compact, pause. *)
Definition adjustTemplateForContent (env : Env) (templateElement : string) : M unit :=
  s <- get ;;
  let contentHeight := scrollHeight env (document s) templateElement in
  write (Some (Some templateElement)) "scrollHeight" (compactA4 contentHeight).

Definition rasterize (env : Env) (templateElement : string) : M Canvas :=
  fun s =>
    (html2canvas env (document s) templateElement
       {| opt_scale := Num.dec 15 10;
          opt_height := scrollHeight env (document s) templateElement;
          opt_width := offsetWidth env (document s) templateElement |}, s).

Definition saveSuccessfulGeneration (formData : FormData) : M unit :=
  modify (set_lastGeneration (fd_template formData, fd_name formData)).

(** Lines 787-790: the template is laid out off-screen. *)
Definition showOffscreen (n : Node) : Node :=
  setStyle "top" (CssText "0")
    (setStyle "left" (CssText "-9999px")
      (setStyle "position" (CssText "absolute")
        (setStyle "display" (CssText "block") n))).

(** The [try] block of [generatePDF]. *)
Definition generateBody (env : Env) (formData : FormData) : M unit :=
  modify (set_isGenerating true) ;;
  showLoading "Generating your resume..." ;;
  populateTemplate formData ;;
  templateElement <- getElementById ("pdf-" +:+ fd_template formData) ;;
  match templateElement with
  | None => throw (Error ("Template " +:+ fd_template formData +:+ " not found"))
  | Some id =>
      write (Some templateElement) "style" (with_self showOffscreen) ;;
      waitForResources ;;
      adjustTemplateForContent env id ;;
      canvas <- rasterize env id ;;
      write (Some templateElement) "style" (with_self (setStyle "display" (CssText "none"))) ;;
      let pdf := assembleA4 canvas in
      let fileName := sanitizeName (fd_name formData) +:+ "_Resume.pdf" in
      modify (add_download fileName pdf) ;;
      showMessage ("Resume generated successfully! Downloaded as " +:+ fileName) "success" ;;
      announceToScreenReader "Resume PDF generated and downloaded successfully" ;;
      saveSuccessfulGeneration formData
  end.

Definition failureNotice : string := "Failed to generate PDF. Please try again.".

Definition generateCatch (error : JSError) : M unit :=
  showMessage failureNotice "error" ;;
  throw error.

Definition generateFinally : M unit :=
  modify (set_isGenerating false) ;;
  hideLoading.

Definition generatePDF (env : Env) (formData : FormData) : M unit :=
  try_finally (try_catch (generateBody env formData) generateCatch) generateFinally.

(** *** [handleFormSubmission] *)

Definition retryNotice : string :=
  "An error occurred while generating your resume. Please try again.".

Definition submissionCatch (error : JSError) : M unit :=
  showMessage retryNotice "error" ;;
  hideLoading.

(** [handleFormSubmission], with the call [await generatePDF(formData)]
    taken as a parameter. *)
Definition handleFormSubmissionWith (generate : FormData -> M unit) : M unit :=
  try_catch
    (s <- get ;;
     if isGenerating s then
       showMessage "PDF generation already in progress" "warning"
     else
       (valid <- validateAllFields ;;
        if negb valid then
          (showMessage "Please fix the errors above before generating your resume" "error" ;;
           scrollToFirstError)
        else
          (formData <- collectFormData ;;
           match formData with
           | None => showMessage "Failed to collect form data" "error"
           | Some fd => generate fd
           end)))
    submissionCatch.

Definition handleFormSubmission (env : Env) : M unit :=
  handleFormSubmissionWith (generatePDF env).

(** The inline [display] of the element [id]. *)
Definition displayOf (s : App) (id : string) : option CSSValue :=
  e ← document s !! id; style (self e) !! "display".

(** ** Observations on the state *)

(** The page has the elements the UI helpers write to, and the cache
    refers to them (as [cacheElements] leaves it). *)
Definition chromeReady (s : App) : Prop :=
  elements s !! "messageContainer" = Some (Some "message-container") /\
  elements s !! "loadingIndicator" = Some (Some "loading-indicator") /\
  elements s !! "form" = Some (Some "resumeForm") /\
  is_Some (document s !! "message-container") /\
  is_Some (document s !! "loading-indicator") /\
  is_Some (document s !! "resumeForm").

(** The message container shows [message] with class [type]. *)
Definition noticeShown (s : App) (message type : string) : Prop :=
  exists e, document s !! "message-container" = Some e /\
    props (self e) !! "textContent" = Some message /\
    type ∈ classList (self e) /\ "hidden" ∉ classList (self e).

Definition loadingHidden (s : App) : Prop :=
  exists e, document s !! "loading-indicator" = Some e /\
    "hidden" ∈ classList (self e) /\
    attributes (self e) !! "aria-hidden" = Some "true".

Definition formEnabled (s : App) : Prop :=
  exists e, document s !! "resumeForm" = Some e /\
    style (self e) !! "pointerEvents" = Some (CssText "auto").

(** The idle state: no cycle in flight, a new request passes the guard. *)
Definition idle (s : App) : Prop :=
  isGenerating s = false /\ loadingHidden s /\ formEnabled s.

(** What [cacheElements] stores for a page. *)
Definition refsOf (d : gmap string Element) (ids : list (string * string)) : list (string * Ref) :=
  (fun kv => (fst kv, match d !! snd kv with Some _ => Some (snd kv) | None => None end)) <$> ids.

Definition initialised (s : App) : Prop :=
  elements s = list_to_map (refsOf (document s) cachedIds) /\
  fields s = Some (refsOf (document s) fieldIds).

(** The fields whose requirement depends on a checkbox. *)
Definition conditionalFields : list string :=
  [ "experience"; "projects"; "certificates"; "custom-title"; "custom-content" ].

(** The field's form group shows the validation error [message]. *)
Definition fieldErrorShown (s : App) (fieldName message : string) : Prop :=
  exists e fg, document s !! fieldName = Some e /\ formGroup e = Some fg /\
    "error" ∈ classList (group fg) /\
    attributes (self e) !! "aria-invalid" = Some "true" /\
    (forall em, errorElement fg = Some em -> props em !! "textContent" = Some message).

(** The checkboxes [isFieldRequired] reads. *)
Definition requirementCheckboxes : list string :=
  [ "includeExperience"; "includeProjects"; "includeCertificates"; "includeCustom" ].

(** The field [f] is on the page, inside a form group. *)
Definition fieldInGroup (s : App) (f : string) : Prop :=
  exists e fg, document s !! f = Some e /\ formGroup e = Some fg.

(** [s'] has the cache and the elements of [s]; only their state differs. *)
Definition same_page (s s' : App) : Prop :=
  elements s' = elements s /\ fields s' = fields s /\
  forall id, is_Some (document s' !! id) <-> is_Some (document s !! id).

Definition keeps_page {A} (m : M A) : Prop := forall s, same_page s (snd (m s)).

(** ** A sample page, for concrete runs *)

Module Sample.

Definition blank : Node :=
  {| props := ∅; checked := false; classList := ∅; attributes := ∅; style := ∅ |}.
Definition plain : Element :=
  {| self := blank; formGroup := None; paragraph := None; blocks := []; photo := None |}.
Definition input (v : string) : Element :=
  {| self := setProp "value" v blank;
     formGroup := Some {| group := blank; errorElement := Some blank |};
     paragraph := None; blocks := []; photo := None |}.
Definition surface : Element :=
  {| self := setStyle "display" (CssText "none") blank; formGroup := None;
     paragraph := None; blocks := [blank; blank]; photo := Some blank |}.

Definition chrome : list (string * Element) :=
  [ ("resumeForm", plain); ("message-container", plain);
    ("loading-indicator",
       {| self := classAdd "hidden" blank; formGroup := None;
          paragraph := Some blank; blocks := []; photo := None |});
    ("include-photo", plain); ("photo-preview", plain); ("live-region", plain) ].
Definition inputs : list (string * Element) :=
  [ ("name", input "Ada Lovelace"); ("email", input "ada@example.org");
    ("phone", input "+44 20 7946 0958"); ("address", input "12 St James Square, London");
    ("about", input ""); ("experience", input ""); ("education", input "");
    ("skills", input ""); ("strengths", input ""); ("achievements", input "");
    ("projects", input ""); ("certificates", input "");
    ("custom-title", input ""); ("custom-content", input "") ].
Definition templateParts (t : string) : list (string * Element) :=
  (fun id => (id +:+ t, plain)) <$>
  [ "pdf-name-"; "pdf-address-"; "pdf-phone-"; "pdf-email-"; "pdf-about-";
    "about-section-"; "pdf-photo-"; "pdf-experience-"; "experience-section-";
    "pdf-education-"; "education-section-"; "pdf-skills-"; "skills-section-";
    "pdf-strengths-"; "strengths-section-"; "pdf-achievements-";
    "achievements-section-"; "pdf-projects-"; "projects-section-";
    "pdf-certificates-"; "certificates-section-"; "pdf-custom-title-";
    "pdf-custom-content-"; "custom-section-" ].
Definition page : gmap string Element :=
  list_to_map (chrome ++ inputs ++ templateParts "modern" ++ [("pdf-modern", surface)]).

(** The application before and after [cacheElements]. *)
Definition boot : App :=
  {| isGenerating := false; currentTemplate := "modern"; elements := ∅; fields := None;
     document := page; downloads := []; lastGeneration := None |}.
Definition ready : App := snd (cacheElements boot).
Definition busy : App := set_isGenerating true ready.

(** A rasterizer that delivers a canvas, and one that rejects. *)
Definition rendering (canvas : Canvas) : Env :=
  {| scrollHeight := fun _ _ => 1000%N; offsetWidth := fun _ _ => 794%N;
     html2canvas := fun _ _ _ => Ok canvas |}.
Definition tall : Env :=
  {| scrollHeight := fun _ _ => 2400%N; offsetWidth := fun _ _ => 794%N;
     html2canvas := fun _ _ _ => Ok {| width := 1191; height := 3600 |} |}.
Definition rejecting : Env :=
  {| scrollHeight := fun _ _ => 1000%N; offsetWidth := fun _ _ => 794%N;
     html2canvas := fun _ _ _ => Throw (Error "Unable to render the element") |}.

Definition ada : FormData :=
  {| fd_name := "Ada Lovelace"; fd_email := "ada@example.org";
     fd_phone := "+44 20 7946 0958"; fd_address := "12 St James Square, London";
     fd_about := ""; fd_experience := ""; fd_education := ""; fd_skills := "";
     fd_strengths := ""; fd_achievements := ""; fd_projects := "";
     fd_certificates := ""; fd_customTitle := ""; fd_customContent := "";
     fd_template := "modern"; fd_includePhoto := false; fd_photo := None |}.

End Sample.

(** ** Verdicts of the validation *)

(** [Object.keys(ResumeBuilder.elements.fields)] after [cacheElements]. *)
Definition fieldNames : list string := fst <$> fieldIds.

(** The fields whose requirement does not depend on a checkbox. *)
Definition unconditionalFields : list string :=
  [ "name"; "email"; "phone"; "address"; "about"; "education"; "skills";
    "strengths"; "achievements" ].

(** The three ways [checkField] can end: it returned [true] for an empty
    optional field, it called [showFieldSuccess], or it called
    [showFieldError] with a message. *)
Inductive Verdict := Skipped | Valid | Invalid (message : string).

Definition accepted (v : Verdict) : bool :=
  match v with Invalid _ => false | _ => true end.

(** The decisions of [checkField], in the order of the source, for a field
    whose requirement is [isRequired]. *)
Definition judge (fieldName : string) (rules : Rules) (isRequired : bool) (value : string) : Verdict :=
  if isRequired && negb (truthy value) then
    Invalid (getFieldLabel fieldName +:+ " is required")
  else if negb (truthy value) && negb isRequired then Skipped
  else if tooShort rules value then
    Invalid (getFieldLabel fieldName +:+ " must be at least "
               +:+ pretty (default 0%nat (minLength rules)) +:+ " characters")
  else if mismatch rules value then Invalid (message rules)
  else match customResult rules value with
       | Some customMessage => Invalid customMessage
       | None => Valid
       end.

(** What validating the field [fieldName] comes to on the page of [s],
    after [cacheElements]: a field that is not on the page is skipped, a
    field whose requirement is read from a checkbox ends in the [catch]
    block, any other field is judged on its trimmed value. *)
Definition verdictOf (s : App) (fieldName : string) : Verdict :=
  match document s !! fieldName, ValidationRules !! fieldName with
  | Some e, Some rules =>
      if bool_decide (fieldName ∈ conditionalFields)
      then Invalid "Validation error occurred"
      else judge fieldName rules (required rules) (trim (getProp "value" (self e)))
  | _, _ => Skipped
  end.

(** The field's form group shows success. *)
Definition fieldSuccessShown (s : App) (fieldName : string) : Prop :=
  exists e fg, document s !! fieldName = Some e /\ formGroup e = Some fg /\
    "success" ∈ classList (group fg) /\ ("error" ∉ classList (group fg)) /\
    attributes (self e) !! "aria-invalid" = Some "false".

(** The field's form group shows no error. *)
Definition fieldErrorCleared (s : App) (fieldName : string) : Prop :=
  exists e fg, document s !! fieldName = Some e /\ formGroup e = Some fg /\
    ("error" ∉ classList (group fg)) /\
    attributes (self e) !! "aria-invalid" = None.

Definition marked (s : App) (fieldName : string) (v : Verdict) : Prop :=
  match v with
  | Invalid message => fieldErrorShown s fieldName message
  | Valid => fieldSuccessShown s fieldName
  | Skipped => fieldErrorCleared s fieldName
  end.

(** ** Footprints *)

(** [s'] differs from [s] in the DOM only. *)
Definition only_dom (s s' : App) : Prop :=
  isGenerating s' = isGenerating s /\ currentTemplate s' = currentTemplate s /\
  elements s' = elements s /\ fields s' = fields s /\
  downloads s' = downloads s /\ lastGeneration s' = lastGeneration s.

(** Every run of [m] relates the state before to the state after. *)
Definition preserves {A} (R : App -> App -> Prop) (m : M A) : Prop :=
  forall s, R s (snd (m s)).

(** The [id] that [cacheElements] looks up for a key of the cache. *)
Definition idOf (key : string) : option string :=
  (list_to_map cachedIds : gmap string string) !! key.

(** The cache refers to elements by the ids [cacheElements] uses (it may be
    empty, or refer to elements that are gone). *)
Definition tidy (s : App) : Prop :=
  (forall key id, elements s !! key = Some (Some id) -> idOf key = Some id) /\
  (forall fs f id, fields s = Some fs -> property f fs = Some (Some id) -> id = f).

(** From a state that satisfies [P], [m] changes no element but those
    whose [id] is in [ids]. *)
Definition touches_only {A} (P : App -> Prop) (ids : list string) (m : M A) : Prop :=
  forall s id, P s -> id ∉ ids -> document (snd (m s)) !! id = document s !! id.

(** A condition on the cache and on which elements exist. *)
Definition stable (P : App -> Prop) : Prop :=
  forall s s', same_page s s' -> P s -> P s'.
Definition anywhere (s : App) : Prop := True.

(** The page has an element for each of [ids]. *)
Definition present (ids : list string) (s : App) : Prop :=
  forall id, id ∈ ids -> is_Some (document s !! id).

(** [m] returns normally on every page that has the elements [ids]. *)
Definition succeeds_on {A} (ids : list string) (m : M A) : Prop :=
  forall s, present ids s -> exists a s', m s = (Ok a, s').

(** ** The parts of a template *)

(** The elements of the template [template] that [populateTemplate] looks
    up unconditionally or when a section has content. *)
Definition templateIds (template : string) : list string :=
  (fun part => part +:+ template) <$>
  [ "pdf-name-"; "pdf-address-"; "pdf-phone-"; "pdf-email-"; "pdf-about-";
    "about-section-"; "pdf-photo-"; "pdf-experience-"; "experience-section-";
    "pdf-education-"; "education-section-"; "pdf-skills-"; "skills-section-";
    "pdf-strengths-"; "strengths-section-"; "pdf-achievements-";
    "achievements-section-"; "pdf-projects-"; "projects-section-";
    "pdf-certificates-"; "certificates-section-"; "pdf-custom-title-";
    "pdf-custom-content-"; "custom-section-" ].

(** The sections filled by [populateSection], with their content. *)
Definition plainSections (formData : FormData) : list (string * string) :=
  [ ("about", fd_about formData); ("experience", fd_experience formData);
    ("education", fd_education formData); ("strengths", fd_strengths formData);
    ("achievements", fd_achievements formData); ("projects", fd_projects formData);
    ("certificates", fd_certificates formData) ].

(** A string property of the element [id]. *)
Definition propOf (s : App) (id key : string) : option string :=
  e ← document s !! id; props (self e) !! key.

(** ** What a generation cycle leaves behind *)

(** The saved files and the record of the last generation are unchanged. *)
Definition same_files (s s' : App) : Prop :=
  downloads s' = downloads s /\ lastGeneration s' = lastGeneration s.

(** [`${formData.name.replace(/[^a-zA-Z0-9]/g, '_')}_Resume.pdf`] *)
Definition fileNameOf (formData : FormData) : string :=
  sanitizeName (fd_name formData) +:+ "_Resume.pdf".

(** A character that [sanitizeName] lets through, or its replacement. *)
Definition safeChar (c : ascii) : bool :=
  isLetter c || isDigit c || Ascii.eqb c "_"%char.

(** The elements a cycle works on besides the parts of the template. *)
Definition cycleIds (template : string) : list string :=
  [ "classic-header"; "pdf-" +:+ template; "message-container"; "loading-indicator";
    "resumeForm"; "live-region" ].

(** ** Reading the form *)

(** [m] leaves the state as it found it. *)
Definition reads_only {A} (m : M A) : Prop := forall s, snd (m s) = s.

(** The string property [key] of the element [id], as a script reads it. *)
Definition valueOf (s : App) (id key : string) : string :=
  match document s !! id with
  | Some e => getProp key (self e)
  | None => ""
  end.

(** [field.value.trim()] *)
Definition fieldText (s : App) (fieldName : string) : string :=
  trim (valueOf s fieldName "value").

Definition checkedOf (s : App) (id : string) : bool :=
  match document s !! id with
  | Some e => checked (self e)
  | None => false
  end.

(** The form data of a page that has all its fields. *)
Definition formDataOf (s : App) : FormData :=
  {| fd_name := fieldText s "name"; fd_email := fieldText s "email";
     fd_phone := fieldText s "phone"; fd_address := fieldText s "address";
     fd_about := fieldText s "about"; fd_experience := fieldText s "experience";
     fd_education := fieldText s "education"; fd_skills := fieldText s "skills";
     fd_strengths := fieldText s "strengths";
     fd_achievements := fieldText s "achievements";
     fd_projects := fieldText s "projects";
     fd_certificates := fieldText s "certificates";
     fd_customTitle := fieldText s "custom-title";
     fd_customContent := fieldText s "custom-content";
     fd_template := currentTemplate s;
     fd_includePhoto := checkedOf s "include-photo";
     fd_photo := if checkedOf s "include-photo"
                 then Some (valueOf s "photo-preview" "src") else None |}.

(** ** Photo upload: [validatePhotoFile], [handlePhotoUpload], [togglePhotoSection] *)

(** A [File], as far as the script reads it. *)
Record File := { file_size : N; file_type : string }.

Definition MAX_FILE_SIZE : N := 5 * 1024 * 1024.
Definition ALLOWED_IMAGE_TYPES : list string :=
  [ "image/jpeg"; "image/jpg"; "image/png"; "image/webp" ].

(** The two shapes of object that [validatePhotoFile] returns:
    [{ isValid: true }] and [{ isValid: false, message }]. *)
Inductive PhotoCheck := PhotoValid | PhotoInvalid (message : string).

(** The quotient in the message is an integer for the constant of the
    source; it is printed as such. *)
Definition validatePhotoFile (file : File) : PhotoCheck :=
  if (MAX_FILE_SIZE <? file_size file)%N then
    PhotoInvalid ("File size must be less than "
                    +:+ pretty (MAX_FILE_SIZE / (1024 * 1024))%N +:+ "MB")
  else if negb (bool_decide (file_type file ∈ ALLOWED_IMAGE_TYPES)) then
    PhotoInvalid "Please upload a valid image file (JPG, PNG, or WebP)"
  else PhotoValid.

(** What the browser supplies for photos: the data URL that the canvas of
    [createDefaultPhotoDataURL] serializes to, what a [FileReader] reads
    from a file ([None] when it fails), and [window.location.href]. *)
Record Photos := {
  defaultPhotoDataURL : string;
  readAsDataURL : File -> option string;
  locationHref : string
}.

Definition createDefaultPhotoDataURL (browser : Photos) : string :=
  defaultPhotoDataURL browser.

(** The form group of the photo input is reached from the input, as the
    source does with [closest]. *)
Definition showPhotoError (message : string) : M unit :=
  photoInput <- cached "photoInput" ;;
  closestFormGroup photoInput ;;
  write photoInput "classList"
    (with_formGroup (fun fg =>
       {| group := classAdd "error" (group fg);
          errorElement := (fun e => classAdd "show" (setProp "textContent" message e))
                            <$> errorElement fg |})) ;;
  announceToScreenReader ("Photo upload error: " +:+ message).

Definition clearPhotoError : M unit :=
  photoInput <- cached "photoInput" ;;
  closestFormGroup photoInput ;;
  write photoInput "classList"
    (with_formGroup (fun fg =>
       {| group := classRemove "error" (group fg);
          errorElement := classRemove "show" <$> errorElement fg |})).

Definition setPreview (src : string) : M unit :=
  preview <- cached "photoPreview" ;;
  write preview "src" (with_self (setProp "src" src)).

(** [reader.onload] *)
Definition photoLoaded (result : string) : M unit :=
  try_catch
    (setPreview result ;;
     announceToScreenReader "Photo uploaded successfully")
    (fun error => showPhotoError "Failed to load photo preview").

(** [handlePhotoUpload(event)] for an event on the element [target] whose
    [files[0]] is [file].  The [try] block decides whether a file is handed
    to the reader; the callbacks of the reader run after it, outside the
    [try]. *)
Definition handlePhotoUpload (browser : Photos) (target : string) (file : option File) : M unit :=
  reading <-
    try_catch
      (clearPhotoError ;;
       match file with
       | None =>
           setPreview (createDefaultPhotoDataURL browser) ;;
           ret None
       | Some f =>
           match validatePhotoFile f with
           | PhotoInvalid message =>
               showPhotoError message ;;
               write (Some (Some target)) "value" (with_self (setProp "value" "")) ;;
               ret None
           | PhotoValid => ret (Some f)
           end
       end)
      (fun error =>
         showPhotoError "An error occurred while uploading the photo" ;; ret None) ;;
  match reading with
  | Some f =>
      match readAsDataURL browser f with
      | Some result => photoLoaded result
      | None => showPhotoError "Failed to read photo file"
      end
  | None => ret tt
  end.

Definition togglePhotoSection (browser : Photos) : M unit :=
  isChecked <- checkbox "includePhoto" ;;
  photoGroup <- cached "photoGroup" ;;
  write photoGroup "style"
    (with_self (setStyle "display" (CssText (if isChecked then "block" else "none")))) ;;
  when (negb isChecked)
    (setPreview (createDefaultPhotoDataURL browser) ;;
     photoInput <- cached "photoInput" ;;
     write photoInput "value" (with_self (setProp "value" ""))) ;;
  announceToScreenReader
    ("Photo section " +:+ (if isChecked then "enabled" else "disabled")).

Definition initializePhotoPreview (browser : Photos) : M unit :=
  preview <- cached "photoPreview" ;;
  src <- read preview "src" (fun e => getProp "src" (self e)) ;;
  when (negb (truthy src) || bool_decide (src = locationHref browser))
    (write preview "src" (with_self (setProp "src" (createDefaultPhotoDataURL browser)))).

(** The form group of the photo input shows the error [message]. *)
Definition photoErrorShown (s : App) (message : string) : Prop :=
  exists e fg, document s !! "photo" = Some e /\ formGroup e = Some fg /\
    "error" ∈ classList (group fg) /\
    (forall em, errorElement fg = Some em ->
       props em !! "textContent" = Some message /\ "show" ∈ classList em).

Definition photoErrorCleared (s : App) : Prop :=
  exists e fg, document s !! "photo" = Some e /\ formGroup e = Some fg /\
    ("error" ∉ classList (group fg)) /\
    (forall em, errorElement fg = Some em -> "show" ∉ classList em).

(** The page has the photo controls: the input inside a form group, the
    preview image, the checkbox and the group that is shown or hidden. *)
Definition photoReady (s : App) : Prop :=
  initialised s /\ fieldInGroup s "photo" /\
  present [ "photo-preview"; "include-photo"; "photo-group" ] s.

(** A page with photo controls, for concrete runs. *)
Module Studio.

Definition layout : gmap string Element :=
  <["photo" := Sample.input "C:\fakepath\ada.png"]>
    (<["photo-group" := Sample.plain]>
       (<["include-photo" := with_self (fun n =>
             {| props := props n; checked := true; classList := classList n;
                attributes := attributes n; style := style n |}) Sample.plain]>
          Sample.page)).

Definition loaded : App :=
  {| isGenerating := false; currentTemplate := "modern"; elements := ∅; fields := None;
     document := layout; downloads := []; lastGeneration := None |}.
Definition opened : App := snd (cacheElements loaded).

Definition browser : Photos :=
  {| defaultPhotoDataURL := "data:image/png;base64,DEFAULT";
     readAsDataURL := fun f => Some ("data:" +:+ file_type f +:+ ";base64,PHOTO");
     locationHref := "https://example.org/resume/" |}.

Definition portrait : File := {| file_size := 204800; file_type := "image/png" |}.
Definition scan : File := {| file_size := 7340032; file_type := "image/png" |}.

End Studio.

(** ** Persistence: [localStorage], the template choice, the keyboard *)

(** [JSON.stringify] and [JSON.parse] on form data: the text of a form
    data, and the form data a text parses to ([None] when [JSON.parse]
    throws).  A stored text is taken to be the text of a form data or not
    to parse. *)
Record JSON := {
  stringify : FormData -> string;
  parse : string -> option FormData
}.

(** The window: the application and its page, [localStorage], what
    [document.querySelector] answers for the selector
    [input[name="template"][value="v"]] (an element, [null], or a
    [SyntaxError] for a [v] that breaks the selector), and the value of the
    template radio button that is checked. *)
Record Window := {
  resumeBuilder : App;
  localStorage : gmap string string;
  templateRadio : string -> Outcome bool;
  checkedRadio : option string
}.

Definition set_app (s : App) (w : Window) : Window :=
  {| resumeBuilder := s; localStorage := localStorage w; templateRadio := templateRadio w;
     checkedRadio := checkedRadio w |}.
Definition set_localStorage (l : gmap string string) (w : Window) : Window :=
  {| resumeBuilder := resumeBuilder w; localStorage := l; templateRadio := templateRadio w;
     checkedRadio := checkedRadio w |}.
Definition set_checkedRadio (v : option string) (w : Window) : Window :=
  {| resumeBuilder := resumeBuilder w; localStorage := localStorage w; templateRadio := templateRadio w;
     checkedRadio := v |}.
Definition set_currentTemplate (t : string) (s : App) : App :=
  {| isGenerating := isGenerating s; currentTemplate := t; elements := elements s;
     fields := fields s; document := document s; downloads := downloads s;
     lastGeneration := lastGeneration s |}.

(** Script code that also uses the window. *)
Definition W (A : Type) : Type := Window -> Outcome A * Window.

Definition wret {A} (a : A) : W A := fun w => (Ok a, w).
Definition wthrow {A} (e : JSError) : W A := fun w => (Throw e, w).
Definition wbind {A B} (m : W A) (k : A -> W B) : W B :=
  fun w => match m w with
           | (Ok a, w') => k a w'
           | (Throw e, w') => (Throw e, w')
           end.
Definition wtry {A} (body : W A) (handler : JSError -> W A) : W A :=
  fun w => match body w with
           | (Ok a, w') => (Ok a, w')
           | (Throw e, w') => handler e w'
           end.
Definition wwhen (b : bool) (m : W unit) : W unit := if b then m else wret tt.

(** Code of the application proper, run in the window. *)
Definition lift {A} (m : M A) : W A :=
  fun w => match m (resumeBuilder w) with (r, s) => (r, set_app s w) end.

Declare Scope win_scope.
Delimit Scope win_scope with win.
Notation "x <- m ;; k" := (wbind m (fun x => k))
  (at level 100, m at next level, right associativity) : win_scope.
Notation "m ;; k" := (wbind m (fun _ => k))
  (at level 100, right associativity) : win_scope.

Definition LOCAL_STORAGE_KEY : string := "resumeBuilderData".

(** [localStorage.setItem] is taken to succeed (the quota is not modelled). *)
Definition getItem (key : string) : W (option string) :=
  fun w => (Ok (localStorage w !! key), w).
Definition setItem (key value : string) : W unit :=
  fun w => (Ok tt, set_localStorage (<[key := value]> (localStorage w)) w).

(** [if (text)] for what [getItem] returned. *)
Definition hasText (item : option string) : bool :=
  match item with Some text => truthy text | None => false end.

(** [data[key]] for a string-valued key of a parsed form data. *)
Definition dataProperty (data : FormData) (key : string) : option string :=
  if decide (key = "name") then Some (fd_name data)
  else if decide (key = "email") then Some (fd_email data)
  else if decide (key = "phone") then Some (fd_phone data)
  else if decide (key = "address") then Some (fd_address data)
  else if decide (key = "about") then Some (fd_about data)
  else if decide (key = "experience") then Some (fd_experience data)
  else if decide (key = "education") then Some (fd_education data)
  else if decide (key = "skills") then Some (fd_skills data)
  else if decide (key = "strengths") then Some (fd_strengths data)
  else if decide (key = "achievements") then Some (fd_achievements data)
  else if decide (key = "projects") then Some (fd_projects data)
  else if decide (key = "certificates") then Some (fd_certificates data)
  else if decide (key = "customTitle") then Some (fd_customTitle data)
  else if decide (key = "customContent") then Some (fd_customContent data)
  else if decide (key = "template") then Some (fd_template data)
  else if decide (key = "photo") then fd_photo data
  else None.

Section Persistence.
Local Open Scope win_scope.

Definition setCurrentTemplate (template : string) : W unit :=
  fun w => (Ok tt, set_app (set_currentTemplate template (resumeBuilder w)) w).

(** [const radio = document.querySelector(...); if (radio) radio.checked = true] *)
Definition checkTemplateRadio (value : string) : W unit :=
  fun w => match templateRadio w value with
           | Ok true => (Ok tt, set_checkedRadio (Some value) w)
           | Ok false => (Ok tt, w)
           | Throw e => (Throw e, w)
           end.

Definition saveTemplateChoice : W unit :=
  wtry (fun w => setItem "selectedTemplate" (currentTemplate (resumeBuilder w)) w)
       (fun error => wret tt).

Definition loadSavedTemplate : W unit :=
  wtry
    (savedTemplate <- getItem "selectedTemplate" ;;
     match savedTemplate with
     | Some template =>
         wwhen (truthy template)
           (setCurrentTemplate template ;; checkTemplateRadio template)
     | None => wret tt
     end)
    (fun error => wret tt).

(** [handleTemplateChange(event)] for [event.target.value = value]. *)
Definition handleTemplateChange (value : string) : W unit :=
  wtry
    (setCurrentTemplate value ;;
     saveTemplateChoice ;;
     lift (announceToScreenReader ("Selected " +:+ value +:+ " template")))
    (fun error => lift (showMessage "Failed to change template" "error")).

Definition saveProgress (json : JSON) : W unit :=
  wtry
    (formData <- lift collectFormData ;;
     match formData with
     | Some fd =>
         setItem LOCAL_STORAGE_KEY (stringify json fd) ;;
         lift (showMessage "Progress saved successfully!" "success") ;;
         lift (announceToScreenReader "Form progress saved")
     | None => wret tt
     end)
    (fun error => lift (showMessage "Failed to save progress" "error")).

Definition autoSave (json : JSON) : W unit :=
  wtry
    (formData <- lift collectFormData ;;
     match formData with
     | Some fd => setItem (LOCAL_STORAGE_KEY +:+ "_auto") (stringify json fd)
     | None => wret tt
     end)
    (fun error => wret tt).

End Persistence.

(** [field.value = data[fieldName]] for the fields that exist and whose
    entry in [data] is a non-empty string. *)
Fixpoint restoreFields (fieldNames : list string) (data : FormData) : M unit :=
  match fieldNames with
  | [] => ret tt
  | fieldName :: rest =>
      field <- fieldRef fieldName ;;
      match field, dataProperty data fieldName with
      | Some (Some _), Some value =>
          when (truthy value) (write field "value" (with_self (setProp "value" value)))
      | _, _ => ret tt
      end ;;
      restoreFields rest data
  end.

Definition setChecked (b : bool) (n : Node) : Node :=
  {| props := props n; checked := b; classList := classList n;
     attributes := attributes n; style := style n |}.

(** [populateFormFields(data)] for a parsed form data: of the
    [hasOwnProperty] tests only the one for [includePhoto] holds. *)
Definition populateFormFields (browser : Photos) (data : FormData) : M unit :=
  s <- get ;;
  match fields s with
  | None => throw (TypeError "Object.keys")
  | Some fs => restoreFields (fst <$> fs) data
  end ;;
  match fd_photo data with
  | Some photo =>
      when (truthy photo && negb (bool_decide (photo = createDefaultPhotoDataURL browser)))
        (setPreview photo)
  | None => ret tt
  end ;;
  box <- cached "includePhoto" ;;
  write box "checked" (with_self (setChecked (fd_includePhoto data))) ;;
  togglePhotoSection browser.

Section Restoring.
Local Open Scope win_scope.

Definition loadSavedData (json : JSON) (browser : Photos) : W unit :=
  wtry
    (manual <- getItem LOCAL_STORAGE_KEY ;;
     savedData <- (if hasText manual then wret manual
                   else getItem (LOCAL_STORAGE_KEY +:+ "_auto")) ;;
     match savedData with
     | Some text =>
         wwhen (truthy text)
           match parse json text with
           | None => wthrow (Error "SyntaxError")
           | Some formData =>
               lift (populateFormFields browser formData) ;;
               wwhen (truthy (fd_template formData))
                 (setCurrentTemplate (fd_template formData) ;;
                  checkTemplateRadio (fd_template formData))
           end
     | None => wret tt
     end ;;
     loadSavedTemplate)
    (fun error => wret tt).

(** [handleBeforeUnload]: the text of the prompt, if it asks for one. *)
Definition handleBeforeUnload (json : JSON) : W (option string) :=
  currentData <- lift collectFormData ;;
  savedData <- getItem LOCAL_STORAGE_KEY ;;
  match currentData with
  | Some fd =>
      if negb (hasText savedData)
         || negb (bool_decide (Some (stringify json fd) = savedData))
      then wret (Some "You have unsaved changes. Are you sure you want to leave?")
      else wret None
  | None => wret None
  end.

End Restoring.

(** *** Keyboard shortcuts *)

Record KeyboardEvent := { ctrlKey : bool; metaKey : bool; key : string }.

(** The listener of the form's [submit] event: [handleFormSubmission] is an
    [async] function, so what it throws rejects its promise and reaches the
    handler of [unhandledrejection] instead of the caller. *)
Definition submitListener (env : Env) : M unit :=
  try_catch (handleFormSubmission env)
    (fun reason =>
       try_catch (showMessage "An error occurred while processing your request." "error")
         (fun error => ret tt)).

Definition dismissMessage : M unit :=
  messageContainer <- cached "messageContainer" ;;
  hidden <- read messageContainer "classList"
              (fun e => bool_decide ("hidden" ∈ classList (self e))) ;;
  when (negb hidden) (write messageContainer "classList" (with_self (classAdd "hidden"))).

Definition handleKeyboardShortcuts (json : JSON) (env : Env) (event : KeyboardEvent) : W unit :=
  if (ctrlKey event || metaKey event) && bool_decide (key event = "s") then
    saveProgress json
  else if (ctrlKey event || metaKey event) && bool_decide (key event = "Enter") then
    lift (s <- get ;;
          when (negb (isGenerating s))
            (form <- cached "form" ;;
             read form "dispatchEvent" (fun _ => tt) ;;
             submitListener env))
  else if bool_decide (key event = "Escape") then lift dismissMessage
  else wret tt.

(** *** Observations on a window *)

(** The page has the fourteen fields, the photo checkbox and the preview
    image, and [cacheElements] has run. *)
Definition formReady (s : App) : Prop :=
  initialised s /\ present (fieldNames ++ ["include-photo"; "photo-preview"]) s.

(** The text [loadSavedData] works from: the manual save, or else the
    automatic one. *)
Definition savedText (w : Window) : option string :=
  if hasText (localStorage w !! LOCAL_STORAGE_KEY)
  then localStorage w !! LOCAL_STORAGE_KEY
  else localStorage w !! (LOCAL_STORAGE_KEY +:+ "_auto").

(** The value of the field [fieldName] after [populateFormFields(data)], when
    it was [old] before. *)
Definition restored (data : FormData) (fieldName old : string) : string :=
  match dataProperty data fieldName with
  | Some value => if truthy value then value else old
  | None => old
  end.

(** A window on the page with photo controls, and a codec that knows the
    form data of that page. *)
Module Desk.

Definition json : JSON :=
  {| stringify := fun fd => "{name:" +:+ fd_name fd +:+ ",email:" +:+ fd_email fd +:+ "}";
     parse := fun text =>
       if decide (text = "{name:Ada Lovelace,email:ada@example.org}")
       then Some (formDataOf Studio.opened) else None |}.

Definition window : Window :=
  {| resumeBuilder := Studio.opened;
     localStorage := ∅;
     templateRadio := fun v => Ok (bool_decide (v ∈ ["modern"; "classic"; "creative"]));
     checkedRadio := Some "modern" |}.

(** The same window with a manual and an automatic save in its storage. *)
Definition revisited : Window :=
  set_localStorage
    (<["resumeBuilderData" := "{name:Ada Lovelace,email:ada@example.org}"]>
       (<["resumeBuilderData_auto" := "{name:Ada,email:}"]> ∅)) window.

End Desk.

(** * Properties *)

(** ** Paginator *)

Lemma pageLoop_unfold fuel canvas w h tp page pdf :
  fuel = Z.to_nat (tp - page) ->
  pageLoop fuel canvas w h tp page pdf =
  fold_left (fun pdf i => pageStep canvas w h tp i pdf) (seqZ page (tp - page)) pdf.
Proof.
  revert page pdf. induction fuel as [|fuel IH]; intros page pdf Hf; simpl.
  - rewrite seqZ_nil by lia. reflexivity.
  - destruct (Z.ltb_spec page tp) as [Hlt|Hge]; [|lia].
    rewrite seqZ_cons by lia. simpl.
    rewrite IH by lia. do 2 f_equal; lia.
Qed.

Lemma fold_pageStep canvas w h tp (n : nat) :
  fold_left (fun pdf i => pageStep canvas w h tp i pdf) (seqZ 0 (Z.of_nat (S n))) new_jsPDF =
  {| earlier := (fun i => [slicePlacement canvas w h tp i]) <$> seqZ 0 (Z.of_nat n);
     current := [slicePlacement canvas w h tp (Z.of_nat n)] |}.
Proof.
  induction n as [|n IH].
  - reflexivity.
  - rewrite seqZ_S, fold_left_app, IH. simpl.
    unfold pageStep. destruct (Z.ltb_spec 0 (0 + Z.of_nat (S n))) as [_|?]; [|lia].
    unfold addImage, addPage; simpl.
    rewrite seqZ_S, fmap_app. simpl. rewrite !Z.add_0_l. reflexivity.
Qed.

Lemma handleMultiPagePDF_pages canvas pw ph :
  0 < totalPagesOf canvas pw ph ->
  pages (handleMultiPagePDF new_jsPDF canvas pw ph) =
  (fun i => [slicePlacement canvas pw ph (totalPagesOf canvas pw ph) i]) <$>
     seqZ 0 (totalPagesOf canvas pw ph).
Proof.
  intros Hpos. unfold handleMultiPagePDF.
  rewrite pageLoop_unfold by (f_equal; lia).
  rewrite Z.sub_0_r.
  set (tp := totalPagesOf canvas pw ph) in *.
  destruct (Z.to_nat tp) as [|n] eqn:E; [lia|].
  replace (seqZ 0 tp) with (seqZ 0 (Z.of_nat (S n))) by (f_equal; lia).
  rewrite fold_pageStep. unfold pages. simpl.
  rewrite seqZ_S, fmap_app. simpl. rewrite Z.add_0_l. reflexivity.
Qed.

Local Open Scope Qc_scope.

Lemma ltb_lt (x y : Qc) : (x <? y) = true <-> x < y.
Proof.
  unfold Num.ltb. rewrite Qclt_alt. destruct (x ?= y); split; congruence.
Qed.

Lemma leb_le (x y : Qc) : (x <=? y) = true <-> x <= y.
Proof.
  unfold Num.leb. rewrite Qcle_alt. destruct (x ?= y); split; congruence.
Qed.

Lemma ltb_ge (x y : Qc) : (x <? y) = false <-> y <= x.
Proof.
  rewrite <- not_true_iff_false, ltb_lt. split; [apply Qcnot_lt_le | apply Qcle_not_lt].
Qed.

Lemma leb_gt (x y : Qc) : (x <=? y) = false <-> y < x.
Proof.
  rewrite <- not_true_iff_false, leb_le. split; [apply Qcnot_le_lt | apply Qclt_not_le].
Qed.

Lemma ceil_of_Z (k : Z) : Num.ceil (Num.of_Z k) = k.
Proof. apply Qceiling_Z. Qed.

Lemma ceil_gt_1 (x : Qc) : 1 < x -> (1 < Num.ceil x)%Z.
Proof.
  intros H. unfold Num.ceil.
  apply Z2Qc_inj_lt. rewrite Z2Qc_inj_1.
  eapply Qclt_le_trans; [exact H|].
  unfold Qcle. simpl. apply Qle_ceiling.
Qed.

Lemma Qcdiv_gt_1 (x y : Qc) : 0 < y -> y < x -> 1 < x / y.
Proof.
  intros Hy Hxy.
  assert (Hne : y <> 0) by (intros ->; by apply (Qclt_not_eq 0 0)).
  apply (Qcmult_lt_mono_pos_r _ _ y); [done|].
  rewrite Qcmult_1_l. unfold Qcdiv. rewrite <- Qcmult_assoc, Qcmult_inv_l, Qcmult_1_r; done.
Qed.

Lemma of_Z_lt (a b : Z) : (a < b)%Z -> Num.of_Z a < Num.of_Z b.
Proof. apply Z2Qc_inj_lt. Qed.

Lemma of_Z_le (a b : Z) : (a <= b)%Z -> Num.of_Z a <= Num.of_Z b.
Proof. apply Z2Qc_inj_le. Qed.

Lemma of_Z_0 : Num.of_Z 0 = 0.
Proof. apply Z2Qc_inj_0. Qed.

Lemma of_Z_1 : Num.of_Z 1 = 1.
Proof. apply Z2Qc_inj_1. Qed.

Lemma Qc_pos_neq (x : Qc) : 0 < x -> x <> 0.
Proof. intros Hx ->. by apply (Qclt_not_eq 0 0). Qed.

Lemma Qcdiv_mult_cancel (k y : Qc) : y <> 0 -> k * y / y = k.
Proof. intros. field. done. Qed.



Lemma assemble_multi (pw ph : Qc) (canvas : Canvas) :
  0 < ph -> ph < scaledHeight canvas pw ->
  (1 < totalPagesOf canvas pw ph)%Z /\
  pages (assemble pw ph canvas) =
    (fun i => [slicePlacement canvas pw ph (totalPagesOf canvas pw ph) i]) <$>
      seqZ 0 (totalPagesOf canvas pw ph).
Proof.
  intros Hph Hover.
  assert (Htp : (1 < totalPagesOf canvas pw ph)%Z)
    by (apply ceil_gt_1, Qcdiv_gt_1; done).
  split; [done|].
  unfold assemble. apply leb_gt in Hover. rewrite Hover.
  apply handleMultiPagePDF_pages. lia.
Qed.

(** C1. When the scaled image is taller than the page, the multi-page
    path makes [totalPages = ceil(scaledHeight / pageHeight)] pages; page
    [i] holds exactly one image, the band of the canvas that starts at
    [sourceY = i * (canvas.height / totalPages)] and is [sourceHeight =
    canvas.height / totalPages] rows tall, stretched over the whole page;
    the bands are emitted and placed in ascending order of [i]. *)
Theorem multi_page_slices (pageWidth pageHeight : Qc) (canvas : Canvas) :
  (0 < width canvas)%N ->
  0 < pageHeight ->
  pageHeight < scaledHeight canvas pageWidth ->
  let totalPages := Num.ceil (scaledHeight canvas pageWidth / pageHeight) in
  let band := Num.of_N (height canvas) / Num.of_Z totalPages in
  pages (assemble pageWidth pageHeight canvas) =
    (fun i => [ {| data := PageImage canvas
                             {| width := width canvas; height := Num.to_ulong band |}
                             (Num.of_Z i * band) band;
                   img_x := 0; img_y := 0; img_w := pageWidth; img_h := pageHeight |} ])
      <$> seqZ 0 totalPages.
Proof.
  intros _ Hph Hover. destruct (assemble_multi pageWidth pageHeight canvas Hph Hover) as [_ ->].
  reflexivity.
Qed.

Lemma multi_page_slices_witness :
  (0 < 1191)%N /\ 0 < A4_height /\
  A4_height < scaledHeight {| width := 1191; height := 2000 |} A4_width /\
  (fun p => (this (fst p), this (snd p))) <$>
    slices (assembleA4 {| width := 1191; height := 2000 |}) =
    [ (0 # 1, 1000 # 1); (1000 # 1, 1000 # 1) ]%Q.
Proof.
  assert (Hw : (0 < width {| width := 1191; height := 2000 |})%N) by reflexivity.
  assert (Hph : 0 < A4_height) by reflexivity.
  assert (Hover : A4_height < scaledHeight {| width := 1191; height := 2000 |} A4_width)
    by reflexivity.
  split; [exact Hw|]. split; [exact Hph|]. split; [exact Hover|].
  unfold slices, assembleA4.
  rewrite (multi_page_slices A4_width A4_height _ Hw Hph Hover).
  vm_compute. reflexivity.
Defined.

Lemma slices_multi (pw ph : Qc) (canvas : Canvas) :
  0 < ph -> ph < scaledHeight canvas pw ->
  slices (assemble pw ph canvas) =
    (fun i => (sourceY canvas (totalPagesOf canvas pw ph) i,
               sourceHeight canvas (totalPagesOf canvas pw ph)))
      <$> seqZ 0 (totalPagesOf canvas pw ph).
Proof.
  intros Hph Hover. unfold slices.
  destruct (assemble_multi pw ph canvas Hph Hover) as [_ ->].
  generalize (seqZ 0 (totalPagesOf canvas pw ph)) as l.
  induction l as [|i l IH]; [done|].
  rewrite !fmap_cons. cbn [concat app omap list_omap sliceOf slicePlacement data].
  f_equal. exact IH.
Qed.

Lemma sumQc_const (c : Qc) (l : list Z) :
  sumQc ((fun _ => c) <$> l) = Num.of_Z (Z.of_nat (length l)) * c.
Proof.
  induction l as [|i l IH].
  - cbn [fmap list_fmap length sumQc foldr Z.of_nat]. unfold Num.of_Z. change (Z.of_nat 0) with 0%Z. rewrite Z2Qc_inj_0. ring.
  - cbn [fmap list_fmap length sumQc foldr]. fold (sumQc ((fun _ => c) <$> l)). rewrite IH.
    rewrite Nat2Z.inj_succ. unfold Num.of_Z. rewrite <- Z.add_1_r, Z2Qc_inj_add, Z2Qc_inj_1. ring.
Qed.



(** The temporary page canvas is a whole number of rows high: when [k]
    does not divide the height, it is lower than the band drawn onto it. *)
Lemma page_canvas_height_truncated :
  let canvas := {| width := 7; height := 99 |} in
  scaledHeight canvas A4_width = Num.of_Z 10 * A4_height /\
  this (sourceHeight canvas 10) = (99 # 10)%Q /\
  Num.to_ulong (sourceHeight canvas 10) = 9%N.
Proof. split; [apply Qc_is_canon; reflexivity|]. split; reflexivity. Qed.

Local Close Scope Qc_scope.

(** ** ContentFitter *)

Local Open Scope Qc_scope.

Lemma Node_eq (a b : Node) :
  props a = props b -> checked a = checked b -> classList a = classList b ->
  attributes a = attributes b -> style a = style b -> a = b.
Proof. destruct a, b; simpl; intros; congruence. Qed.

Lemma classes_add_idemp (c : string) (s : gset string) : s ∪ {[c]} ∪ {[c]} = s ∪ {[c]}.
Proof. by rewrite <- (assoc_L (∪)), (idemp_L (∪)). Qed.

Ltac style_eq :=
  apply map_eq; intros ?; rewrite !lookup_insert; repeat destruct (decide _); done.
Ltac node_eq :=
  apply Node_eq; simpl; try reflexivity; [ apply classes_add_idemp || style_eq .. ].

Lemma shrinkSection_idemp n : shrinkSection (shrinkSection n) = shrinkSection n.
Proof. node_eq. Qed.
Lemma shrinkPhoto_idemp n : shrinkPhoto (shrinkPhoto n) = shrinkPhoto n.
Proof. node_eq. Qed.
Lemma applyScale_idemp f n : applyScale f (applyScale f n) = applyScale f n.
Proof. node_eq. Qed.
Lemma classAdd_idemp c n : classAdd c (classAdd c n) = classAdd c n.
Proof. node_eq. Qed.
Lemma classAdd_applyScale c f n : classAdd c (applyScale f n) = applyScale f (classAdd c n).
Proof. reflexivity. Qed.

(** What [compact] does to the surface itself, to its blocks and to its photo. *)
Lemma compact_self ph h el :
  self (compact ph h el) =
    let r := overflowRatioOf h ph in
    if Num.dec 11 10 <? r
    then (if Num.dec 16 10 <? r then applyScale (scaleFactorOf r) else id)
           (classAdd "compact" (self el))
    else self el.
Proof.
  unfold compact. cbv zeta.
  destruct (_ <? _); [|done]. by do 2 destruct (_ <? _).
Qed.

Lemma compact_blocks ph h el :
  blocks (compact ph h el) =
    let r := overflowRatioOf h ph in
    if (Num.dec 11 10 <? r) && (Num.dec 20 10 <? r)
    then shrinkSection <$> blocks el else blocks el.
Proof.
  unfold compact. cbv zeta.
  destruct (_ <? _); [|done]. by do 2 destruct (_ <? _).
Qed.

Lemma compact_photo ph h el :
  photo (compact ph h el) =
    let r := overflowRatioOf h ph in
    if (Num.dec 11 10 <? r) && (Num.dec 20 10 <? r)
    then shrinkPhoto <$> photo el else photo el.
Proof.
  unfold compact. cbv zeta.
  destruct (_ <? _); [|done]. by do 2 destruct (_ <? _).
Qed.

Lemma compact_rest ph h el :
  formGroup (compact ph h el) = formGroup el /\ paragraph (compact ph h el) = paragraph el.
Proof.
  unfold compact. cbv zeta.
  destruct (_ <? _); [|done]. by do 2 destruct (_ <? _).
Qed.

Lemma Element_eq (a b : Element) :
  self a = self b -> formGroup a = formGroup b -> paragraph a = paragraph b ->
  blocks a = blocks b -> photo a = photo b -> a = b.
Proof. destruct a, b; simpl; intros; congruence. Qed.

Lemma compact_twice (pageHeight : Qc) (contentHeight : N) (el : Element) :
  compact pageHeight contentHeight (compact pageHeight contentHeight el) =
  compact pageHeight contentHeight el.
Proof.
  apply Element_eq.
  - rewrite !compact_self. cbv zeta.
    destruct (Num.dec 11 10 <? _); [|done].
    destruct (Num.dec 16 10 <? _); simpl.
    + by rewrite classAdd_applyScale, classAdd_idemp, applyScale_idemp.
    + apply classAdd_idemp.
  - by rewrite !(proj1 (compact_rest _ _ _)).
  - by rewrite !(proj2 (compact_rest _ _ _)).
  - rewrite !compact_blocks. cbv zeta. destruct (_ && _); [|done].
    rewrite <- list_fmap_compose. apply list_fmap_ext. intros _ n _. apply shrinkSection_idemp.
  - rewrite !compact_photo. cbv zeta. destruct (_ && _); [|done].
    destruct (photo el); simpl; [|done]. by rewrite shrinkPhoto_idemp.
Qed.

Lemma scaleFactor_floor (r : Qc) : Num.dec 16 10 < r -> scaleFactorOf r = Num.dec 75 100.
Proof.
  intros Hr. unfold scaleFactorOf, Num.max.
  destruct (Num.dec 75 100 <? 1 / r) eqn:E; [exfalso|reflexivity].
  apply ltb_lt in E.
  assert (Hr0 : 0 < r) by (eapply Qclt_trans; [|exact Hr]; reflexivity).
  assert (H1 : Num.dec 75 100 * r < 1).
  { apply (Qcmult_lt_compat_r _ _ r) in E; [|done].
    replace (1 / r * r) with (Q2Qc 1) in E; [done|].
    field. by apply Qc_pos_neq. }
  assert (H2 : Num.dec 75 100 * Num.dec 16 10 < Num.dec 75 100 * r).
  { rewrite !(Qcmult_comm (Num.dec 75 100)). apply Qcmult_lt_compat_r; [reflexivity|done]. }
  assert (H3 : 1 < Num.dec 75 100 * Num.dec 16 10) by reflexivity.
  apply (Qclt_not_le _ _ H1). apply Qclt_le_weak.
  eapply Qclt_trans; [exact H3|exact H2].
Qed.

Lemma ltb_true_of_lt x y z : x < y -> y < z -> (x <? z) = true.
Proof. intros. apply ltb_lt. by eapply Qclt_trans. Qed.

Lemma ltb_false_of_le x y z : x < y -> z <= x -> (y <? z) = false.
Proof. intros. apply ltb_ge. eapply Qcle_trans; [done|]. by apply Qclt_le_weak. Qed.

Ltac style_lookup :=
  simpl; repeat (rewrite lookup_insert_ne by done); by rewrite lookup_insert_eq.

Lemma compact_tiers (pageHeight : Qc) (contentHeight : N) (el : Element) :
  0 < pageHeight ->
  let r := overflowRatioOf contentHeight pageHeight in
  let el' := compact pageHeight contentHeight el in
  let sf := Num.max (Num.dec 75 100) (1 / r) in
  (r <= Num.dec 11 10 -> el' = el) /\
  (Num.dec 11 10 < r -> "compact" ∈ classList (self el')) /\
  (Num.dec 16 10 < r ->
     style (self el') !! "transform" = Some (CssScale sf) /\
     style (self el') !! "transformOrigin" = Some (CssText "top left") /\
     style (self el') !! "width" = Some (CssPercent (Num.of_Z 100 / sf)) /\
     style (self el') !! "height" = Some (CssPercent (Num.of_Z 100 / sf))) /\
  (r <= Num.dec 16 10 -> style (self el') = style (self el)) /\
  (Num.dec 20 10 < r ->
     length (blocks el') = length (blocks el) /\
     Forall (fun b => style b !! "margin" = Some (CssText "2px 0") /\
                      style b !! "fontSize" = Some (CssText "9px")) (blocks el') /\
     (is_Some (photo el) -> is_Some (photo el')) /\
     (forall p, photo el' = Some p ->
        style p !! "width" = Some (CssText "50px") /\
        style p !! "height" = Some (CssText "50px"))) /\
  (r <= Num.dec 20 10 -> blocks el' = blocks el /\ photo el' = photo el).
Proof.
  intros _ r el' sf.
  assert (H12 : Num.dec 11 10 < Num.dec 16 10) by reflexivity.
  assert (H23 : Num.dec 16 10 < Num.dec 20 10) by reflexivity.
  assert (H13 : Num.dec 11 10 < Num.dec 20 10) by reflexivity.
  repeat apply conj.
  - intros Hr. unfold el', compact. fold r.
    by rewrite (proj2 (ltb_ge _ _) Hr).
  - intros Hr. unfold el'. rewrite compact_self. cbv zeta. fold r.
    rewrite (proj2 (ltb_lt _ _) Hr).
    destruct (Num.dec 16 10 <? r); simpl; set_solver.
  - intros Hr. unfold el'. rewrite compact_self. cbv zeta. fold r.
    rewrite (ltb_true_of_lt _ _ _ H12 Hr), (proj2 (ltb_lt _ _) Hr).
    unfold applyScale, scaleFactorOf. fold sf. repeat split; style_lookup.
  - intros Hr. unfold el'. rewrite compact_self. cbv zeta. fold r.
    rewrite (proj2 (ltb_ge _ _) Hr). by destruct (_ <? _).
  - intros Hr. unfold el'. rewrite compact_blocks, compact_photo. cbv zeta. fold r.
    rewrite (ltb_true_of_lt _ _ _ H13 Hr), (proj2 (ltb_lt _ _) Hr). simpl.
    split; [by rewrite length_fmap|].
    split; [apply Forall_fmap, Forall_true; intros b; split; style_lookup|].
    split; [intros [p ->]; by eexists|].
    intros p Hp. destruct (photo el) as [p0|]; simpl in Hp; [|done].
    inversion Hp; subst. split; style_lookup.
  - intros Hr. unfold el'. rewrite compact_blocks, compact_photo. cbv zeta. fold r.
    rewrite (proj2 (ltb_ge _ _) Hr). by rewrite andb_false_r.
Qed.

Local Close Scope Qc_scope.

(** ** Reasoning about script code *)

Section Monad.
Context {A B : Type}.

Lemma bind_ok (m : M A) (k : A -> M B) s a s' :
  m s = (Ok a, s') -> bind m k s = k a s'.
Proof. unfold bind. by intros ->. Qed.

Lemma bind_throw (m : M A) (k : A -> M B) s e s' :
  m s = (Throw e, s') -> bind m k s = (Throw e, s').
Proof. unfold bind. by intros ->. Qed.

Lemma bind_inv_ok (m : M A) (k : A -> M B) s b s' :
  bind m k s = (Ok b, s') -> exists a s1, m s = (Ok a, s1) /\ k a s1 = (Ok b, s').
Proof. unfold bind. destruct (m s) as [[a|e] s1]; [eauto|discriminate]. Qed.

Lemma bind_inv_throw (m : M A) (k : A -> M B) s e s' :
  bind m k s = (Throw e, s') ->
  m s = (Throw e, s') \/ exists a s1, m s = (Ok a, s1) /\ k a s1 = (Throw e, s').
Proof.
  unfold bind. destruct (m s) as [[a|e'] s1]; intros H.
  - right. by exists a, s1.
  - left. by inversion H.
Qed.
End Monad.

Lemma same_page_refl s : same_page s s.
Proof. by repeat split. Qed.

Lemma same_page_trans s1 s2 s3 : same_page s1 s2 -> same_page s2 s3 -> same_page s1 s3.
Proof.
  intros (He & Hf & Hd) (He' & Hf' & Hd'). repeat split; try congruence.
  - intros H. by apply Hd, Hd'.
  - intros H. by apply Hd', Hd.
Qed.

Create HintDb keeps discriminated.

Lemma keeps_ret {A} (a : A) : keeps_page (ret a).
Proof. intros s. apply same_page_refl. Qed.
Lemma keeps_throw {A} e : keeps_page (@throw A e).
Proof. intros s. apply same_page_refl. Qed.
Lemma keeps_get : keeps_page get.
Proof. intros s. apply same_page_refl. Qed.

Lemma keeps_bind {A B} (m : M A) (k : A -> M B) :
  keeps_page m -> (forall a, keeps_page (k a)) -> keeps_page (bind m k).
Proof.
  intros Hm Hk s. unfold bind. specialize (Hm s).
  destruct (m s) as [[a|e] s1]; simpl in *; [|done].
  eapply same_page_trans; [exact Hm|apply Hk].
Qed.

Lemma keeps_try_catch {A} (m : M A) (h : JSError -> M A) :
  keeps_page m -> (forall e, keeps_page (h e)) -> keeps_page (try_catch m h).
Proof.
  intros Hm Hh s. unfold try_catch. specialize (Hm s).
  destruct (m s) as [[a|e] s1]; simpl in *; [done|].
  eapply same_page_trans; [exact Hm|apply Hh].
Qed.

Lemma keeps_try_finally {A} (m : M A) (c : M unit) :
  keeps_page m -> keeps_page c -> keeps_page (try_finally m c).
Proof.
  intros Hm Hc s. unfold try_finally. specialize (Hm s).
  destruct (m s) as [r s1]; simpl in *. specialize (Hc s1).
  destruct (c s1) as [[[]|e] s2]; simpl in *; by eapply same_page_trans.
Qed.

Lemma keeps_when b (m : M unit) : keeps_page m -> keeps_page (when b m).
Proof. destruct b; [done|intros _; apply keeps_ret]. Qed.

Lemma keeps_set_isGenerating b : keeps_page (modify (set_isGenerating b)).
Proof. intros s. by repeat split. Qed.
Lemma keeps_add_download f pdf : keeps_page (modify (add_download f pdf)).
Proof. intros s. by repeat split. Qed.
Lemma keeps_set_lastGeneration g : keeps_page (modify (set_lastGeneration g)).
Proof. intros s. by repeat split. Qed.

Lemma keeps_getElementById id : keeps_page (getElementById id).
Proof. intros s. apply same_page_refl. Qed.
Lemma keeps_cached k : keeps_page (cached k).
Proof. intros s. apply same_page_refl. Qed.
Lemma keeps_fieldRef f : keeps_page (fieldRef f).
Proof. intros s. unfold fieldRef, bind, get. simpl. destruct (fields s); apply same_page_refl. Qed.

Lemma keeps_read {A} r what (f : Element -> A) : keeps_page (read r what f).
Proof.
  intros s. unfold read, bind, get. simpl.
  destruct r as [[id|]|]; try apply same_page_refl.
  destruct (document s !! id); apply same_page_refl.
Qed.

Lemma keeps_write r what f : keeps_page (write r what f).
Proof.
  intros s. unfold write, bind, get. simpl.
  destruct r as [[id|]|]; try apply same_page_refl.
  destruct (document s !! id) as [e|] eqn:E; [|apply same_page_refl].
  simpl. repeat split; simpl; intros H.
  - destruct (decide (id = id0)) as [<-|Hne]; [by rewrite E|].
    by rewrite lookup_insert_ne in H.
  - destruct (decide (id = id0)) as [<-|Hne]; [by rewrite lookup_insert_eq|].
    by rewrite lookup_insert_ne.
Qed.

#[export] Hint Resolve keeps_ret keeps_throw keeps_get keeps_when
  keeps_set_isGenerating keeps_add_download keeps_set_lastGeneration
  keeps_getElementById keeps_cached keeps_fieldRef keeps_read keeps_write : keeps.

Ltac keeps :=
  repeat first
    [ progress eauto with keeps
    | apply keeps_bind; [|intros ?]
    | apply keeps_try_catch; [|intros ?]
    | apply keeps_try_finally
    | apply keeps_when
    | match goal with
      | |- keeps_page (match ?x with _ => _ end) => destruct x
      | |- keeps_page (if ?x then _ else _) => destruct x
      end ].

Lemma keeps_showMessage m t : keeps_page (showMessage m t).
Proof. unfold showMessage. keeps. Qed.
Lemma keeps_showLoading m : keeps_page (showLoading m).
Proof. unfold showLoading. keeps. Qed.
Lemma keeps_hideLoading : keeps_page hideLoading.
Proof. unfold hideLoading. keeps. Qed.
Lemma keeps_announce m : keeps_page (announceToScreenReader m).
Proof. unfold announceToScreenReader. keeps. Qed.
#[export] Hint Resolve keeps_showMessage keeps_showLoading keeps_hideLoading keeps_announce : keeps.

Lemma keeps_byId id what f : keeps_page (byId id what f).
Proof. unfold byId. keeps. Qed.
#[export] Hint Resolve keeps_byId : keeps.

Lemma keeps_populateTemplate fd : keeps_page (populateTemplate fd).
Proof.
  unfold populateTemplate, populateSection, populatePhoto, populateSkills, populateCustom,
    setText, setHTML, setDisplay.
  keeps.
Qed.

Lemma keeps_adjust env id : keeps_page (adjustTemplateForContent env id).
Proof. unfold adjustTemplateForContent. keeps. Qed.
Lemma keeps_rasterize env id : keeps_page (rasterize env id).
Proof. intros s. unfold rasterize. simpl. apply same_page_refl. Qed.
#[export] Hint Resolve keeps_populateTemplate keeps_adjust keeps_rasterize : keeps.

Lemma keeps_generateBody env fd : keeps_page (generateBody env fd).
Proof.
  unfold generateBody, waitForResources, saveSuccessfulGeneration. keeps.
Qed.

(** ** The UI helpers on a page that has its chrome *)

Lemma write_run id what f s e :
  document s !! id = Some e ->
  write (Some (Some id)) what f s = (Ok tt, set_document (<[id := f e]> (document s)) s).
Proof. intros H. unfold write, bind, get. simpl. by rewrite H. Qed.

Lemma read_run {A} id what (f : Element -> A) s e :
  document s !! id = Some e ->
  read (Some (Some id)) what f s = (Ok (f e), s).
Proof. intros H. unfold read, bind, get. simpl. by rewrite H. Qed.

Lemma cached_run key s : cached key s = (Ok (elements s !! key), s).
Proof. reflexivity. Qed.

Lemma chromeReady_same_page s s' : same_page s s' -> chromeReady s -> chromeReady s'.
Proof.
  intros (He & _ & Hd) (H1 & H2 & H3 & H4 & H5 & H6).
  unfold chromeReady. rewrite He. repeat split; try done; by apply Hd.
Qed.

Lemma showMessage_run m t s :
  chromeReady s ->
  exists e, document s !! "message-container" = Some e /\
    showMessage m t s =
      (Ok tt, set_document (<["message-container" := with_self (notice m t) e]> (document s)) s).
Proof.
  intros (H1 & _ & _ & [e He] & _). exists e. split; [done|].
  unfold showMessage. rewrite (bind_ok _ _ _ _ _ (cached_run _ s)). rewrite H1.
  by apply write_run.
Qed.

Lemma hideLoading_run s :
  chromeReady s ->
  exists li fm, document s !! "loading-indicator" = Some li /\
    document s !! "resumeForm" = Some fm /\
    hideLoading s =
      (Ok tt, set_document
                (<["resumeForm" := with_self enabledForm fm]>
                   (<["loading-indicator" := with_self hiddenIndicator li]> (document s))) s).
Proof.
  intros (_ & H2 & H3 & _ & [li Hli] & [fm Hfm]). exists li, fm. do 2 (split; [done|]).
  unfold hideLoading. rewrite (bind_ok _ _ _ _ _ (cached_run _ s)), H2.
  erewrite bind_ok by (by apply write_run).
  erewrite bind_ok by apply cached_run. simpl. rewrite H3.
  erewrite write_run by (simpl; by rewrite lookup_insert_ne). done.
Qed.

Lemma noticeShown_after m t e d s :
  t <> "hidden" ->
  noticeShown (set_document (<["message-container" := with_self (notice m t) e]> d) s) m t.
Proof.
  intros Ht. eexists. split; [simpl; apply lookup_insert_eq|].
  simpl. split; [apply lookup_insert_eq|]. split.
  - apply elem_of_difference. split; [by apply elem_of_singleton|].
    rewrite elem_of_singleton. done.
  - rewrite elem_of_difference, !elem_of_singleton. by intros [_ H].
Qed.

Lemma noticeShown_hideLoading m t s s' :
  chromeReady s -> noticeShown s m t -> hideLoading s = (Ok tt, s') -> noticeShown s' m t.
Proof.
  intros Hc (e & He & Hn) Hrun.
  destruct (hideLoading_run s Hc) as (li & fm & _ & _ & Hrun').
  rewrite Hrun' in Hrun. inversion Hrun; subst. exists e. split; [|done].
  simpl. by rewrite !lookup_insert_ne.
Qed.

Lemma idle_after_hideLoading s s' :
  chromeReady s -> isGenerating s = false -> hideLoading s = (Ok tt, s') -> idle s'.
Proof.
  intros Hc Hgen Hrun.
  destruct (hideLoading_run s Hc) as (li & fm & _ & _ & Hrun').
  rewrite Hrun' in Hrun. inversion Hrun; subst. split; [done|]. split.
  - exists (with_self hiddenIndicator li). split.
    + simpl. rewrite lookup_insert_ne by done. apply lookup_insert_eq.
    + simpl. split; [set_solver|apply lookup_insert_eq].
  - exists (with_self enabledForm fm). split; [simpl; apply lookup_insert_eq|].
    simpl. rewrite lookup_insert_ne by done. apply lookup_insert_eq.
Qed.

(** ** The guard of [handleFormSubmission] *)

Lemma notice_twice m t m' t' e :
  with_self (notice m t) (with_self (notice m' t') e) = with_self (notice m t) e.
Proof.
  apply Element_eq; try reflexivity. simpl. apply Node_eq; try reflexivity.
  simpl. by rewrite insert_insert_eq.
Qed.

(** C6. A submission that arrives while [isGenerating] is set is turned
    away at once: the handler returns normally, the message container
    shows the warning, and nothing else changes: the flag stays set, no
    file is written, the cache and every other element of the page are as
    they were, so the cycle in flight goes on from the state it had; and
    the notice that ends the cycle replaces the warning, leaving the state
    the cycle would have left without the rejected request. *)
Theorem rejected_while_generating (env : Env) (s : App) :
  isGenerating s = true ->
  chromeReady s ->
  exists e s',
    document s !! "message-container" = Some e /\
    handleFormSubmission env s = (Ok tt, s') /\
    s' = set_document
           (<["message-container" :=
                with_self (notice "PDF generation already in progress" "warning") e]>
              (document s)) s /\
    noticeShown s' "PDF generation already in progress" "warning" /\
    isGenerating s' = true /\
    downloads s' = downloads s /\
    lastGeneration s' = lastGeneration s /\
    elements s' = elements s /\ fields s' = fields s /\
    (forall id, id <> "message-container" -> document s' !! id = document s !! id) /\
    (forall message type, showMessage message type s' = showMessage message type s).
Proof.
  intros Hgen Hc.
  destruct (showMessage_run "PDF generation already in progress" "warning" s Hc)
    as (e & He & Hrun).
  exists e. eexists. split; [done|]. split.
  - unfold handleFormSubmission, handleFormSubmissionWith, try_catch.
    unfold bind at 1. simpl. rewrite Hgen, Hrun. reflexivity.
  - split; [reflexivity|]. split; [by apply noticeShown_after|].
    do 5 (split; [done|]). split.
    + intros id Hid. simpl. by rewrite lookup_insert_ne.
    + intros message type.
      destruct (showMessage_run message type s Hc) as (e0 & He0 & ->).
      assert (e0 = e) as -> by congruence.
      match goal with |- showMessage _ _ ?st = _ =>
        assert (Hc' : chromeReady st) end.
      { eapply chromeReady_same_page; [|exact Hc].
        pose proof (keeps_showMessage "PDF generation already in progress" "warning" s) as Hk.
        by rewrite Hrun in Hk. }
      destruct (showMessage_run message type _ Hc') as (e1 & He1 & ->).
      simpl in He1. rewrite lookup_insert_eq in He1. inversion He1; subst e1.
      unfold set_document. simpl. by rewrite insert_insert_eq, notice_twice.
Qed.

(** ** Failure of a generation cycle *)

Lemma chromeReady_set_isGenerating b s : chromeReady s -> chromeReady (set_isGenerating b s).
Proof. done. Qed.

Lemma chromeReady_after {A} (m : M A) s : keeps_page m -> chromeReady s -> chromeReady (snd (m s)).
Proof. intros Hk. apply chromeReady_same_page, Hk. Qed.

Lemma generateFinally_run s :
  chromeReady s ->
  exists s', generateFinally s = (Ok tt, s') /\ hideLoading (set_isGenerating false s) = (Ok tt, s').
Proof.
  intros Hc.
  destruct (hideLoading_run (set_isGenerating false s)) as (li & fm & _ & _ & Hrun); [done|].
  eexists. split; [|exact Hrun].
  unfold generateFinally. erewrite bind_ok by reflexivity. exact Hrun.
Qed.

Lemma generatePDF_of_body_throw env fd s e sb :
  chromeReady s ->
  generateBody env fd s = (Throw e, sb) ->
  exists s1, generatePDF env fd s = (Throw e, s1) /\
    chromeReady s1 /\ noticeShown s1 failureNotice "error" /\ idle s1.
Proof.
  intros Hc Hbody.
  assert (Hcb : chromeReady sb).
  { change sb with (snd (Throw (A:=unit) e, sb)). rewrite <- Hbody.
    apply chromeReady_after; [apply keeps_generateBody|done]. }
  destruct (showMessage_run failureNotice "error" sb Hcb) as (em & Hem & Hshow).
  set (sm := set_document _ sb) in Hshow.
  assert (Hcm : chromeReady sm).
  { change sm with (snd (Ok tt, sm)). rewrite <- Hshow.
    apply chromeReady_after; [apply keeps_showMessage|done]. }
  destruct (generateFinally_run sm Hcm) as (s1 & Hfin & Hhide).
  exists s1. split; [|split; [|split]].
  - unfold generatePDF, try_finally, try_catch. rewrite Hbody.
    unfold generateCatch. fold failureNotice. erewrite bind_ok by exact Hshow.
    unfold throw. by rewrite Hfin.
  - change s1 with (snd (Ok tt, s1)). rewrite <- Hhide.
    apply chromeReady_after; [apply keeps_hideLoading|done].
  - eapply (noticeShown_hideLoading _ _ (set_isGenerating false sm)); [done| |exact Hhide].
    by apply noticeShown_after.
  - by eapply (idle_after_hideLoading (set_isGenerating false sm)).
Qed.

Lemma generatePDF_of_body_ok env fd s sb :
  chromeReady s ->
  generateBody env fd s = (Ok tt, sb) ->
  exists s1, generatePDF env fd s = (Ok tt, s1) /\
    hideLoading (set_isGenerating false sb) = (Ok tt, s1).
Proof.
  intros Hc Hbody.
  assert (Hcb : chromeReady sb).
  { change sb with (snd (Ok tt, sb)). rewrite <- Hbody.
    apply chromeReady_after; [apply keeps_generateBody|done]. }
  destruct (generateFinally_run sb Hcb) as (s1 & Hfin & Hhide).
  exists s1. split; [|done].
  unfold generatePDF, try_finally, try_catch. by rewrite Hbody, Hfin.
Qed.

Lemma submissionCatch_run e s :
  chromeReady s -> idle s ->
  exists s', submissionCatch e s = (Ok tt, s') /\ noticeShown s' retryNotice "error" /\ idle s'.
Proof.
  intros Hc (Hgen & _).
  destruct (showMessage_run retryNotice "error" s Hc) as (em & Hem & Hshow).
  set (sm := set_document _ s) in Hshow.
  assert (Hcm : chromeReady sm).
  { change sm with (snd (Ok tt, sm)). rewrite <- Hshow.
    apply chromeReady_after; [apply keeps_showMessage|done]. }
  destruct (hideLoading_run sm Hcm) as (li & fm & Hli & Hfm & Hhide).
  eexists. split; [|split].
  - unfold submissionCatch. fold retryNotice. erewrite bind_ok by exact Hshow. exact Hhide.
  - eapply (noticeShown_hideLoading _ _ sm); [done| |exact Hhide].
    by apply noticeShown_after.
  - by eapply (idle_after_hideLoading sm).
Qed.

Lemma showLoading_ok m s :
  chromeReady s -> exists s', showLoading m s = (Ok tt, s') /\ same_page s s'.
Proof.
  intros Hc. pose proof (keeps_showLoading m s) as Hk.
  destruct Hc as (_ & H2 & H3 & _ & [li Hli] & [fm Hfm]).
  unfold showLoading in *. rewrite (bind_ok _ _ _ _ _ (cached_run _ s)), H2 in *.
  erewrite bind_ok in * by (by apply write_run).
  erewrite bind_ok in * by (apply write_run; simpl; apply lookup_insert_eq).
  erewrite bind_ok in * by apply cached_run. simpl in *. rewrite H3 in *.
  erewrite write_run in * by (simpl; by rewrite !lookup_insert_ne).
  eexists. split; [reflexivity|exact Hk].
Qed.

Lemma same_page_None s s' id :
  same_page s s' -> document s !! id = None -> document s' !! id = None.
Proof.
  intros (_ & _ & Hd) Hn. apply eq_None_not_Some. rewrite Hd, Hn. by intros [? ?].
Qed.

Lemma body_prefix env fd s :
  chromeReady s ->
  exists s', same_page s s' /\
    generateBody env fd s =
      bind (populateTemplate fd) (fun _ =>
        templateElement <- getElementById ("pdf-" +:+ fd_template fd) ;;
        match templateElement with
        | None => throw (Error ("Template " +:+ fd_template fd +:+ " not found"))
        | Some id =>
            write (Some templateElement) "style" (with_self showOffscreen) ;;
            waitForResources ;;
            adjustTemplateForContent env id ;;
            canvas <- rasterize env id ;;
            write (Some templateElement) "style"
              (with_self (setStyle "display" (CssText "none"))) ;;
            let pdf := assembleA4 canvas in
            let fileName := sanitizeName (fd_name fd) +:+ "_Resume.pdf" in
            modify (add_download fileName pdf) ;;
            showMessage ("Resume generated successfully! Downloaded as " +:+ fileName)
              "success" ;;
            announceToScreenReader "Resume PDF generated and downloaded successfully" ;;
            saveSuccessfulGeneration fd
        end) s'.
Proof.
  intros Hc.
  destruct (showLoading_ok "Generating your resume..." (set_isGenerating true s))
    as (s' & Hrun & Hsame); [done|].
  exists s'. split; [exact Hsame|].
  unfold generateBody. erewrite bind_ok by reflexivity. erewrite bind_ok by exact Hrun.
  reflexivity.
Qed.

Lemma populate_failure fd s :
  document s !! ("pdf-name-" +:+ fd_template fd) = None ->
  exists s', populateTemplate fd s =
    (Throw (Error "Failed to populate template with form data"), s').
Proof.
  intros Hn. unfold populateTemplate, try_catch.
  set (rest := bind (setText ("pdf-address-" +:+ _) _) _).
  assert (Hfirst : setText ("pdf-name-" +:+ fd_template fd) (fd_name fd) s
                   = (Throw (TypeError "textContent"), s)).
  { unfold setText, byId, getElementById. erewrite bind_ok by reflexivity.
    simpl. rewrite Hn. reflexivity. }
  cbv zeta. erewrite bind_throw by exact Hfirst. by eexists.
Qed.

Lemma body_fails_without_template env fd s :
  chromeReady s ->
  document s !! ("pdf-" +:+ fd_template fd) = None ->
  exists e sb, generateBody env fd s = (Throw e, sb).
Proof.
  intros Hc Hn. destruct (body_prefix env fd s Hc) as (s' & Hsame & ->).
  pose proof (keeps_populateTemplate fd s') as Hk.
  unfold bind at 1. destruct (populateTemplate fd s') as [[[]|e] sp]; [|by eauto].
  simpl in Hk.
  assert (Hnp : document sp !! ("pdf-" +:+ fd_template fd) = None).
  { eapply same_page_None; [exact Hk|]. by eapply same_page_None. }
  unfold getElementById. erewrite bind_ok by reflexivity. simpl. rewrite Hnp.
  by eauto.
Qed.

Lemma rasterize_rejects env id s :
  (forall d i o, exists err, html2canvas env d i o = Throw err) ->
  forall c s', rasterize env id s <> (Ok c, s').
Proof.
  intros Hrej c s'. unfold rasterize.
  destruct (Hrej (document s) id
     {| opt_scale := Num.dec 15 10; opt_height := scrollHeight env (document s) id;
        opt_width := offsetWidth env (document s) id |}) as [err ->].
  discriminate.
Qed.

Lemma body_fails_when_rasterizer_rejects env fd s :
  (forall d i o, exists err, html2canvas env d i o = Throw err) ->
  exists e sb, generateBody env fd s = (Throw e, sb).
Proof.
  intros Hrej. destruct (generateBody env fd s) as [[[]|e] sb] eqn:Hbody; [exfalso|by eauto].
  unfold generateBody in Hbody.
  apply bind_inv_ok in Hbody as (? & s1 & _ & Hbody).
  apply bind_inv_ok in Hbody as (? & s2 & _ & Hbody).
  apply bind_inv_ok in Hbody as (? & s3 & _ & Hbody).
  apply bind_inv_ok in Hbody as (t & s4 & _ & Hbody).
  destruct t as [id|]; [|discriminate].
  apply bind_inv_ok in Hbody as (? & s5 & _ & Hbody).
  apply bind_inv_ok in Hbody as (? & s6 & _ & Hbody).
  apply bind_inv_ok in Hbody as (? & s7 & _ & Hbody).
  apply bind_inv_ok in Hbody as (c & s8 & Hr & _).
  by eapply rasterize_rejects.
Qed.

(** ** Validation of the conditionally required fields *)

Lemma keeps_closestFormGroup r : keeps_page (closestFormGroup r).
Proof. unfold closestFormGroup. keeps. Qed.
Lemma keeps_fieldValue r : keeps_page (fieldValue r).
Proof. unfold fieldValue. keeps. Qed.
#[export] Hint Resolve keeps_closestFormGroup keeps_fieldValue : keeps.

Lemma keeps_showFieldError f m : keeps_page (showFieldError f m).
Proof. unfold showFieldError. keeps. Qed.
Lemma keeps_showFieldSuccess f : keeps_page (showFieldSuccess f).
Proof. unfold showFieldSuccess. keeps. Qed.
Lemma keeps_clearFieldError f : keeps_page (clearFieldError f).
Proof. unfold clearFieldError. keeps. Qed.
Lemma keeps_isFieldRequired f : keeps_page (isFieldRequired f).
Proof. unfold isFieldRequired, checkbox. keeps. Qed.
#[export] Hint Resolve keeps_showFieldError keeps_showFieldSuccess keeps_clearFieldError
  keeps_isFieldRequired : keeps.

Lemma keeps_validateField f : keeps_page (validateField f).
Proof. unfold validateField, checkField. keeps. Qed.
#[export] Hint Resolve keeps_validateField : keeps.

Lemma keeps_validateEach l b : keeps_page (validateEach l b).
Proof. revert b. induction l as [|f l IH]; intros b; simpl; keeps. Qed.

Lemma keeps_collectFormData : keeps_page collectFormData.
Proof. unfold collectFormData, trimmedField, checkbox. keeps. Qed.

Lemma refsOf_same d d' ids :
  (forall id, is_Some (d' !! id) <-> is_Some (d !! id)) -> refsOf d' ids = refsOf d ids.
Proof.
  intros H. unfold refsOf. apply list_fmap_ext. intros _ [k id] _. simpl.
  specialize (H id). destruct (d !! id), (d' !! id); try done.
  - destruct H as [_ H]. by destruct H.
  - destruct H as [H _]. by destruct H.
Qed.

Lemma initialised_same_page s s' : same_page s s' -> initialised s -> initialised s'.
Proof.
  intros (He & Hf & Hd) (H1 & H2). unfold initialised.
  rewrite He, Hf, !(refsOf_same _ _ _ Hd). done.
Qed.

Lemma refsOf_keys d ids : (refsOf d ids).*1 = ids.*1.
Proof. unfold refsOf. rewrite <- list_fmap_compose. by apply list_fmap_ext. Qed.

Lemma property_refsOf d names f :
  f ∈ names ->
  property f (refsOf d ((fun f => (f, f)) <$> names)) =
    Some (match d !! f with Some _ => Some f | None => None end).
Proof.
  induction names as [|x names IH]; intros Hin; [by apply elem_of_nil in Hin|].
  rewrite fmap_cons. unfold refsOf. rewrite fmap_cons. fold (refsOf d ((fun f => (f, f)) <$> names)).
  simpl. destruct (decide (x = f)) as [->|Hne]; [done|].
  apply IH. apply elem_of_cons in Hin as [->|]; done.
Qed.

Lemma conditional_is_field f :
  f ∈ conditionalFields ->
  f ∈ [ "name"; "email"; "phone"; "address"; "about"; "experience"; "education";
        "skills"; "strengths"; "achievements"; "projects"; "certificates";
        "custom-title"; "custom-content" ].
Proof.
  unfold conditionalFields. intros H.
  repeat (apply elem_of_cons in H as [->|H]); [..|by apply elem_of_nil in H];
    apply list_elem_of_In; simpl; tauto.
Qed.

Lemma fieldRef_initialised f s :
  initialised s ->
  f ∈ conditionalFields ->
  fieldRef f s = (Ok (Some (match document s !! f with Some _ => Some f | None => None end)), s).
Proof.
  intros (_ & Hf) Hin. unfold fieldRef. erewrite bind_ok by reflexivity. rewrite Hf.
  unfold fieldIds. rewrite property_refsOf by by apply conditional_is_field. done.
Qed.

Lemma no_checkbox_cached s key :
  initialised s ->
  key ∈ requirementCheckboxes ->
  elements s !! key = None.
Proof.
  intros (He & _) Hin. rewrite He. apply not_elem_of_list_to_map_1.
  rewrite refsOf_keys. intros Hk. apply list_elem_of_In in Hk. simpl in Hk.
  repeat (apply elem_of_cons in Hin as [->|Hin]); [..|by apply elem_of_nil in Hin];
    intuition discriminate.
Qed.

Lemma conditional_rules f :
  f ∈ conditionalFields ->
  exists rules, ValidationRules !! f = Some rules /\ required rules = false.
Proof.
  unfold conditionalFields. intros H.
  repeat (apply elem_of_cons in H as [->|H]); [..|by apply elem_of_nil in H];
    eexists; (split; [vm_compute; reflexivity|reflexivity]).
Qed.

Lemma isFieldRequired_throws f s :
  initialised s ->
  f ∈ conditionalFields ->
  isFieldRequired f s = (Throw (TypeError "checked"), s).
Proof.
  intros Hi Hin. destruct (conditional_rules f Hin) as (rules & Hr & Hreq).
  unfold isFieldRequired. rewrite Hr, Hreq.
  unfold conditionalFields in Hin.
  repeat (apply elem_of_cons in Hin as [->|Hin]); [..|by apply elem_of_nil in Hin];
    simpl; unfold checkbox; rewrite (bind_ok _ _ _ _ _ (cached_run _ s));
    rewrite no_checkbox_cached by (done || (apply list_elem_of_In; simpl; tauto));
    reflexivity.
Qed.

Lemma fieldRef_present f s e :
  initialised s -> f ∈ conditionalFields -> document s !! f = Some e ->
  fieldRef f s = (Ok (Some (Some f)), s).
Proof. intros Hi Hin He. rewrite fieldRef_initialised by done. by rewrite He. Qed.

Lemma closestFormGroup_run f s e fg :
  document s !! f = Some e -> formGroup e = Some fg ->
  closestFormGroup (Some (Some f)) s = (Ok fg, s).
Proof.
  intros He Hfg. unfold closestFormGroup.
  erewrite bind_ok by (by apply read_run). by rewrite Hfg.
Qed.

Lemma fieldValue_run f s e :
  document s !! f = Some e ->
  fieldValue (Some (Some f)) s = (Ok (getProp "value" (self e)), s).
Proof.
  intros He. unfold fieldValue.
  by apply (read_run _ _ (fun e => getProp "value" (self e))).
Qed.

Lemma clearFieldError_ok f s :
  initialised s -> f ∈ conditionalFields -> fieldInGroup s f ->
  exists s', clearFieldError f s = (Ok tt, s') /\ fieldInGroup s' f.
Proof.
  intros Hi Hin (e & fg & He & Hfg).
  destruct (conditional_rules f Hin) as (rules & Hr & Hreq).
  unfold clearFieldError.
  erewrite bind_ok by (by eapply fieldRef_present).
  erewrite bind_ok by (by eapply closestFormGroup_run).
  erewrite bind_ok by (by apply write_run).
  rewrite Hr, Hreq.
  erewrite bind_ok by (apply fieldValue_run; simpl; apply lookup_insert_eq).
  simpl. erewrite write_run by (simpl; apply lookup_insert_eq).
  eexists. split; [reflexivity|].
  do 2 eexists. split; [simpl; apply lookup_insert_eq|]. simpl. by rewrite Hfg.
Qed.

Lemma announce_ok m s :
  exists s', announceToScreenReader m s = (Ok tt, s') /\
    forall id e, document s !! id = Some e ->
      exists e', document s' !! id = Some e' /\
        formGroup e' = formGroup e /\ attributes (self e') = attributes (self e).
Proof.
  unfold announceToScreenReader, getElementById. erewrite bind_ok by reflexivity.
  destruct (document s !! "live-region") as [lr|] eqn:Hlr; simpl.
  - erewrite write_run by done. eexists. split; [reflexivity|].
    intros id e He. simpl. destruct (decide (id = "live-region")) as [->|Hne].
    + rewrite lookup_insert_eq. eexists. split; [done|].
      assert (e = lr) as -> by congruence. done.
    + rewrite lookup_insert_ne by done. by exists e.
  - exists s. split; [done|]. intros id e He. by exists e.
Qed.

Lemma showFieldError_ok f m s :
  initialised s -> f ∈ conditionalFields -> fieldInGroup s f ->
  exists s', showFieldError f m s = (Ok tt, s') /\ fieldErrorShown s' f m.
Proof.
  intros Hi Hin (e & fg & He & Hfg).
  unfold showFieldError.
  erewrite bind_ok by (by eapply fieldRef_present).
  erewrite bind_ok by (by eapply closestFormGroup_run).
  erewrite bind_ok by (by apply write_run).
  erewrite bind_ok by (apply write_run; simpl; apply lookup_insert_eq).
  match goal with |- context [announceToScreenReader ?msg ?st] =>
    destruct (announce_ok msg st) as (s' & Hrun & Hkeep) end.
  exists s'. split; [exact Hrun|].
  edestruct Hkeep as (e' & He' & Hfg' & Hattr); [simpl; apply lookup_insert_eq|].
  exists e'. eexists. split; [exact He'|]. split; [rewrite Hfg'; simpl; by rewrite Hfg|].
  simpl. split.
  { apply elem_of_difference. split; [|by rewrite elem_of_singleton].
    apply elem_of_union_r. by apply elem_of_singleton. }
  split.
  - rewrite Hattr. simpl. apply lookup_insert_eq.
  - intros em Hem. destruct (errorElement fg); simpl in Hem; [|done].
    inversion Hem; subst. simpl. apply lookup_insert_eq.
Qed.

Lemma validateField_conditional f s :
  initialised s -> f ∈ conditionalFields -> fieldInGroup s f ->
  exists s', validateField f s = (Ok false, s') /\
    fieldErrorShown s' f "Validation error occurred".
Proof.
  intros Hi Hin Hg. pose proof Hg as (e & fg & He & Hfg).
  destruct (conditional_rules f Hin) as (rules & Hr & Hreq).
  destruct (clearFieldError_ok f s Hi Hin Hg) as (s1 & Hclear & Hg1).
  assert (Hi1 : initialised s1).
  { change s1 with (snd (Ok tt, s1)). rewrite <- Hclear.
    eapply initialised_same_page; [apply keeps_clearFieldError|done]. }
  destruct (showFieldError_ok f "Validation error occurred" s1 Hi1 Hin Hg1)
    as (s2 & Hshow & Hshown).
  exists s2. split; [|done].
  unfold validateField.
  erewrite bind_ok by (by eapply fieldRef_present).
  rewrite Hr. erewrite bind_ok by (by apply fieldValue_run).
  erewrite bind_ok by exact Hclear.
  unfold try_catch, checkField.
  erewrite bind_throw by (by apply isFieldRequired_throws).
  erewrite bind_ok by exact Hshow. reflexivity.
Qed.

Lemma validateEach_false l s : fst (validateEach l false s) <> Ok true.
Proof.
  revert s. induction l as [|f l IH]; intros s; simpl; [done|].
  unfold bind. destruct (validateField f s) as [[ok|e] s1]; [|done].
  destruct ok; apply IH.
Qed.

Lemma validateField_not_true f s :
  initialised s -> f ∈ conditionalFields -> is_Some (document s !! f) ->
  fst (validateField f s) <> Ok true.
Proof.
  intros Hi Hin [e He]. destruct (formGroup e) as [fg|] eqn:Hfg.
  - destruct (validateField_conditional f s Hi Hin) as (s' & -> & _); [|done].
    by exists e, fg.
  - destruct (conditional_rules f Hin) as (rules & Hr & Hreq).
    unfold validateField.
    erewrite bind_ok by (by eapply fieldRef_present).
    rewrite Hr. erewrite bind_ok by (by apply fieldValue_run).
    assert (Hclear : clearFieldError f s = (Throw (TypeError "querySelector"), s)).
    { unfold clearFieldError.
      erewrite bind_ok by (by eapply fieldRef_present).
      apply bind_throw. unfold closestFormGroup.
      erewrite bind_ok by (by apply read_run). by rewrite Hfg. }
    erewrite bind_throw by exact Hclear. done.
Qed.

Lemma validateEach_never_true l b s f :
  initialised s -> f ∈ conditionalFields -> f ∈ l -> is_Some (document s !! f) ->
  fst (validateEach l b s) <> Ok true.
Proof.
  revert b s. induction l as [|x l IH]; intros b s Hi Hin Hl Hf; [by apply elem_of_nil in Hl|].
  simpl. unfold bind.
  pose proof (keeps_validateField x s) as Hk.
  destruct (validateField x s) as [[ok|e] s1] eqn:Hv; [|done]. simpl in Hk.
  apply elem_of_cons in Hl as [->|Hl].
  - pose proof (validateField_not_true x s Hi Hin Hf) as Hnt. rewrite Hv in Hnt.
    destruct ok; [done|]. apply validateEach_false.
  - apply IH; try done.
    + by eapply initialised_same_page.
    + by apply Hk.
Qed.

Lemma validateAllFields_never_true s f :
  initialised s -> f ∈ conditionalFields -> is_Some (document s !! f) ->
  fst (validateAllFields s) <> Ok true.
Proof.
  intros Hi Hin Hf. unfold validateAllFields. erewrite bind_ok by reflexivity.
  destruct Hi as (He & Hfs). rewrite Hfs, refsOf_keys.
  apply (validateEach_never_true _ _ _ f); try done.
  unfold fieldIds. rewrite <- list_fmap_compose.
  replace (fst ∘ _) with (@id string) by done. rewrite list_fmap_id.
  by apply conditional_is_field.
Qed.

Lemma keeps_validateAllFields_aux s : same_page s (snd (validateAllFields s)).
Proof.
  unfold validateAllFields. unfold bind, get. simpl.
  destruct (fields s); [apply keeps_validateEach|apply same_page_refl].
Qed.

(** ** Form data cannot be collected without the experience field *)

Lemma trimmedField_state f s r s' : trimmedField f s = (r, s') -> s' = s.
Proof.
  unfold trimmedField, fieldRef, fieldValue, read, bind, get. simpl.
  destruct (fields s) as [fs|]; simpl; [|by inversion 1].
  destruct (property f fs) as [[id|]|]; simpl; try by inversion 1.
  destruct (document s !! id); simpl; by inversion 1.
Qed.

Lemma trimmedField_null f s v s' :
  initialised s -> f ∈ conditionalFields -> document s !! f = None ->
  trimmedField f s <> (Ok v, s').
Proof.
  intros Hi Hin Hn. unfold trimmedField.
  rewrite (bind_ok _ _ _ _ _ (fieldRef_initialised f s Hi Hin)), Hn. done.
Qed.

Lemma collectFormData_null s :
  initialised s -> document s !! "experience" = None ->
  exists s', collectFormData s = (Ok None, s').
Proof.
  intros Hi Hn. unfold collectFormData, try_catch.
  match goal with |- context [match ?inner s with _ => _ end] =>
    destruct (inner s) as [[fd|e] s1] eqn:Hinner end; [exfalso|by eauto].
  apply bind_inv_ok in Hinner as (? & s2 & H1 & Hinner). apply trimmedField_state in H1 as ->.
  apply bind_inv_ok in Hinner as (? & s2 & H1 & Hinner). apply trimmedField_state in H1 as ->.
  apply bind_inv_ok in Hinner as (? & s2 & H1 & Hinner). apply trimmedField_state in H1 as ->.
  apply bind_inv_ok in Hinner as (? & s2 & H1 & Hinner). apply trimmedField_state in H1 as ->.
  apply bind_inv_ok in Hinner as (? & s2 & H1 & Hinner). apply trimmedField_state in H1 as ->.
  apply bind_inv_ok in Hinner as (v & s2 & H1 & _).
  eapply trimmedField_null; [exact Hi| |exact Hn|exact H1].
  apply list_elem_of_In. simpl. tauto.
Qed.

Lemma generation_unreachable (generate1 generate2 : FormData -> M unit) (s : App) :
  initialised s ->
  handleFormSubmissionWith generate1 s = handleFormSubmissionWith generate2 s.
Proof.
  intros Hi. unfold handleFormSubmissionWith, try_catch.
  rewrite !(bind_ok _ _ _ _ _ (eq_refl : get s = (Ok s, s))).
  destruct (isGenerating s); [done|].
  pose proof (keeps_validateAllFields_aux s) as Hk.
  destruct (validateAllFields s) as [[valid|e] s1] eqn:Hv;
    [rewrite !(bind_ok _ _ _ _ _ Hv)|by rewrite !(bind_throw _ _ _ _ _ Hv)].
  destruct valid; simpl; [|done].
  assert (Hn : document s !! "experience" = None).
  { destruct (document s !! "experience") eqn:E; [exfalso|done].
    eapply (validateAllFields_never_true s "experience"); [done| |by rewrite E|by rewrite Hv].
    apply list_elem_of_In. simpl. tauto. }
  simpl in Hk.
  destruct (collectFormData_null s1) as (s2 & Hc).
  { by eapply initialised_same_page. }
  { by eapply same_page_None. }
  rewrite !(bind_ok _ _ _ _ _ Hc). done.
Qed.

(** ** [cacheElements] *)

Lemma lookupAll_run ids s : lookupAll ids s = (Ok (refsOf (document s) ids), s).
Proof.
  induction ids as [|[k id] ids IH]; [done|]. simpl.
  erewrite bind_ok by reflexivity. erewrite bind_ok by exact IH. reflexivity.
Qed.

Lemma cacheElements_run s :
  cacheElements s =
    (Ok tt, set_cache (list_to_map (refsOf (document s) cachedIds))
              (Some (refsOf (document s) fieldIds)) s).
Proof.
  unfold cacheElements. erewrite bind_ok by apply lookupAll_run.
  erewrite bind_ok by apply lookupAll_run. reflexivity.
Qed.

Lemma cacheElements_initialised s : initialised (snd (cacheElements s)).
Proof. rewrite cacheElements_run. by split. Qed.

Lemma cacheElements_chrome s :
  is_Some (document s !! "message-container") ->
  is_Some (document s !! "loading-indicator") ->
  is_Some (document s !! "resumeForm") ->
  chromeReady (snd (cacheElements s)).
Proof.
  intros [m Hm] [l Hl] [f Hf]. rewrite cacheElements_run.
  unfold chromeReady, cachedIds, refsOf. simpl. rewrite Hm, Hl, Hf.
  repeat split; try by eexists.
Qed.

(** ** What a successful cycle leaves behind *)

Lemma write_inv id what f s s' :
  write (Some (Some id)) what f s = (Ok tt, s') ->
  exists e, document s !! id = Some e /\ s' = set_document (<[id := f e]> (document s)) s.
Proof.
  unfold write, bind, get. simpl. destruct (document s !! id) as [e|]; [|discriminate].
  intros H. inversion H. by exists e.
Qed.

Lemma displayOf_other s d id id' :
  id <> id' -> forall e, displayOf (set_document (<[id' := e]> d) s) id
                         = displayOf (set_document d s) id.
Proof. intros Hne e. unfold displayOf. simpl. by rewrite lookup_insert_ne. Qed.

Lemma announce_display m s s' id :
  announceToScreenReader m s = (Ok tt, s') -> displayOf s' id = displayOf s id.
Proof.
  unfold announceToScreenReader, getElementById. erewrite bind_ok by reflexivity.
  destruct (document s !! "live-region") as [lr|] eqn:Hlr; simpl.
  - erewrite write_run by done. intros H. inversion H; subst. unfold displayOf. simpl.
    destruct (decide (id = "live-region")) as [->|Hne].
    + by rewrite lookup_insert_eq, Hlr.
    + by rewrite lookup_insert_ne.
  - by inversion 1.
Qed.

Lemma step_same_page {A} (m : M A) s r s' : keeps_page m -> m s = (r, s') -> same_page s s'.
Proof. intros Hk Hrun. specialize (Hk s). by rewrite Hrun in Hk. Qed.

Lemma success_hides_template env fd s s1 :
  chromeReady s ->
  generatePDF env fd s = (Ok tt, s1) ->
  displayOf s1 ("pdf-" +:+ fd_template fd) = Some (CssText "none").
Proof.
  intros Hc Hrun.
  destruct (generateBody env fd s) as [[[]|e] sb] eqn:Hbody.
  2:{ destruct (generatePDF_of_body_throw _ _ _ _ _ Hc Hbody) as (? & Hrun' & _).
      rewrite Hrun' in Hrun. discriminate. }
  destruct (generatePDF_of_body_ok _ _ _ _ Hc Hbody) as (s1' & Hrun' & Hhide).
  rewrite Hrun' in Hrun. inversion Hrun; subst s1'. clear Hrun Hrun'.
  assert (Hcb : chromeReady sb).
  { eapply chromeReady_same_page; [|exact Hc]. eapply step_same_page; [|exact Hbody].
    apply keeps_generateBody. }
  set (T := "pdf-" +:+ fd_template fd) in *.
  assert (Hsb : displayOf sb T = Some (CssText "none")).
  { unfold generateBody in Hbody. fold T in Hbody.
    apply bind_inv_ok in Hbody as (? & s2 & H2 & Hbody).
    apply bind_inv_ok in Hbody as (? & s3 & H3 & Hbody).
    apply bind_inv_ok in Hbody as (? & s4 & H4 & Hbody).
    apply bind_inv_ok in Hbody as (t & s5 & H5 & Hbody).
    assert (s5 = s4) as -> by (by inversion H5).
    destruct t as [id|]; [|discriminate].
    assert (id = T) as ->.
    { unfold getElementById in H5. erewrite bind_ok in H5 by reflexivity.
      simpl in H5. destruct (document s4 !! T); by inversion H5. }
    apply bind_inv_ok in Hbody as (? & s6 & H6 & Hbody).
    apply bind_inv_ok in Hbody as (? & s7 & H7 & Hbody).
    apply bind_inv_ok in Hbody as (? & s8 & H8 & Hbody).
    apply bind_inv_ok in Hbody as (c & s9 & H9 & Hbody).
    apply bind_inv_ok in Hbody as ([] & s10 & H10 & Hbody).
    apply bind_inv_ok in Hbody as (? & s11 & H11 & Hbody).
    apply bind_inv_ok in Hbody as (? & s12 & H12 & Hbody).
    apply bind_inv_ok in Hbody as ([] & s13 & H13 & Hbody).
    apply write_inv in H10 as (e10 & He10 & ->).
    inversion H11; subst s11. inversion Hbody; subst sb.
    assert (Hc11 : chromeReady (add_download (sanitizeName (fd_name fd) +:+ "_Resume.pdf")
                     (assembleA4 c) (set_document (<[T := with_self
                        (setStyle "display" (CssText "none")) e10]> (document s9)) s9))).
    { eapply chromeReady_same_page; [|exact Hc].
      eapply same_page_trans; [eapply step_same_page; [|exact H2]; keeps|].
      eapply same_page_trans; [eapply step_same_page; [|exact H3]; keeps|].
      eapply same_page_trans; [eapply step_same_page; [|exact H4]; keeps|].
      eapply same_page_trans; [eapply step_same_page; [|exact H6]; keeps|].
      eapply same_page_trans; [eapply step_same_page; [|exact H7]; keeps|].
      eapply same_page_trans; [eapply step_same_page; [|exact H8]; keeps|].
      eapply same_page_trans; [eapply step_same_page; [|exact H9]; keeps|].
      pose proof (keeps_write (Some (Some T)) "style"
        (with_self (setStyle "display" (CssText "none"))) s9) as Hw.
      rewrite (write_run _ _ _ _ _ He10) in Hw. exact Hw. }
    match type of H12 with showMessage ?m ?t ?st = _ =>
      destruct (showMessage_run m t st Hc11) as (em & Hem & Hshow) end.
    rewrite Hshow in H12. inversion H12; subst s12. clear H12.
    change (displayOf s13 T = Some (CssText "none")).
    rewrite (announce_display _ _ _ T H13).
    unfold displayOf. simpl. rewrite lookup_insert_ne by done.
    rewrite lookup_insert_eq. simpl. apply lookup_insert_eq. }
  destruct (hideLoading_run (set_isGenerating false sb)) as (li & fm & _ & _ & Hrun); [done|].
  rewrite Hrun in Hhide. inversion Hhide; subst s1.
  unfold displayOf in *. simpl. by rewrite !lookup_insert_ne.
Qed.

(** ** The content fitter inside the script *)

Local Open Scope Qc_scope.

Lemma adjustTemplateForContent_run env id s e :
  document s !! id = Some e ->
  adjustTemplateForContent env id s =
    (Ok tt, set_document
              (<[id := compact pageHeightPx (scrollHeight env (document s) id) e]>
                 (document s)) s).
Proof.
  intros He. unfold adjustTemplateForContent. erewrite bind_ok by reflexivity.
  by apply write_run.
Qed.



(** Above 1.6 the floor always wins: [1 / r < 0.625 < 0.75]. *)
Lemma scaleFactor_is_floor pageHeight contentHeight el :
  Num.dec 16 10 < overflowRatioOf contentHeight pageHeight ->
  appliedScale (compact pageHeight contentHeight el) = Some (Num.dec 75 100).
Proof.
  intros Hr. unfold appliedScale. rewrite compact_self. cbv zeta.
  rewrite (ltb_true_of_lt (Num.dec 11 10) (Num.dec 16 10)) by (reflexivity || done).
  rewrite (proj2 (ltb_lt _ _) Hr). unfold applyScale. simpl.
  rewrite !lookup_insert_ne by done. rewrite lookup_insert_eq.
  by rewrite scaleFactor_floor.
Qed.



(** With the page height the source fixes (297 * 3.77953 px), a content
    height of 2100 px is a ratio below 2.0: the third tier is not applied. *)
Lemma content_2100_on_A4 (el : Element) :
  overflowRatioOf 2100 pageHeightPx < Num.dec 20 10 /\
  blocks (compactA4 2100 el) = blocks el /\ photo (compactA4 2100 el) = photo el.
Proof.
  split; [reflexivity|].
  unfold compactA4. by rewrite compact_blocks, compact_photo.
Qed.

(** C9. The fit is idempotent: applied twice with the same measured
    content height and page height it leaves the surface as one
    application does; and a second call of [adjustTemplateForContent] that
    measures the same [scrollHeight] changes nothing. *)
Theorem fit_idempotent :
  (forall pageHeight contentHeight el,
     compact pageHeight contentHeight (compact pageHeight contentHeight el) =
     compact pageHeight contentHeight el) /\
  (forall env id s s1,
     adjustTemplateForContent env id s = (Ok tt, s1) ->
     scrollHeight env (document s1) id = scrollHeight env (document s) id ->
     adjustTemplateForContent env id s1 = (Ok tt, s1)).
Proof.
  split; [apply compact_twice|].
  intros env id s s1 Hrun Hsame.
  unfold adjustTemplateForContent in Hrun. erewrite bind_ok in Hrun by reflexivity.
  apply write_inv in Hrun as (e & He & ->).
  erewrite adjustTemplateForContent_run by (simpl; apply lookup_insert_eq).
  rewrite Hsame. unfold compactA4. rewrite compact_twice.
  simpl. by rewrite insert_insert_eq.
Qed.

Lemma fit_idempotent_witness :
  exists s1,
    adjustTemplateForContent Sample.tall "pdf-modern" Sample.ready = (Ok tt, s1) /\
    scrollHeight Sample.tall (document s1) "pdf-modern"
      = scrollHeight Sample.tall (document Sample.ready) "pdf-modern" /\
    adjustTemplateForContent Sample.tall "pdf-modern" s1 = (Ok tt, s1).
Proof.
  destruct fit_idempotent as [_ Hfit].
  destruct (adjustTemplateForContent Sample.tall "pdf-modern" Sample.ready)
    as [[[]|e] s1] eqn:Hrun; [|vm_compute in Hrun; discriminate].
  exists s1. split; [reflexivity|]. split; [reflexivity|].
  apply (Hfit Sample.tall "pdf-modern" Sample.ready s1 Hrun). reflexivity.
Defined.

Local Close Scope Qc_scope.

(** ** The sample page *)

Lemma sample_ready_chrome : chromeReady Sample.ready.
Proof. apply cacheElements_chrome; vm_compute; by eexists. Qed.

Lemma sample_ready_initialised : initialised Sample.ready.
Proof. apply cacheElements_initialised. Qed.

Lemma rejected_while_generating_witness :
  isGenerating Sample.busy = true /\ chromeReady Sample.busy /\
  exists s', handleFormSubmission Sample.rejecting Sample.busy = (Ok tt, s') /\
    noticeShown s' "PDF generation already in progress" "warning" /\
    isGenerating s' = true /\ downloads s' = [].
Proof.
  assert (Hgen : isGenerating Sample.busy = true) by reflexivity.
  assert (Hc : chromeReady Sample.busy)
    by (apply chromeReady_set_isGenerating, sample_ready_chrome).
  split; [exact Hgen|]. split; [exact Hc|].
  destruct (rejected_while_generating Sample.rejecting Sample.busy Hgen Hc)
    as (e & s' & _ & Hrun & _ & Hn & Hg & Hd & _).
  exists s'. split; [exact Hrun|]. split; [exact Hn|]. split; [exact Hg|].
  rewrite Hd. reflexivity.
Defined.

(** ** The claims on failure and cleanup *)



(** ** What a cycle that fails in the rasterizer leaves behind *)

Lemma write_throws r what f s e s' :
  write r what f s = (Throw e, s') -> e = TypeError what.
Proof.
  unfold write, bind, get. simpl. destruct r as [[id|]|]; try by inversion 1.
  destruct (document s !! id); by inversion 1.
Qed.

Lemma showMessage_throws m t s e s' :
  showMessage m t s = (Throw e, s') -> exists w, e = TypeError w.
Proof.
  unfold showMessage. rewrite (bind_ok _ _ _ _ _ (cached_run _ s)).
  intros H. apply write_throws in H. by eexists.
Qed.

Lemma showLoading_throws m s e s' :
  showLoading m s = (Throw e, s') -> exists w, e = TypeError w.
Proof.
  unfold showLoading. rewrite (bind_ok _ _ _ _ _ (cached_run _ s)).
  intros H. apply bind_inv_throw in H as [H|(? & s1 & _ & H)];
    [apply write_throws in H; by eexists|].
  apply bind_inv_throw in H as [H|(? & s2 & _ & H)];
    [apply write_throws in H; by eexists|].
  rewrite (bind_ok _ _ _ _ _ (cached_run _ s2)) in H.
  apply write_throws in H. by eexists.
Qed.

Lemma announce_throws m s e s' :
  announceToScreenReader m s = (Throw e, s') -> exists w, e = TypeError w.
Proof.
  unfold announceToScreenReader, getElementById. erewrite bind_ok by reflexivity.
  destruct (document s !! "live-region"); simpl; [|by inversion 1].
  intros H. apply write_throws in H. by eexists.
Qed.

Lemma populateTemplate_throws fd s e s' :
  populateTemplate fd s = (Throw e, s') ->
  e = Error "Failed to populate template with form data".
Proof.
  unfold populateTemplate, try_catch.
  match goal with |- context [match ?inner s with _ => _ end] =>
    destruct (inner s) as [[[]|e0] s1] end; by inversion 1.
Qed.

Lemma compact_display ph h e :
  style (self (compact ph h e)) !! "display" = style (self e) !! "display".
Proof.
  rewrite compact_self. cbv zeta.
  destruct (_ <? _)%Qc; [|done].
  destruct (_ <? _)%Qc; simpl; [|done].
  by rewrite !lookup_insert_ne.
Qed.

(** A cycle that ends with an error which neither a missing element nor
    [populateTemplate] nor the template lookup can have thrown (so, an
    error of the rasterizer) leaves the template displayed. *)
Lemma rasterizer_failure_leaves_template_displayed env fd s e s1 :
  chromeReady s ->
  generatePDF env fd s = (Throw e, s1) ->
  (forall w, e <> TypeError w) ->
  e <> Error "Failed to populate template with form data" ->
  e <> Error ("Template " +:+ fd_template fd +:+ " not found") ->
  displayOf s1 ("pdf-" +:+ fd_template fd) = Some (CssText "block").
Proof.
  intros Hc Hrun Hte Hpop Htpl.
  destruct (generateBody env fd s) as [[[]|e0] sb] eqn:Hbody.
  { destruct (generatePDF_of_body_ok _ _ _ _ Hc Hbody) as (? & Hrun' & _).
    rewrite Hrun' in Hrun. discriminate. }
  assert (Hcb : chromeReady sb).
  { eapply chromeReady_same_page; [|exact Hc]. eapply step_same_page; [|exact Hbody].
    apply keeps_generateBody. }
  set (T := "pdf-" +:+ fd_template fd) in *.
  (* the end of the cycle: catch, then finally *)
  destruct (showMessage_run failureNotice "error" sb Hcb) as (em & Hem & Hshow).
  set (sm := set_document _ sb) in Hshow.
  assert (Hcm : chromeReady sm).
  { eapply chromeReady_same_page; [|exact Hcb]. eapply step_same_page; [|exact Hshow].
    apply keeps_showMessage. }
  destruct (hideLoading_run (set_isGenerating false sm)) as (li & fm & _ & _ & Hhide); [done|].
  assert (Hend : generatePDF env fd s = (Throw e0, set_document
            (<["resumeForm":=with_self enabledForm fm]>
               (<["loading-indicator":=with_self hiddenIndicator li]>
                  (document (set_isGenerating false sm)))) (set_isGenerating false sm))).
  { unfold generatePDF, try_finally, try_catch. rewrite Hbody.
    unfold generateCatch. erewrite bind_ok by exact Hshow. unfold throw.
    unfold generateFinally. erewrite bind_ok by reflexivity. by rewrite Hhide. }
  rewrite Hend in Hrun. inversion Hrun; subst e0 s1. clear Hrun Hend.
  (* where the body threw *)
  assert (Hsb : displayOf sb T = Some (CssText "block")).
  { unfold generateBody in Hbody. fold T in Hbody.
    apply bind_inv_throw in Hbody as [Hbody|(? & s2 & _ & Hbody)]; [discriminate|].
    apply bind_inv_throw in Hbody as [Hbody|(? & s3 & _ & Hbody)].
    { apply showLoading_throws in Hbody as [w ->]. by destruct (Hte w). }
    apply bind_inv_throw in Hbody as [Hbody|(? & s4 & _ & Hbody)].
    { apply populateTemplate_throws in Hbody. done. }
    apply bind_inv_throw in Hbody as [Hbody|(t & s5 & H5 & Hbody)]; [discriminate|].
    assert (s5 = s4) as -> by (by inversion H5).
    destruct t as [id|]; [|inversion Hbody; subst; done].
    assert (id = T) as ->.
    { unfold getElementById in H5. erewrite bind_ok in H5 by reflexivity.
      simpl in H5. destruct (document s4 !! T); by inversion H5. }
    apply bind_inv_throw in Hbody as [Hbody|([] & s6 & H6 & Hbody)].
    { apply write_throws in Hbody. subst. by destruct (Hte "style"). }
    apply write_inv in H6 as (e4 & He4 & ->).
    apply bind_inv_throw in Hbody as [Hbody|(? & s7 & H7 & Hbody)]; [discriminate|].
    inversion H7; subst s7. clear H7.
    apply bind_inv_throw in Hbody as [Hbody|([] & s8 & H8 & Hbody)].
    { unfold adjustTemplateForContent in Hbody. erewrite bind_ok in Hbody by reflexivity.
      apply write_throws in Hbody. subst. by destruct (Hte "scrollHeight"). }
    erewrite adjustTemplateForContent_run in H8 by (simpl; apply lookup_insert_eq).
    inversion H8; subst s8. clear H8.
    apply bind_inv_throw in Hbody as [Hbody|(c & s9 & _ & Hbody)].
    { unfold rasterize in Hbody. inversion Hbody; subst sb.
      unfold displayOf. simpl. rewrite lookup_insert_eq. simpl.
      unfold compactA4. rewrite compact_display. simpl.
      rewrite !lookup_insert_ne by done. apply lookup_insert_eq. }
    exfalso.
    apply bind_inv_throw in Hbody as [Hbody|(? & s10 & _ & Hbody)].
    { apply write_throws in Hbody. subst. by destruct (Hte "style"). }
    apply bind_inv_throw in Hbody as [Hbody|(? & s11 & _ & Hbody)]; [discriminate|].
    apply bind_inv_throw in Hbody as [Hbody|(? & s12 & _ & Hbody)].
    { apply showMessage_throws in Hbody as [w ->]. by destruct (Hte w). }
    apply bind_inv_throw in Hbody as [Hbody|(? & s13 & _ & Hbody)].
    { apply announce_throws in Hbody as [w ->]. by destruct (Hte w). }
    discriminate. }
  unfold displayOf in *. simpl. by rewrite !lookup_insert_ne.
Qed.

(** C5 fails on the code.  On the sample page, with a rasterizer that
    rejects, the cycle starts from a hidden template and ends, in failure,
    with the template still displayed: [display] is [block] when
    [generatePDF] has rethrown, and still so after the handler of
    [handleFormSubmission] has run.  ([success_hides_template] and
    [rasterizer_failure_leaves_template_displayed] give the two sides for
    every page.) *)
Theorem rasterizer_rejection_leaves_template_displayed :
  let r := generatePDF Sample.rejecting Sample.ada Sample.ready in
  let r' := submissionCatch (Error "Unable to render the element") (snd r) in
  displayOf Sample.ready "pdf-modern" = Some (CssText "none") /\
  fst r = Throw (Error "Unable to render the element") /\
  isGenerating (snd r) = false /\
  displayOf (snd r) "pdf-modern" = Some (CssText "block") /\
  fst r' = Ok tt /\
  displayOf (snd r') "pdf-modern" = Some (CssText "block").
Proof. vm_compute. repeat split; reflexivity. Qed.

(** ** The claim on validation *)

(** C10. After [cacheElements], none of the checkboxes [isFieldRequired]
    reads is in the cache, so for experience, projects, certificates,
    custom-title and custom-content [isFieldRequired] throws a
    [TypeError]; [validateField] catches it, reports "Validation error
    occurred" on the field and returns [false], whatever the field holds.
    Hence, on a page that has one of these fields, [validateAllFields]
    never returns [true]; and on every page [handleFormSubmission] behaves
    the same whatever [generatePDF] would do: it never calls it. *)
Theorem conditional_fields_block_submission (s : App) :
  initialised s ->
  (forall key, key ∈ requirementCheckboxes -> elements s !! key = None) /\
  (forall f, f ∈ conditionalFields ->
     isFieldRequired f s = (Throw (TypeError "checked"), s)) /\
  (forall f, f ∈ conditionalFields -> fieldInGroup s f ->
     exists s', validateField f s = (Ok false, s') /\
       fieldErrorShown s' f "Validation error occurred") /\
  (forall f, f ∈ conditionalFields -> is_Some (document s !! f) ->
     fst (validateAllFields s) <> Ok true) /\
  (forall generate1 generate2,
     handleFormSubmissionWith generate1 s = handleFormSubmissionWith generate2 s).
Proof.
  intros Hi. split; [|split; [|split; [|split]]].
  - intros key Hk. by apply no_checkbox_cached.
  - intros f Hf. by apply isFieldRequired_throws.
  - intros f Hf Hg. by apply validateField_conditional.
  - intros f Hf Hd. by eapply validateAllFields_never_true.
  - intros g1 g2. by apply generation_unreachable.
Qed.

Lemma conditional_fields_block_submission_witness :
  initialised Sample.ready /\ fieldInGroup Sample.ready "experience" /\
  (exists s', validateField "experience" Sample.ready = (Ok false, s')) /\
  fst (validateAllFields Sample.ready) <> Ok true /\
  handleFormSubmission Sample.rejecting Sample.ready =
    handleFormSubmissionWith (fun _ => throw (Error "never called")) Sample.ready.
Proof.
  assert (Hin : "experience" ∈ conditionalFields) by (apply list_elem_of_In; simpl; tauto).
  assert (Hg : fieldInGroup Sample.ready "experience")
    by (do 2 eexists; split; vm_compute; reflexivity).
  assert (Hd : is_Some (document Sample.ready !! "experience"))
    by (vm_compute; by eexists).
  split; [exact sample_ready_initialised|]. split; [exact Hg|].
  destruct (conditional_fields_block_submission Sample.ready sample_ready_initialised)
    as (_ & _ & Hv & Hall & Hsame).
  split; [destruct (Hv _ Hin Hg) as (s' & Hrun & _); by exists s'|].
  split; [exact (Hall _ Hin Hd)|]. apply Hsame.
Defined.

(** * Further properties of the script *)

(** ** Footprints of script code *)

Lemma only_dom_refl s : only_dom s s.
Proof. by repeat split. Qed.

Lemma only_dom_trans s1 s2 s3 : only_dom s1 s2 -> only_dom s2 s3 -> only_dom s1 s3.
Proof.
  intros (H1 & H2 & H3 & H4 & H5 & H6) (H1' & H2' & H3' & H4' & H5' & H6').
  repeat split; congruence.
Qed.

Lemma only_dom_set_document d s : only_dom s (set_document d s).
Proof. by repeat split. Qed.

Create HintDb dom discriminated.

Lemma dom_ret {A} (a : A) : preserves only_dom (ret a).
Proof. intros s. apply only_dom_refl. Qed.
Lemma dom_throw {A} e : preserves only_dom (@throw A e).
Proof. intros s. apply only_dom_refl. Qed.
Lemma dom_get : preserves only_dom get.
Proof. intros s. apply only_dom_refl. Qed.

Lemma dom_bind {A B} (m : M A) (k : A -> M B) :
  preserves only_dom m -> (forall a, preserves only_dom (k a)) -> preserves only_dom (bind m k).
Proof.
  intros Hm Hk s. unfold bind. specialize (Hm s).
  destruct (m s) as [[a|e] s1]; simpl in *; [|done].
  eapply only_dom_trans; [exact Hm|apply Hk].
Qed.

Lemma dom_try_catch {A} (m : M A) (h : JSError -> M A) :
  preserves only_dom m -> (forall e, preserves only_dom (h e)) ->
  preserves only_dom (try_catch m h).
Proof.
  intros Hm Hh s. unfold try_catch. specialize (Hm s).
  destruct (m s) as [[a|e] s1]; simpl in *; [done|].
  eapply only_dom_trans; [exact Hm|apply Hh].
Qed.

Lemma dom_try_finally {A} (m : M A) (c : M unit) :
  preserves only_dom m -> preserves only_dom c -> preserves only_dom (try_finally m c).
Proof.
  intros Hm Hc s. unfold try_finally. specialize (Hm s).
  destruct (m s) as [r s1]; simpl in *. specialize (Hc s1).
  destruct (c s1) as [[[]|e] s2]; simpl in *; by eapply only_dom_trans.
Qed.

Lemma dom_when b (m : M unit) : preserves only_dom m -> preserves only_dom (when b m).
Proof. destruct b; [done|intros _; apply dom_ret]. Qed.

Lemma dom_getElementById id : preserves only_dom (getElementById id).
Proof. intros s. apply only_dom_refl. Qed.
Lemma dom_cached k : preserves only_dom (cached k).
Proof. intros s. apply only_dom_refl. Qed.
Lemma dom_fieldRef f : preserves only_dom (fieldRef f).
Proof. intros s. unfold fieldRef, bind, get. simpl. destruct (fields s); apply only_dom_refl. Qed.

Lemma dom_read {A} r what (f : Element -> A) : preserves only_dom (read r what f).
Proof.
  intros s. unfold read, bind, get. simpl.
  destruct r as [[id|]|]; try apply only_dom_refl.
  destruct (document s !! id); apply only_dom_refl.
Qed.

Lemma dom_write r what f : preserves only_dom (write r what f).
Proof.
  intros s. unfold write, bind, get. simpl.
  destruct r as [[id|]|]; try apply only_dom_refl.
  destruct (document s !! id); [apply only_dom_set_document|apply only_dom_refl].
Qed.

#[export] Hint Resolve dom_ret dom_throw dom_get dom_when dom_getElementById dom_cached
  dom_fieldRef dom_read dom_write : dom.

Ltac dom :=
  repeat first
    [ progress eauto with dom
    | apply dom_bind; [|intros ?]
    | apply dom_try_catch; [|intros ?]
    | apply dom_try_finally
    | apply dom_when
    | match goal with
      | |- preserves only_dom (match ?x with _ => _ end) => destruct x
      | |- preserves only_dom (if ?x then _ else _) => destruct x
      end ].

Lemma dom_showMessage m t : preserves only_dom (showMessage m t).
Proof. unfold showMessage. dom. Qed.
Lemma dom_showLoading m : preserves only_dom (showLoading m).
Proof. unfold showLoading. dom. Qed.
Lemma dom_hideLoading : preserves only_dom hideLoading.
Proof. unfold hideLoading. dom. Qed.
Lemma dom_announce m : preserves only_dom (announceToScreenReader m).
Proof. unfold announceToScreenReader. dom. Qed.
Lemma dom_byId id what f : preserves only_dom (byId id what f).
Proof. unfold byId. dom. Qed.
#[export] Hint Resolve dom_showMessage dom_showLoading dom_hideLoading dom_announce
  dom_byId : dom.

Lemma dom_populateTemplate fd : preserves only_dom (populateTemplate fd).
Proof.
  unfold populateTemplate, populateSection, populatePhoto, populateSkills, populateCustom,
    setText, setHTML, setDisplay.
  dom.
Qed.

Lemma dom_validateField f : preserves only_dom (validateField f).
Proof.
  unfold validateField, checkField, clearFieldError, showFieldError, showFieldSuccess,
    isFieldRequired, checkbox, closestFormGroup, fieldValue.
  dom.
Qed.
#[export] Hint Resolve dom_populateTemplate dom_validateField : dom.

Lemma dom_validateEach l b : preserves only_dom (validateEach l b).
Proof. revert b. induction l as [|f l IH]; intros b; simpl; dom. Qed.

Lemma dom_validateAllFields : preserves only_dom validateAllFields.
Proof.
  intros s. unfold validateAllFields, bind, get. simpl.
  destruct (fields s); [apply dom_validateEach|apply only_dom_refl].
Qed.

(** *** Which elements a piece of code can change *)

Lemma stable_tidy : stable tidy.
Proof. intros s s' (He & Hf & _) (H1 & H2). split; [by rewrite He|by rewrite Hf]. Qed.
Lemma stable_anywhere : stable anywhere.
Proof. by intros s s' _ _. Qed.

Lemma touches_ret {A} P W (a : A) : touches_only P W (ret a).
Proof. by intros s id _ _. Qed.
Lemma touches_throw {A} P W e : touches_only P W (@throw A e).
Proof. by intros s id _ _. Qed.
Lemma touches_get P W : touches_only P W get.
Proof. by intros s id _ _. Qed.

Lemma touches_bind {A B} P W (m : M A) (k : A -> M B) :
  stable P -> keeps_page m -> touches_only P W m -> (forall a, touches_only P W (k a)) ->
  touches_only P W (bind m k).
Proof.
  intros HP Hk Hm Hc s id Ht Hid. unfold bind.
  specialize (Hm s id Ht Hid). specialize (Hk s).
  destruct (m s) as [[a|e] s1]; simpl in *; [|done].
  rewrite <- Hm. apply Hc; [|done]. by eapply HP.
Qed.

Lemma touches_try_catch {A} P W (m : M A) (h : JSError -> M A) :
  stable P -> keeps_page m -> touches_only P W m -> (forall e, touches_only P W (h e)) ->
  touches_only P W (try_catch m h).
Proof.
  intros HP Hk Hm Hc s id Ht Hid. unfold try_catch.
  specialize (Hm s id Ht Hid). specialize (Hk s).
  destruct (m s) as [[a|e] s1]; simpl in *; [done|].
  rewrite <- Hm. apply Hc; [|done]. by eapply HP.
Qed.

Lemma touches_try_finally {A} P W (m : M A) (c : M unit) :
  stable P -> keeps_page m -> touches_only P W m -> touches_only P W c ->
  touches_only P W (try_finally m c).
Proof.
  intros HP Hk Hm Hc s id Ht Hid. unfold try_finally.
  specialize (Hm s id Ht Hid). specialize (Hk s).
  destruct (m s) as [r s1]; simpl in *.
  assert (Ht1 : P s1) by (by eapply HP).
  specialize (Hc s1 id Ht1 Hid).
  destruct (c s1) as [[[]|e] s2]; simpl in *; congruence.
Qed.

Lemma touches_when P W b (m : M unit) : touches_only P W m -> touches_only P W (when b m).
Proof. destruct b; [done|intros _; apply touches_ret]. Qed.

Lemma touches_modify P W (f : App -> App) :
  (forall s, document (f s) = document s) -> touches_only P W (modify f).
Proof. intros Hf s id _ _. simpl. by rewrite Hf. Qed.

Lemma touches_read {A} P W r what (f : Element -> A) : touches_only P W (read r what f).
Proof.
  intros s id _ _. unfold read, bind, get. simpl.
  destruct r as [[x|]|]; try done. by destruct (document s !! x).
Qed.

Lemma touches_write P W r what f :
  (forall id, r = Some (Some id) -> id ∈ W) -> touches_only P W (write r what f).
Proof.
  intros Hr s id _ Hid. unfold write, bind, get. simpl.
  destruct r as [[x|]|]; try done.
  destruct (document s !! x); [|done]. simpl.
  apply lookup_insert_ne. intros ->. apply Hid. by apply Hr.
Qed.

Lemma touches_weaken {A} (P Q : App -> Prop) W (m : M A) :
  (forall s, Q s -> P s) -> touches_only P W m -> touches_only Q W m.
Proof. intros HQ Hm s id Hs Hid. apply Hm; [by apply HQ|done]. Qed.

(** A footprint that holds from every state composes without a condition. *)
Lemma touches_bind_any {A B} P W (m : M A) (k : A -> M B) :
  keeps_page m -> touches_only anywhere W m -> (forall a, touches_only anywhere W (k a)) ->
  touches_only P W (bind m k).
Proof.
  intros Hk Hm Hc. apply (touches_weaken anywhere); [done|].
  apply touches_bind; [apply stable_anywhere|done|done|done].
Qed.

(** The references the three lookups can give. *)
Lemma touches_cached {B} W key (k : option Ref -> M B) :
  (forall r, (forall id, r = Some (Some id) -> idOf key = Some id) ->
     touches_only tidy W (k r)) ->
  touches_only tidy W (bind (cached key) k).
Proof.
  intros Hk s id Ht Hid. rewrite (bind_ok _ _ _ _ _ (cached_run key s)).
  apply Hk; [|done|done]. intros x Hx. by apply Ht.
Qed.

Lemma touches_fieldRef {B} W f (k : option Ref -> M B) :
  (forall r, (forall id, r = Some (Some id) -> id = f) -> touches_only tidy W (k r)) ->
  touches_only tidy W (bind (fieldRef f) k).
Proof.
  intros Hk s id Ht Hid. unfold fieldRef. unfold bind at 1 2, get.
  destruct (fields s) as [fs|] eqn:Hfs; [|done]. simpl.
  apply Hk; [|done|done]. intros x Hx. destruct Ht as [_ Ht]. by apply (Ht fs).
Qed.

Lemma touches_getElementById {B} P W x (k : Ref -> M B) :
  (forall r, (forall id, r = Some id -> id = x) -> touches_only P W (k r)) ->
  touches_only P W (bind (getElementById x) k).
Proof.
  intros Hk s id Ht Hid. unfold getElementById. unfold bind at 1 2, get. simpl.
  apply Hk; [|done|done]. intros y. destruct (document s !! x); by inversion 1.
Qed.

Create HintDb touch discriminated.
#[export] Hint Resolve touches_ret touches_throw touches_get touches_read touches_when : touch.

(** Membership of a written id: the reference came from one of the three
    lookups, whose hypothesis names the id. *)
Ltac touch_mem :=
  let id := fresh "id" in
  let H := fresh "H" in
  intros id H; try (injection H as H); subst;
  repeat match goal with
  | Hr : forall i, Some (Some ?x) = Some (Some i) -> _ |- _ => specialize (Hr _ eq_refl)
  | Hr : forall i, Some ?x = Some i -> _ |- _ => specialize (Hr _ eq_refl)
  end;
  repeat match goal with
  | Hr : idOf _ = Some _ |- _ => vm_compute in Hr; injection Hr as Hr
  end;
  subst; first [ assumption | apply list_elem_of_In; simpl; tauto ].

#[export] Hint Resolve stable_tidy stable_anywhere : touch.

Ltac touch :=
  repeat first
    [ progress eauto with touch
    | apply touches_write; touch_mem
    | apply touches_cached; intros ? ?
    | apply touches_fieldRef; intros ? ?
    | apply touches_getElementById; intros ? ?
    | apply touches_bind; [solve [eauto with touch] | solve [keeps] | | intros ?]
    | apply touches_try_catch; [solve [eauto with touch] | solve [keeps] | | intros ?]
    | apply touches_try_finally; [solve [eauto with touch] | solve [keeps] | | ]
    | apply touches_when
    | match goal with
      | |- touches_only _ _ (match ?x with _ => _ end) => destruct x
      | |- touches_only _ _ (if ?x then _ else _) => destruct x
      end ].

Lemma touches_showMessage W m t :
  "message-container" ∈ W -> touches_only tidy W (showMessage m t).
Proof. intros HW. unfold showMessage. touch. Qed.

Lemma touches_announce P W m :
  "live-region" ∈ W -> touches_only P W (announceToScreenReader m).
Proof. intros HW. unfold announceToScreenReader. touch. Qed.

Lemma touches_showLoading W m :
  "loading-indicator" ∈ W -> "resumeForm" ∈ W -> touches_only tidy W (showLoading m).
Proof. intros H1 H2. unfold showLoading. touch. Qed.

Lemma touches_hideLoading W :
  "loading-indicator" ∈ W -> "resumeForm" ∈ W -> touches_only tidy W hideLoading.
Proof. intros H1 H2. unfold hideLoading. touch. Qed.

Lemma touches_byId P W id what f : id ∈ W -> touches_only P W (byId id what f).
Proof. intros HW. unfold byId. touch. Qed.

Lemma touches_clearFieldError W f : f ∈ W -> touches_only tidy W (clearFieldError f).
Proof. intros HW. unfold clearFieldError, closestFormGroup, fieldValue. touch. Qed.

Lemma touches_showFieldSuccess W f : f ∈ W -> touches_only tidy W (showFieldSuccess f).
Proof. intros HW. unfold showFieldSuccess, closestFormGroup. touch. Qed.

Lemma touches_showFieldError W f m :
  f ∈ W -> "live-region" ∈ W -> touches_only tidy W (showFieldError f m).
Proof.
  intros HW HL. unfold showFieldError, closestFormGroup.
  touch.
Qed.

Lemma touches_isFieldRequired W f : touches_only tidy W (isFieldRequired f).
Proof. unfold isFieldRequired, checkbox. touch. Qed.

Lemma touches_validateField W f :
  f ∈ W -> "live-region" ∈ W -> touches_only tidy W (validateField f).
Proof.
  intros HW HL. unfold validateField, checkField, fieldValue.
  pose proof (touches_clearFieldError W f HW).
  pose proof (touches_isFieldRequired W f).
  pose proof (fun m => touches_showFieldError W f m HW HL).
  pose proof (touches_showFieldSuccess W f HW).
  touch.
Qed.

Lemma frame_of {A} W (m : M A) s r s' :
  touches_only anywhere W m -> m s = (r, s') ->
  forall id, id ∉ W -> document s' !! id = document s !! id.
Proof. intros Hm Hrun id Hid. specialize (Hm s id I Hid). by rewrite Hrun in Hm. Qed.

(** ** Validation of the other fields *)

Lemma property_refsOf_id d names f id :
  property f (refsOf d ((fun f => (f, f)) <$> names)) = Some (Some id) -> id = f.
Proof.
  induction names as [|x names IH]; [by inversion 1|].
  rewrite fmap_cons. unfold refsOf. rewrite fmap_cons.
  fold (refsOf d ((fun f => (f, f)) <$> names)). simpl.
  destruct (decide (x = f)) as [->|Hne]; [|exact IH].
  destruct (d !! f); by inversion 1.
Qed.

Lemma initialised_tidy s : initialised s -> tidy s.
Proof.
  intros (He & Hf). split.
  - intros key id Hk. rewrite He in Hk.
    apply elem_of_list_to_map_2 in Hk. unfold refsOf in Hk.
    apply list_elem_of_fmap in Hk as ([k i] & Heq & Hin). simpl in Heq.
    inversion Heq as [[Hkey Hid]]. subst k.
    assert (i = id) as -> by (destruct (document s !! i); by inversion Hid).
    unfold idOf. apply elem_of_list_to_map_1; [|done].
    apply NoDup_ListNoDup. vm_compute. repeat constructor; simpl; intuition discriminate.
  - intros fs f id Hfs Hp.
    assert (fs = refsOf (document s) fieldIds) as -> by congruence.
    by eapply property_refsOf_id.
Qed.

Lemma fieldRef_field f s :
  initialised s -> f ∈ fieldNames ->
  fieldRef f s = (Ok (Some (match document s !! f with Some _ => Some f | None => None end)), s).
Proof.
  intros (_ & Hf) Hin. unfold fieldRef. erewrite bind_ok by reflexivity. rewrite Hf.
  unfold fieldIds. rewrite property_refsOf; [done|]. exact Hin.
Qed.

Lemma fieldRef_on_page f s e :
  initialised s -> f ∈ fieldNames -> document s !! f = Some e ->
  fieldRef f s = (Ok (Some (Some f)), s).
Proof. intros Hi Hin He. rewrite fieldRef_field by done. by rewrite He. Qed.

Lemma unconditional_is_field f : f ∈ unconditionalFields -> f ∈ fieldNames.
Proof.
  unfold unconditionalFields. intros H.
  repeat (apply elem_of_cons in H as [->|H]); [..|by apply elem_of_nil in H];
    apply list_elem_of_In; simpl; tauto.
Qed.

Lemma unconditional_rules f :
  f ∈ unconditionalFields ->
  exists rules, ValidationRules !! f = Some rules /\
    bool_decide (f ∈ conditionalFields) = false /\
    forall s, isFieldRequired f s = (Ok (required rules), s).
Proof.
  unfold unconditionalFields. intros H.
  repeat (apply elem_of_cons in H as [->|H]); [..|by apply elem_of_nil in H];
    eexists; (split; [vm_compute; reflexivity|]); (split; [by vm_compute|]);
    intros s; reflexivity.
Qed.

Lemma clearFieldError_in_group f s rules :
  initialised s -> f ∈ fieldNames -> fieldInGroup s f ->
  ValidationRules !! f = Some rules ->
  exists s', clearFieldError f s = (Ok tt, s') /\ fieldInGroup s' f /\
    (required rules = false -> fieldErrorCleared s' f).
Proof.
  intros Hi Hin (e & fg & He & Hfg) Hr.
  unfold clearFieldError.
  erewrite bind_ok by (by eapply fieldRef_on_page).
  erewrite bind_ok by (by eapply closestFormGroup_run).
  erewrite bind_ok by (by apply write_run).
  rewrite Hr.
  erewrite bind_ok by (apply fieldValue_run; simpl; apply lookup_insert_eq).
  destruct (required rules) eqn:Hreq; simpl.
  - destruct (truthy _); simpl.
    + erewrite write_run by (simpl; apply lookup_insert_eq).
      eexists. split; [reflexivity|]. split; [|done].
      do 2 eexists. split; [simpl; apply lookup_insert_eq|]. simpl. by rewrite Hfg.
    + eexists. split; [reflexivity|]. split; [|done].
      do 2 eexists. split; [simpl; apply lookup_insert_eq|]. simpl. by rewrite Hfg.
  - erewrite write_run by (simpl; apply lookup_insert_eq).
    eexists. split; [reflexivity|]. split.
    + do 2 eexists. split; [simpl; apply lookup_insert_eq|]. simpl. by rewrite Hfg.
    + intros _. do 2 eexists. split; [simpl; apply lookup_insert_eq|].
      simpl. rewrite Hfg. simpl. split; [done|]. simpl. split.
      * rewrite elem_of_difference, elem_of_singleton. by intros [_ H].
      * apply lookup_delete_eq.
Qed.

Lemma showFieldError_in_group f m s :
  initialised s -> f ∈ fieldNames -> fieldInGroup s f ->
  exists s', showFieldError f m s = (Ok tt, s') /\ fieldErrorShown s' f m.
Proof.
  intros Hi Hin (e & fg & He & Hfg).
  unfold showFieldError.
  erewrite bind_ok by (by eapply fieldRef_on_page).
  erewrite bind_ok by (by eapply closestFormGroup_run).
  erewrite bind_ok by (by apply write_run).
  erewrite bind_ok by (apply write_run; simpl; apply lookup_insert_eq).
  match goal with |- context [announceToScreenReader ?msg ?st] =>
    destruct (announce_ok msg st) as (s' & Hrun & Hkeep) end.
  exists s'. split; [exact Hrun|].
  edestruct Hkeep as (e' & He' & Hfg' & Hattr); [simpl; apply lookup_insert_eq|].
  exists e'. eexists. split; [exact He'|]. split; [rewrite Hfg'; simpl; by rewrite Hfg|].
  simpl. split.
  { apply elem_of_difference. split; [|by rewrite elem_of_singleton].
    apply elem_of_union_r. by apply elem_of_singleton. }
  split.
  - rewrite Hattr. simpl. apply lookup_insert_eq.
  - intros em Hem. destruct (errorElement fg); simpl in Hem; [|done].
    inversion Hem; subst. simpl. apply lookup_insert_eq.
Qed.

Lemma showFieldSuccess_in_group f s :
  initialised s -> f ∈ fieldNames -> fieldInGroup s f ->
  exists s', showFieldSuccess f s = (Ok tt, s') /\ fieldSuccessShown s' f.
Proof.
  intros Hi Hin (e & fg & He & Hfg).
  unfold showFieldSuccess.
  erewrite bind_ok by (by eapply fieldRef_on_page).
  erewrite bind_ok by (by eapply closestFormGroup_run).
  erewrite bind_ok by (by apply write_run).
  erewrite write_run by (simpl; apply lookup_insert_eq).
  eexists. split; [reflexivity|].
  do 2 eexists. split; [simpl; apply lookup_insert_eq|].
  simpl. rewrite Hfg. simpl. split; [done|]. simpl. split; [|split].
  - apply elem_of_difference. split; [|by rewrite elem_of_singleton].
    apply elem_of_union_r. by apply elem_of_singleton.
  - rewrite elem_of_difference, elem_of_singleton. by intros [_ H].
  - apply lookup_insert_eq.
Qed.

Lemma validateField_unconditional f s :
  initialised s -> f ∈ unconditionalFields -> fieldInGroup s f ->
  exists s', validateField f s = (Ok (accepted (verdictOf s f)), s') /\
    marked s' f (verdictOf s f).
Proof.
  intros Hi Hun Hg. pose proof Hg as (e & fg & He & Hfg).
  pose proof (unconditional_is_field f Hun) as Hin.
  destruct (unconditional_rules f Hun) as (rules & Hr & Hnc & Hreq).
  destruct (clearFieldError_in_group f s rules Hi Hin Hg Hr) as (s1 & Hclear & Hg1 & Hcl).
  assert (Hi1 : initialised s1).
  { eapply initialised_same_page; [|exact Hi].
    eapply step_same_page; [apply keeps_clearFieldError|exact Hclear]. }
  unfold verdictOf. rewrite He, Hr, Hnc.
  set (value := trim (getProp "value" (self e))).
  unfold validateField.
  erewrite bind_ok by (by eapply fieldRef_on_page).
  rewrite Hr. erewrite bind_ok by (by apply fieldValue_run).
  erewrite bind_ok by exact Hclear. fold value.
  unfold try_catch, checkField, judge.
  rewrite (bind_ok _ _ _ _ _ (Hreq s1)).
  destruct (required rules && negb (truthy value)) eqn:C1.
  { destruct (showFieldError_in_group f (getFieldLabel f +:+ " is required") s1 Hi1 Hin Hg1)
      as (s2 & Hshow & Hshown).
    erewrite bind_ok by exact Hshow. by exists s2. }
  destruct (negb (truthy value) && negb (required rules)) eqn:C2.
  { exists s1. split; [done|]. simpl. apply Hcl.
    apply andb_true_iff in C2 as [_ C2]. by apply negb_true_iff in C2. }
  destruct (tooShort rules value) eqn:C3.
  { match goal with |- context [showFieldError f ?msg] =>
      destruct (showFieldError_in_group f msg s1 Hi1 Hin Hg1) as (s2 & Hshow & Hshown) end.
    erewrite bind_ok by exact Hshow. by exists s2. }
  destruct (mismatch rules value) eqn:C4.
  { destruct (showFieldError_in_group f (message rules) s1 Hi1 Hin Hg1)
      as (s2 & Hshow & Hshown).
    erewrite bind_ok by exact Hshow. by exists s2. }
  destruct (customResult rules value) as [customMessage|] eqn:C5.
  { destruct (showFieldError_in_group f customMessage s1 Hi1 Hin Hg1)
      as (s2 & Hshow & Hshown).
    erewrite bind_ok by exact Hshow. by exists s2. }
  destruct (showFieldSuccess_in_group f s1 Hi1 Hin Hg1) as (s2 & Hshow & Hshown).
  erewrite bind_ok by exact Hshow. by exists s2.
Qed.

Lemma field_cases f :
  f ∈ fieldNames -> f ∈ conditionalFields \/ f ∈ unconditionalFields.
Proof.
  intros H. apply list_elem_of_In in H. simpl in H.
  repeat (destruct H as [<-|H];
          [first [left; apply list_elem_of_In; simpl; tauto
                 |right; apply list_elem_of_In; simpl; tauto]|]).
  done.
Qed.

Lemma field_not_live_region f : f ∈ fieldNames -> f <> "live-region".
Proof.
  intros H. apply list_elem_of_In in H. simpl in H.
  repeat (destruct H as [<-|H]; [done|]). done.
Qed.

Lemma verdictOf_ext s s' f :
  document s' !! f = document s !! f -> verdictOf s' f = verdictOf s f.
Proof. intros H. unfold verdictOf. by rewrite H. Qed.

Lemma marked_ext s s' f v :
  document s' !! f = document s !! f -> marked s f v -> marked s' f v.
Proof.
  intros H. destruct v; simpl; unfold fieldErrorCleared, fieldSuccessShown, fieldErrorShown;
    by rewrite H.
Qed.

Lemma forallb_agree {A} (g h : A -> bool) (l : list A) :
  (forall x, x ∈ l -> g x = h x) -> forallb g l = forallb h l.
Proof.
  induction l as [|x l IH]; intros H; [done|]. simpl.
  rewrite (H x) by apply list_elem_of_here.
  rewrite IH; [done|]. intros y Hy. apply H. by apply list_elem_of_further.
Qed.

Lemma validateField_absent f s :
  initialised s -> f ∈ fieldNames -> document s !! f = None ->
  validateField f s = (Ok true, s).
Proof.
  intros Hi Hin Hn. unfold validateField.
  rewrite (bind_ok _ _ _ _ _ (fieldRef_field f s Hi Hin)), Hn. done.
Qed.

(** One field, whatever its kind. *)
Lemma validateField_verdict f s :
  initialised s -> f ∈ fieldNames ->
  (forall e, document s !! f = Some e -> is_Some (formGroup e)) ->
  exists s', validateField f s = (Ok (accepted (verdictOf s f)), s') /\
    (is_Some (document s !! f) -> marked s' f (verdictOf s f)).
Proof.
  intros Hi Hin Hg. destruct (document s !! f) as [e|] eqn:He.
  - destruct (Hg e eq_refl) as [fg Hfg].
    assert (Hgr : fieldInGroup s f) by (by exists e, fg).
    destruct (field_cases f Hin) as [Hc|Hu].
    + destruct (validateField_conditional f s Hi Hc Hgr) as (s' & Hrun & Hshown).
      destruct (conditional_rules f Hc) as (rules & Hr & _).
      exists s'. unfold verdictOf. rewrite He, Hr.
      rewrite bool_decide_eq_true_2 by done. done.
    + destruct (validateField_unconditional f s Hi Hu Hgr) as (s' & Hrun & Hm).
      exists s'. split; [exact Hrun|]. done.
  - exists s. unfold verdictOf. rewrite He. split; [by apply validateField_absent|].
    by intros [? ?].
Qed.

Lemma validateEach_verdicts l :
  NoDup l -> (forall f, f ∈ l -> f ∈ fieldNames) ->
  forall b s, initialised s ->
  (forall f e, f ∈ l -> document s !! f = Some e -> is_Some (formGroup e)) ->
  exists s', validateEach l b s = (Ok (b && forallb (fun f => accepted (verdictOf s f)) l), s') /\
    (forall f, f ∈ l -> is_Some (document s !! f) -> marked s' f (verdictOf s f)) /\
    (forall id, id ∉ l -> id <> "live-region" -> document s' !! id = document s !! id).
Proof.
  induction l as [|x l IH]; intros Hnd Hl b s Hi Hg.
  - exists s. simpl. rewrite andb_true_r. split; [done|]. split; [|done].
    intros f Hf. by apply elem_of_nil in Hf.
  - apply NoDup_cons in Hnd as [Hx Hnd].
    assert (Hxf : x ∈ fieldNames) by (apply Hl, list_elem_of_here).
    destruct (validateField_verdict x s Hi Hxf) as (s1 & Hrun & Hmx).
    { intros e. apply Hg, list_elem_of_here. }
    assert (Hi1 : initialised s1).
    { eapply initialised_same_page; [|exact Hi].
      eapply step_same_page; [apply keeps_validateField|exact Hrun]. }
    assert (Hfr : forall id, id <> x -> id <> "live-region" ->
                   document s1 !! id = document s !! id).
    { intros id H1 H2.
      pose proof (touches_validateField [x; "live-region"] x) as Ht.
      specialize (Ht ltac:(apply list_elem_of_here)
                     ltac:(apply list_elem_of_further, list_elem_of_here)
                     s id (initialised_tidy s Hi)).
      rewrite Hrun in Ht. apply Ht.
      intros Hid. apply elem_of_cons in Hid as [->|Hid]; [done|].
      apply elem_of_cons in Hid as [->|Hid]; [done|]. by apply elem_of_nil in Hid. }
    assert (Hother : forall f, f ∈ l -> document s1 !! f = document s !! f).
    { intros f Hf. apply Hfr.
      - intros ->. done.
      - apply field_not_live_region, Hl. by apply list_elem_of_further. }
    destruct (IH Hnd (fun f Hf => Hl f (list_elem_of_further _ _ _ Hf))
                (if accepted (verdictOf s x) then b else false) s1 Hi1)
      as (s' & Hrest & Hm & Hframe).
    { intros f e Hf He. rewrite (Hother f Hf) in He.
      eapply Hg; [|exact He]. by apply list_elem_of_further. }
    exists s'. split; [|split].
    + simpl. erewrite bind_ok by exact Hrun. rewrite Hrest. f_equal. f_equal.
      rewrite (forallb_agree _ (fun f => accepted (verdictOf s f)) l).
      * by destruct (accepted (verdictOf s x)), b.
      * intros f Hf. f_equal. apply verdictOf_ext. by apply Hother.
    + intros f Hf Hsome. apply elem_of_cons in Hf as [->|Hf].
      * eapply marked_ext; [|by apply Hmx].
        apply Hframe; [done|]. by apply field_not_live_region.
      * rewrite <- (verdictOf_ext s s1 f (Hother f Hf)). apply Hm; [done|].
        by rewrite (Hother f Hf).
    + intros id Hid Hlr. rewrite Hframe; [|by intros H; apply Hid, list_elem_of_further|done].
      apply Hfr; [|done]. intros ->. apply Hid, list_elem_of_here.
Qed.

Lemma fieldNames_NoDup : NoDup fieldNames.
Proof.
  apply NoDup_ListNoDup. vm_compute. repeat constructor; simpl; intuition discriminate.
Qed.

Lemma validateAllFields_run s :
  initialised s ->
  (forall f e, f ∈ fieldNames -> document s !! f = Some e -> is_Some (formGroup e)) ->
  exists s', validateAllFields s
             = (Ok (forallb (fun f => accepted (verdictOf s f)) fieldNames), s') /\
    (forall f, f ∈ fieldNames -> is_Some (document s !! f) -> marked s' f (verdictOf s f)) /\
    (forall id, id ∉ fieldNames -> id <> "live-region" ->
       document s' !! id = document s !! id).
Proof.
  intros Hi Hg.
  destruct (validateEach_verdicts fieldNames fieldNames_NoDup (fun f H => H) true s Hi Hg)
    as (s' & Hrun & Hm & Hfr).
  exists s'. split; [|by split].
  unfold validateAllFields. erewrite bind_ok by reflexivity.
  destruct Hi as (_ & Hfs). rewrite Hfs, refsOf_keys. exact Hrun.
Qed.

(** X1. [validateField] on a field whose requirement does not depend on a
    checkbox (name, email, phone, address, about, education, skills,
    strengths, achievements), when the field is on the page inside a form
    group and [cacheElements] has run: the call returns normally, its
    result is [false] exactly when [checkField] calls [showFieldError], and
    the form group then shows that message; otherwise it shows success, or,
    for an empty optional field, no error.  Nothing but the DOM changes. *)
Theorem validateField_follows_rules (s : App) (fieldName : string) :
  initialised s -> fieldName ∈ unconditionalFields -> fieldInGroup s fieldName ->
  exists s', validateField fieldName s = (Ok (accepted (verdictOf s fieldName)), s') /\
    marked s' fieldName (verdictOf s fieldName) /\ only_dom s s'.
Proof.
  intros Hi Hun Hg.
  destruct (validateField_unconditional fieldName s Hi Hun Hg) as (s' & Hrun & Hm).
  exists s'. split; [exact Hrun|]. split; [exact Hm|].
  pose proof (dom_validateField fieldName s) as Hd. by rewrite Hrun in Hd.
Qed.

Lemma validateField_follows_rules_witness :
  exists s', validateField "email" Sample.ready
             = (Ok (accepted (verdictOf Sample.ready "email")), s') /\
    marked s' "email" (verdictOf Sample.ready "email") /\ only_dom Sample.ready s'.
Proof.
  apply (validateField_follows_rules Sample.ready "email").
  - apply cacheElements_initialised.
  - apply list_elem_of_In. simpl. tauto.
  - do 2 eexists. split; [vm_compute; reflexivity|reflexivity].
Defined.





(** ** The patterns of [ValidationRules] *)

Lemma allChars_app p a b : allChars p (a +:+ b) = allChars p a && allChars p b.
Proof. induction a as [|c a IH]; simpl; [done|]. by rewrite IH, andb_assoc. Qed.

Lemma truthy_app_r a b : truthy b = true -> truthy (a +:+ b) = true.
Proof. by destruct a, b. Qed.

Lemma hasInnerDot_sound seen r :
  hasInnerDot seen r = true ->
  exists b c, r = b +:+ "." +:+ c /\ (seen || truthy b) = true /\ truthy c = true.
Proof.
  revert seen. induction r as [|x r IH]; intros seen H; simpl in H; [done|].
  apply orb_true_iff in H as [H|H].
  - apply andb_true_iff in H as [H Hc]. apply andb_true_iff in H as [Hs Hx].
    apply Ascii.eqb_eq in Hx as ->. exists "", r. by rewrite Hs.
  - destruct (IH true H) as (b & c & -> & _ & Hc).
    exists (String x b), c. by rewrite orb_true_r.
Qed.

Lemma hasInnerDot_complete seen b c :
  (seen || truthy b) = true -> truthy c = true ->
  hasInnerDot seen (b +:+ "." +:+ c) = true.
Proof.
  revert seen. induction b as [|x b IH]; intros seen Hs Hc.
  - rewrite orb_false_r in Hs. subst seen. by destruct c.
  - change (((seen && Ascii.eqb x "." && truthy (b +:+ "." +:+ c))
             || hasInnerDot true (b +:+ "." +:+ c)) = true).
    rewrite (IH true) by done. apply orb_true_r.
Qed.

Lemma emailFrom_sound seen s :
  emailFrom seen s = true ->
  exists a r, s = a +:+ "@" +:+ r /\ (seen || truthy a) = true /\
    allChars mailChar a = true /\ allChars mailChar r = true /\
    hasInnerDot false r = true.
Proof.
  revert seen. induction s as [|x s IH]; intros seen H; simpl in H; [done|].
  destruct (Ascii.eqb x "@") eqn:Hx.
  - apply Ascii.eqb_eq in Hx as ->.
    apply andb_true_iff in H as [H Hd]. apply andb_true_iff in H as [Hs Hr].
    exists "", s. by rewrite Hs.
  - apply andb_true_iff in H as [Hsp H].
    destruct (IH true H) as (a & r & -> & _ & Ha & Hr & Hd).
    exists (String x a), r. rewrite orb_true_r. simpl.
    unfold mailChar at 1. by rewrite Hsp, Hx, Ha.
Qed.

Lemma emailFrom_complete seen a r :
  (seen || truthy a) = true -> allChars mailChar a = true ->
  allChars mailChar r = true -> hasInnerDot false r = true ->
  emailFrom seen (a +:+ "@" +:+ r) = true.
Proof.
  revert seen. induction a as [|x a IH]; intros seen Hs Ha Hr Hd; simpl.
  - rewrite orb_false_r in Hs. change ("" +:+ r) with r. by rewrite Hs, Hr, Hd.
  - simpl in Ha. apply andb_true_iff in Ha as [Hx Ha].
    unfold mailChar in Hx. apply andb_true_iff in Hx as [Hsp Hat].
    apply negb_true_iff in Hat. rewrite Hat, Hsp. simpl. by apply IH.
Qed.

(** X4. The e-mail rule accepts exactly the values of the form
    [local@domain.tld] where the three parts are not empty and contain
    neither white space nor [@], as the regular expression
    [/^[^\s@]+@[^\s@]+\.[^\s@]+$/] says. *)
Theorem email_pattern_language (value : string) :
  test EmailPattern value = true <->
  exists loc dom tld,
    value = loc +:+ "@" +:+ dom +:+ "." +:+ tld /\
    truthy loc = true /\ truthy dom = true /\ truthy tld = true /\
    allChars mailChar loc = true /\ allChars mailChar dom = true /\
    allChars mailChar tld = true.
Proof.
  simpl. split.
  - intros H. destruct (emailFrom_sound _ _ H) as (a & r & -> & Hs & Ha & Hr & Hd).
    destruct (hasInnerDot_sound _ _ Hd) as (b & c & -> & Hb & Hc).
    rewrite !allChars_app in Hr.
    apply andb_true_iff in Hr as [Hrb Hr]. apply andb_true_iff in Hr as [_ Hrc].
    exists a, b, c. by repeat split.
  - intros (a & b & c & -> & Ha & Hb & Hc & Hma & Hmb & Hmc).
    apply emailFrom_complete; [by rewrite Ha|done| |by apply hasInnerDot_complete].
    rewrite !allChars_app, Hmb, Hmc. done.
Qed.

(** X5. The phone rule accepts exactly an optional [+] followed by at
    least ten characters, each a digit, white space, a parenthesis or a
    hyphen, as [/^[\+]?[\d\s\(\)\-]{10,}$/] says; the count is of
    characters, not of digits. *)
Theorem phone_pattern_language (value : string) :
  test PhonePattern value = true <->
  exists sign body,
    value = sign +:+ body /\ (sign = "" \/ sign = "+") /\
    (10 <= String.length body)%nat /\ allChars phoneChar body = true.
Proof.
  unfold test. split.
  - intros H. apply andb_true_iff in H as [Hl Hc]. apply Nat.leb_le in Hl.
    destruct value as [|x r]; [simpl in Hl; lia|].
    destruct (Ascii.eqb x "+") eqn:Hx.
    + apply Ascii.eqb_eq in Hx as ->. exists "+", r. split; [done|]. split; [by right|done].
    + exists "", (String x r). split; [done|]. split; [by left|done].
  - intros (sign & body & -> & [->| ->] & Hl & Hc).
    + change ("" +:+ body) with body.
      destruct body as [|x r]; [simpl in Hl; lia|].
      destruct (Ascii.eqb x "+") eqn:Hx.
      * apply Ascii.eqb_eq in Hx as ->. simpl in Hc. discriminate.
      * rewrite Hc. apply andb_true_iff. split; [by apply Nat.leb_le|done].
    + change (((10 <=? String.length body)%nat && allChars phoneChar body) = true).
      rewrite Hc. apply andb_true_iff. split; [by apply Nat.leb_le|done].
Qed.

Lemma splitOn_no_separator sep cur s :
  allChars (fun c => negb (Ascii.eqb c sep)) s = true ->
  length (splitOn sep cur s) = 1%nat.
Proof.
  revert cur. induction s as [|x s IH]; intros cur H; simpl; [done|].
  simpl in H. apply andb_true_iff in H as [Hx Hs].
  apply negb_true_iff in Hx. rewrite Hx. by apply IH.
Qed.

(** X6. The custom validator of the skills rule rejects every non-blank
    value without a comma: a single skill is never enough. *)
Theorem single_skill_rejected (value : string) :
  truthy (trim value) = true ->
  allChars (fun c => negb (Ascii.eqb c ",")) value = true ->
  skillsValidator value = Some "Please enter at least 2 skills separated by commas".
Proof.
  intros Hv Hc. unfold skillsValidator. rewrite Hv. simpl.
  pose proof (splitOn_no_separator "," "" value Hc) as Hl. fold (split "," value) in Hl.
  destruct (split "," value) as [|x [|y l]]; simpl in Hl; try discriminate.
  rewrite fmap_cons, fmap_nil, filter_cons, filter_nil.
  by destruct (decide _).
Qed.

Lemma single_skill_rejected_witness :
  skillsValidator "Rocq" = Some "Please enter at least 2 skills separated by commas".
Proof. apply (single_skill_rejected "Rocq"); reflexivity. Defined.

(** ** [populateTemplate] *)

Lemma present_same_page ids s s' : same_page s s' -> present ids s -> present ids s'.
Proof. intros (_ & _ & Hd) Hp id Hid. apply Hd. by apply Hp. Qed.

Lemma ok_ret {A} ids (a : A) : succeeds_on ids (ret a).
Proof. intros s _. by exists a, s. Qed.

Lemma ok_bind {A B} ids (m : M A) (k : A -> M B) :
  keeps_page m -> succeeds_on ids m -> (forall a, succeeds_on ids (k a)) ->
  succeeds_on ids (bind m k).
Proof.
  intros Hk Hm Hc s Hp. destruct (Hm s Hp) as (a & s1 & Hrun).
  rewrite (bind_ok _ _ _ _ _ Hrun). apply Hc.
  eapply present_same_page; [|exact Hp]. by eapply step_same_page.
Qed.

Lemma ok_when ids b (m : M unit) : succeeds_on ids m -> succeeds_on ids (when b m).
Proof. destruct b; [done|intros _; apply ok_ret]. Qed.

Lemma ok_byId ids id what f : id ∈ ids -> succeeds_on ids (byId id what f).
Proof.
  intros Hin s Hp. destruct (Hp id Hin) as [e He].
  unfold byId, getElementById. erewrite bind_ok by reflexivity. simpl. rewrite He.
  erewrite write_run by exact He. by eauto.
Qed.

(** [const el = document.getElementById(id); if (el) { ... }] never throws. *)
Lemma ok_if_found ids id what f :
  succeeds_on ids
    (r <- getElementById id ;;
     match r with
     | Some _ => write (Some r) what f
     | None => ret tt
     end).
Proof.
  intros s _. unfold getElementById. erewrite bind_ok by reflexivity. simpl.
  destruct (document s !! id) as [e|] eqn:He; [|by eauto].
  erewrite write_run by exact He. by eauto.
Qed.

Ltac template_part :=
  unfold templateIds; rewrite !fmap_cons;
  repeat first [apply list_elem_of_here | apply list_elem_of_further].

Lemma ok_populateSection ids t section content :
  ("pdf-" +:+ section +:+ "-" +:+ t) ∈ ids -> (section +:+ "-section-" +:+ t) ∈ ids ->
  succeeds_on ids (populateSection t section content).
Proof.
  intros H1 H2. unfold populateSection, setHTML, setDisplay.
  destruct (filled content); [|by apply ok_byId].
  apply ok_bind; [keeps|by apply ok_byId|intros _; by apply ok_byId].
Qed.

Lemma classic_header_ok b1 b2 what f s :
  exists s',
    when b1
      (headerElement <- getElementById "classic-header" ;;
       match headerElement with
       | Some _ => when b2 (write (Some headerElement) what f)
       | None => ret tt
       end) s = (Ok tt, s').
Proof.
  destruct b1; [|by eexists]. simpl.
  unfold getElementById. erewrite bind_ok by reflexivity. simpl.
  destruct (document s !! "classic-header") as [e|] eqn:He; [|by eexists].
  destruct b2; [|by eexists]. simpl. erewrite write_run by exact He. by eexists.
Qed.

Lemma ok_populatePhoto t fd : succeeds_on (templateIds t) (populatePhoto t fd).
Proof.
  unfold populatePhoto. destruct (_ && _).
  - apply ok_byId. template_part.
  - intros s _. unfold getElementById at 1. erewrite bind_ok by reflexivity. simpl.
    destruct (document s !! ("pdf-photo-" +:+ t)) as [e|] eqn:He.
    + erewrite bind_ok by (apply write_run; exact He).
      edestruct classic_header_ok as (s' & ->). by eauto.
    + erewrite bind_ok by reflexivity.
      edestruct classic_header_ok as (s' & ->). by eauto.
Qed.

Lemma ok_populateSkills t skills : succeeds_on (templateIds t) (populateSkills t skills).
Proof.
  unfold populateSkills, setHTML, setDisplay.
  destruct (filled skills); [|apply ok_byId; template_part].
  apply ok_bind; [keeps|apply ok_byId; template_part|intros _; apply ok_byId; template_part].
Qed.

Lemma ok_populateCustom t title content :
  succeeds_on (templateIds t) (populateCustom t title content).
Proof.
  unfold populateCustom, setText, setHTML, setDisplay.
  destruct (_ && _); [|apply ok_byId; template_part].
  apply ok_bind; [keeps|apply ok_byId; template_part|intros _].
  apply ok_bind; [keeps|apply ok_byId; template_part|intros _; apply ok_byId; template_part].
Qed.

Lemma keeps_populateSection t section content : keeps_page (populateSection t section content).
Proof. unfold populateSection, setHTML, setDisplay. keeps. Qed.
Lemma keeps_populatePhoto t fd : keeps_page (populatePhoto t fd).
Proof. unfold populatePhoto. keeps. Qed.
Lemma keeps_populateSkills t skills : keeps_page (populateSkills t skills).
Proof. unfold populateSkills, setHTML, setDisplay. keeps. Qed.
Lemma keeps_populateCustom t title content : keeps_page (populateCustom t title content).
Proof. unfold populateCustom, setText, setHTML, setDisplay. keeps. Qed.
Lemma keeps_setText id text : keeps_page (setText id text).
Proof. unfold setText. keeps. Qed.
#[export] Hint Resolve keeps_populateSection keeps_populatePhoto keeps_populateSkills
  keeps_populateCustom keeps_setText : keeps.

Lemma populateTemplate_ok fd s :
  present (templateIds (fd_template fd)) s ->
  exists s', populateTemplate fd s = (Ok tt, s').
Proof.
  intros Hp. unfold populateTemplate, try_catch. cbv zeta.
  set (t := fd_template fd) in *.
  match goal with |- context [match ?body s with _ => _ end] =>
    assert (Hok : succeeds_on (templateIds t) body) end.
  { unfold setText.
    do 4 (apply ok_bind; [solve [keeps]|apply ok_byId; template_part|intros _]).
    apply ok_bind; [solve [keeps]|apply ok_populateSection; template_part|intros _].
    apply ok_bind; [solve [keeps]|apply ok_populatePhoto|intros _].
    do 2 (apply ok_bind; [solve [keeps]|apply ok_populateSection; template_part|intros _]).
    apply ok_bind; [solve [keeps]|apply ok_populateSkills|intros _].
    do 4 (apply ok_bind; [solve [keeps]|apply ok_populateSection; template_part|intros _]).
    apply ok_populateCustom. }
  destruct (Hok s Hp) as ([] & s' & ->). by exists s'.
Qed.

Lemma touches_mono {A} P W W' (m : M A) :
  (forall id, id ∈ W -> id ∈ W') -> touches_only P W m -> touches_only P W' m.
Proof. intros HW Hm s id Hs Hid. apply Hm; [done|]. intros Hin. by apply Hid, HW. Qed.

Lemma touches_setText P id text : touches_only P [id] (setText id text).
Proof. apply touches_byId, list_elem_of_here. Qed.

Lemma touches_populateSection P t section content :
  touches_only P [ "pdf-" +:+ section +:+ "-" +:+ t; section +:+ "-section-" +:+ t ]
    (populateSection t section content).
Proof.
  unfold populateSection, setHTML, setDisplay.
  destruct (filled content).
  - apply touches_bind_any; [keeps|apply touches_byId, list_elem_of_here|intros _].
    apply touches_byId, list_elem_of_further, list_elem_of_here.
  - apply touches_byId, list_elem_of_further, list_elem_of_here.
Qed.

Lemma touches_populatePhoto P t fd :
  touches_only P [ "pdf-photo-" +:+ t; "classic-header" ] (populatePhoto t fd).
Proof.
  unfold populatePhoto. destruct (_ && _); [apply touches_byId, list_elem_of_here|].
  intros s id _ Hid. unfold getElementById at 1. erewrite bind_ok by reflexivity. simpl.
  assert (H1 : id <> "pdf-photo-" +:+ t) by (intros ->; apply Hid, list_elem_of_here).
  assert (H2 : id <> "classic-header")
    by (intros ->; apply Hid, list_elem_of_further, list_elem_of_here).
  assert (Hh : forall s0, document (snd (when (bool_decide (t = "classic"))
             (headerElement <- getElementById "classic-header" ;;
              match headerElement with
              | Some _ =>
                  when (negb (fd_includePhoto fd))
                    (write (Some headerElement) "classList" (with_self (classAdd "no-photo")))
              | None => ret tt
              end) s0)) !! id = document s0 !! id).
  { intros s0. destruct (bool_decide _); [|done]. simpl.
    unfold getElementById. erewrite bind_ok by reflexivity. simpl.
    destruct (document s0 !! "classic-header") as [e|] eqn:He; [|done].
    destruct (negb _); [|done]. simpl. erewrite write_run by exact He.
    simpl. by rewrite lookup_insert_ne. }
  destruct (document s !! ("pdf-photo-" +:+ t)) as [e|] eqn:He.
  - erewrite bind_ok by (apply write_run; exact He). rewrite Hh. simpl.
    by rewrite lookup_insert_ne.
  - erewrite bind_ok by reflexivity. apply Hh.
Qed.

Lemma touches_populateSkills P t skills :
  touches_only P [ "pdf-skills-" +:+ t; "skills-section-" +:+ t ] (populateSkills t skills).
Proof.
  unfold populateSkills, setHTML, setDisplay.
  destruct (filled skills).
  - apply touches_bind_any; [keeps|apply touches_byId, list_elem_of_here|intros _].
    apply touches_byId, list_elem_of_further, list_elem_of_here.
  - apply touches_byId, list_elem_of_further, list_elem_of_here.
Qed.

Lemma touches_populateCustom P t title content :
  touches_only P [ "pdf-custom-title-" +:+ t; "pdf-custom-content-" +:+ t;
                   "custom-section-" +:+ t ] (populateCustom t title content).
Proof.
  unfold populateCustom, setText, setHTML, setDisplay.
  destruct (_ && _).
  - apply touches_bind_any; [keeps|apply touches_byId, list_elem_of_here|intros _].
    apply touches_bind_any;
      [keeps|apply touches_byId, list_elem_of_further, list_elem_of_here|intros _].
    apply touches_byId. do 2 apply list_elem_of_further. apply list_elem_of_here.
  - apply touches_byId. do 2 apply list_elem_of_further. apply list_elem_of_here.
Qed.

Lemma touches_populateTemplate P fd :
  touches_only P (templateIds (fd_template fd) ++ ["classic-header"]) (populateTemplate fd).
Proof.
  apply (touches_weaken anywhere); [done|].
  unfold populateTemplate. cbv zeta. set (t := fd_template fd).
  apply touches_try_catch; [apply stable_anywhere| | |intros e; apply touches_throw].
  { pose proof (keeps_populateTemplate fd) as Hk. intros s. specialize (Hk s).
    unfold populateTemplate, try_catch in Hk. cbv zeta in Hk. fold t in Hk.
    match goal with |- same_page s (snd (?body s)) =>
      destruct (body s) as [[[]|e] s1] end; exact Hk. }
  assert (H1 : forall part, part ∈ templateIds t ->
            forall id, id ∈ [part] -> id ∈ templateIds t ++ ["classic-header"]).
  { intros part Hp id Hid. apply list_elem_of_singleton in Hid as ->.
    apply elem_of_app. by left. }
  assert (H2 : forall p1 p2, p1 ∈ templateIds t -> p2 ∈ templateIds t ->
            forall id, id ∈ [p1; p2] -> id ∈ templateIds t ++ ["classic-header"]).
  { intros p1 p2 Hp1 Hp2 id Hid. apply elem_of_app. left.
    apply elem_of_cons in Hid as [->|Hid]; [done|].
    by apply list_elem_of_singleton in Hid as ->. }
  do 4 (apply touches_bind_any;
        [solve [keeps]
        |eapply touches_mono; [apply H1|apply touches_setText]; template_part
        |intros _]).
  apply touches_bind_any;
    [solve [keeps]
    |eapply touches_mono; [apply H2|apply touches_populateSection]; template_part
    |intros _].
  apply touches_bind_any; [solve [keeps]| |intros _].
  { eapply touches_mono; [|apply touches_populatePhoto].
    intros id Hid. apply elem_of_app.
    apply elem_of_cons in Hid as [->|Hid]; [left; template_part|right].
    apply list_elem_of_singleton in Hid as ->. apply list_elem_of_here. }
  do 2 (apply touches_bind_any;
        [solve [keeps]
        |eapply touches_mono; [apply H2|apply touches_populateSection]; template_part
        |intros _]).
  apply touches_bind_any;
    [solve [keeps]
    |eapply touches_mono; [apply H2|apply touches_populateSkills]; template_part
    |intros _].
  do 4 (apply touches_bind_any;
        [solve [keeps]
        |eapply touches_mono; [apply H2|apply touches_populateSection]; template_part
        |intros _]).
  eapply touches_mono; [|apply touches_populateCustom].
  intros id Hid. apply elem_of_app. left.
  apply elem_of_cons in Hid as [->|Hid]; [template_part|].
  apply elem_of_cons in Hid as [->|Hid]; [template_part|].
  apply list_elem_of_singleton in Hid as ->. template_part.
Qed.

Lemma byId_inv id what f s s' :
  byId id what f s = (Ok tt, s') ->
  exists e, document s !! id = Some e /\ s' = set_document (<[id := f e]> (document s)) s.
Proof.
  unfold byId, getElementById. erewrite bind_ok by reflexivity. simpl.
  destruct (document s !! id) as [e|] eqn:He.
  - intros H. apply write_inv in H as (e' & He' & ->). exists e'. by rewrite <- He'.
  - unfold write, bind, get. simpl. discriminate.
Qed.

Lemma setText_sets id text s s' :
  setText id text s = (Ok tt, s') -> propOf s' id "textContent" = Some text.
Proof.
  intros H. apply byId_inv in H as (e & He & ->).
  unfold propOf. simpl. rewrite lookup_insert_eq. simpl. apply lookup_insert_eq.
Qed.

Lemma populateSection_sets t section content s s' :
  "pdf-" +:+ section +:+ "-" +:+ t <> section +:+ "-section-" +:+ t ->
  populateSection t section content s = (Ok tt, s') ->
  displayOf s' (section +:+ "-section-" +:+ t)
    = Some (CssText (if filled content then "block" else "none")) /\
  (filled content = true ->
   propOf s' ("pdf-" +:+ section +:+ "-" +:+ t) "innerHTML" = Some (newlinesToBr content)).
Proof.
  intros Hne. unfold populateSection, setHTML, setDisplay.
  destruct (filled content).
  - intros H. apply bind_inv_ok in H as ([] & s1 & H1 & H2).
    apply byId_inv in H1 as (e1 & He1 & ->). apply byId_inv in H2 as (e2 & He2 & ->).
    unfold displayOf, propOf. simpl. split.
    + rewrite lookup_insert_eq. simpl. apply lookup_insert_eq.
    + intros _. rewrite lookup_insert_ne by done. rewrite lookup_insert_eq. simpl.
      apply lookup_insert_eq.
  - intros H. apply byId_inv in H as (e & He & ->). split; [|done].
    unfold displayOf. simpl. rewrite lookup_insert_eq. simpl. apply lookup_insert_eq.
Qed.

Lemma populateSkills_sets t skills s s' :
  populateSkills t skills s = (Ok tt, s') ->
  displayOf s' ("skills-section-" +:+ t)
    = Some (CssText (if filled skills then "block" else "none")).
Proof.
  unfold populateSkills, setHTML, setDisplay.
  destruct (filled skills).
  - intros H. apply bind_inv_ok in H as ([] & s1 & H1 & H2).
    apply byId_inv in H2 as (e2 & He2 & ->).
    unfold displayOf. simpl. rewrite lookup_insert_eq. simpl. apply lookup_insert_eq.
  - intros H. apply byId_inv in H as (e & He & ->).
    unfold displayOf. simpl. rewrite lookup_insert_eq. simpl. apply lookup_insert_eq.
Qed.

Lemma populateCustom_sets t title content s s' :
  populateCustom t title content s = (Ok tt, s') ->
  displayOf s' ("custom-section-" +:+ t)
    = Some (CssText (if filled title && filled content then "block" else "none")).
Proof.
  unfold populateCustom, setText, setHTML, setDisplay.
  destruct (_ && _).
  - intros H. apply bind_inv_ok in H as ([] & s1 & H1 & H).
    apply bind_inv_ok in H as ([] & s2 & H2 & H3).
    apply byId_inv in H3 as (e3 & He3 & ->).
    unfold displayOf. simpl. rewrite lookup_insert_eq. simpl. apply lookup_insert_eq.
  - intros H. apply byId_inv in H as (e & He & ->).
    unfold displayOf. simpl. rewrite lookup_insert_eq. simpl. apply lookup_insert_eq.
Qed.

(** An id is none of those a step writes to. *)
Ltac other_part :=
  let H := fresh in
  intros H;
  repeat (apply elem_of_cons in H as [H|H]; [discriminate H|]);
  by apply elem_of_nil in H.

(** The steps of [populateTemplate], once it has returned. *)
Lemma populateTemplate_steps fd s s' :
  populateTemplate fd s = (Ok tt, s') ->
  let t := fd_template fd in
  exists s1 s2 s3 s4 s5 s6 s7 s8 s9 s10 s11 s12 s13,
    setText ("pdf-name-" +:+ t) (fd_name fd) s = (Ok tt, s1) /\
    setText ("pdf-address-" +:+ t) (fd_address fd) s1 = (Ok tt, s2) /\
    setText ("pdf-phone-" +:+ t) (fd_phone fd) s2 = (Ok tt, s3) /\
    setText ("pdf-email-" +:+ t) (fd_email fd) s3 = (Ok tt, s4) /\
    populateSection t "about" (fd_about fd) s4 = (Ok tt, s5) /\
    populatePhoto t fd s5 = (Ok tt, s6) /\
    populateSection t "experience" (fd_experience fd) s6 = (Ok tt, s7) /\
    populateSection t "education" (fd_education fd) s7 = (Ok tt, s8) /\
    populateSkills t (fd_skills fd) s8 = (Ok tt, s9) /\
    populateSection t "strengths" (fd_strengths fd) s9 = (Ok tt, s10) /\
    populateSection t "achievements" (fd_achievements fd) s10 = (Ok tt, s11) /\
    populateSection t "projects" (fd_projects fd) s11 = (Ok tt, s12) /\
    populateSection t "certificates" (fd_certificates fd) s12 = (Ok tt, s13) /\
    populateCustom t (fd_customTitle fd) (fd_customContent fd) s13 = (Ok tt, s').
Proof.
  unfold populateTemplate, try_catch. cbv zeta.
  match goal with |- context [match ?body s with _ => _ end] =>
    destruct (body s) as [[[]|e] sb] eqn:Hbody end; [|discriminate].
  intros H. inversion H; subst sb. clear H.
  apply bind_inv_ok in Hbody as ([] & s1 & H1 & Hbody).
  apply bind_inv_ok in Hbody as ([] & s2 & H2 & Hbody).
  apply bind_inv_ok in Hbody as ([] & s3 & H3 & Hbody).
  apply bind_inv_ok in Hbody as ([] & s4 & H4 & Hbody).
  apply bind_inv_ok in Hbody as ([] & s5 & H5 & Hbody).
  apply bind_inv_ok in Hbody as ([] & s6 & H6 & Hbody).
  apply bind_inv_ok in Hbody as ([] & s7 & H7 & Hbody).
  apply bind_inv_ok in Hbody as ([] & s8 & H8 & Hbody).
  apply bind_inv_ok in Hbody as ([] & s9 & H9 & Hbody).
  apply bind_inv_ok in Hbody as ([] & s10 & H10 & Hbody).
  apply bind_inv_ok in Hbody as ([] & s11 & H11 & Hbody).
  apply bind_inv_ok in Hbody as ([] & s12 & H12 & Hbody).
  apply bind_inv_ok in Hbody as ([] & s13 & H13 & Hbody).
  by exists s1, s2, s3, s4, s5, s6, s7, s8, s9, s10, s11, s12, s13.
Qed.

Lemma propOf_ext s s' id key :
  document s' !! id = document s !! id -> propOf s' id key = propOf s id key.
Proof. intros H. unfold propOf. by rewrite H. Qed.

Lemma displayOf_ext s s' id :
  document s' !! id = document s !! id -> displayOf s' id = displayOf s id.
Proof. intros H. unfold displayOf. by rewrite H. Qed.

(** Carry a fact about one element over the steps that write elsewhere. *)
Ltac carry :=
  repeat match goal with
  | F : forall id, id ∉ _ -> document ?b !! id = document _ !! id
    |- document ?b !! ?X = _ => rewrite (F X) by other_part
  end;
  reflexivity.



(** X7. [populateTemplate] on a page that has the twenty-four parts of
    the selected template returns normally, whatever the form data; it
    changes nothing outside the DOM, and in the DOM only those parts and
    the classic header. *)
Theorem populateTemplate_total (fd : FormData) (s : App) :
  present (templateIds (fd_template fd)) s ->
  exists s', populateTemplate fd s = (Ok tt, s') /\ only_dom s s' /\
    forall id, id ∉ templateIds (fd_template fd) -> id <> "classic-header" ->
      document s' !! id = document s !! id.
Proof.
  intros Hp. destruct (populateTemplate_ok fd s Hp) as (s' & Hrun).
  exists s'. split; [exact Hrun|]. split.
  - pose proof (dom_populateTemplate fd s) as Hd. by rewrite Hrun in Hd.
  - intros id H1 H2.
    apply (frame_of _ _ _ _ _ (touches_populateTemplate _ fd) Hrun).
    intros Hin. apply elem_of_app in Hin as [Hin|Hin]; [done|].
    by apply list_elem_of_singleton in Hin.
Qed.

Lemma populateTemplate_total_witness :
  exists s', populateTemplate Sample.ada Sample.ready = (Ok tt, s') /\
    only_dom Sample.ready s' /\
    forall id, id ∉ templateIds (fd_template Sample.ada) -> id <> "classic-header" ->
      document s' !! id = document Sample.ready !! id.
Proof.
  apply (populateTemplate_total Sample.ada Sample.ready).
  intros id Hid. apply list_elem_of_In in Hid. simpl in Hid.
  repeat (destruct Hid as [<-|Hid]; [vm_compute; by eexists|]). done.
Defined.

(** ** Generation cycles *)

Lemma same_files_refl s : same_files s s.
Proof. by split. Qed.

Lemma same_files_trans s1 s2 s3 : same_files s1 s2 -> same_files s2 s3 -> same_files s1 s3.
Proof. intros [H1 H2] [H3 H4]. split; congruence. Qed.

Lemma files_of_dom s s' : only_dom s s' -> same_files s s'.
Proof. intros (_ & _ & _ & _ & H5 & H6). by split. Qed.

Lemma step_dom {A} (m : M A) s r s' : preserves only_dom m -> m s = (r, s') -> only_dom s s'.
Proof. intros Hk Hrun. specialize (Hk s). by rewrite Hrun in Hk. Qed.

Lemma dom_adjust env id : preserves only_dom (adjustTemplateForContent env id).
Proof. unfold adjustTemplateForContent. dom. Qed.
Lemma dom_rasterize env id : preserves only_dom (rasterize env id).
Proof. intros s. apply only_dom_refl. Qed.
#[export] Hint Resolve dom_adjust dom_rasterize : dom.

Lemma rasterize_inv env id s c s' :
  rasterize env id s = (Ok c, s') ->
  s' = s /\ exists o, html2canvas env (document s) id o = Ok c.
Proof. unfold rasterize. intros H. inversion H. split; [done|]. by eexists. Qed.

(** What a step of a cycle keeps: the page, and whatever is outside the DOM. *)
Ltac track H K D :=
  match type of H with
  | ?m ?s = (_, ?s') =>
      assert (K : same_page s s') by (eapply step_same_page; [|exact H]; keeps);
      assert (D : same_files s s')
        by (apply files_of_dom; eapply step_dom; [|exact H]; dom)
  end.

Ltac chain_page :=
  repeat (eapply same_page_trans; [eassumption|]);
  first [eassumption | apply same_page_refl].
Ltac chain_files :=
  repeat (eapply same_files_trans; [eassumption|]);
  first [eassumption | apply same_files_refl].

Lemma generateBody_ok_files env fd s sb :
  generateBody env fd s = (Ok tt, sb) ->
  exists canvas d o,
    html2canvas env d ("pdf-" +:+ fd_template fd) o = Ok canvas /\
    downloads sb = downloads s ++ [(fileNameOf fd, assembleA4 canvas)] /\
    lastGeneration sb = Some (fd_template fd, fd_name fd).
Proof.
  intros Hbody. unfold generateBody in Hbody. set (T := "pdf-" +:+ fd_template fd) in *.
  apply bind_inv_ok in Hbody as ([] & s2 & H2 & Hbody).
  apply bind_inv_ok in Hbody as ([] & s3 & H3 & Hbody).
  apply bind_inv_ok in Hbody as ([] & s4 & H4 & Hbody).
  apply bind_inv_ok in Hbody as (t & s5 & H5 & Hbody).
  assert (s5 = s4) as -> by (by inversion H5).
  destruct t as [id|]; [|discriminate].
  assert (id = T) as ->.
  { unfold getElementById in H5. erewrite bind_ok in H5 by reflexivity.
    simpl in H5. destruct (document s4 !! T); by inversion H5. }
  apply bind_inv_ok in Hbody as ([] & s6 & H6 & Hbody).
  apply bind_inv_ok in Hbody as ([] & s7 & H7 & Hbody).
  apply bind_inv_ok in Hbody as ([] & s8 & H8 & Hbody).
  apply bind_inv_ok in Hbody as (c & s9 & H9 & Hbody).
  apply bind_inv_ok in Hbody as ([] & s10 & H10 & Hbody).
  apply bind_inv_ok in Hbody as ([] & s11 & H11 & Hbody).
  apply bind_inv_ok in Hbody as ([] & s12 & H12 & Hbody).
  apply bind_inv_ok in Hbody as ([] & s13 & H13 & Hbody).
  apply rasterize_inv in H9 as (-> & o & Hc).
  exists c, (document s8), o. split; [exact Hc|].
  inversion H2; subst s2. inversion H7; subst s7. inversion H11; subst s11.
  inversion Hbody; subst sb. clear H2 H7 H11 Hbody.
  track H3 K3 D3. track H4 K4 D4. track H6 K6 D6. track H8 K8 D8. track H10 K10 D10.
  track H12 K12 D12. track H13 K13 D13.
  assert (Hfiles : same_files s s10).
  { apply (same_files_trans _ (set_isGenerating true s)); [by split|]. chain_files. }
  destruct Hfiles as [Hd Hl]. destruct D12 as [Hd12 _]. destruct D13 as [Hd13 _].
  simpl. split; [|done]. rewrite Hd13, Hd12. simpl. by rewrite Hd.
Qed.

Lemma generateBody_throw_files env fd s e sb :
  chromeReady s ->
  generateBody env fd s = (Throw e, sb) ->
  same_files s sb.
Proof.
  intros Hc Hbody. unfold generateBody in Hbody. set (T := "pdf-" +:+ fd_template fd) in *.
  assert (D2 : same_files s (set_isGenerating true s)) by (by split).
  assert (K2 : same_page s (set_isGenerating true s)) by apply keeps_set_isGenerating.
  apply bind_inv_throw in Hbody as [H|([] & s2 & H2 & Hbody)]; [discriminate H|].
  inversion H2; subst s2. clear H2.
  apply bind_inv_throw in Hbody as [H|([] & s3 & H3 & Hbody)].
  { track H K D. chain_files. }
  track H3 K3 D3.
  apply bind_inv_throw in Hbody as [H|([] & s4 & H4 & Hbody)].
  { track H K D. chain_files. }
  track H4 K4 D4.
  apply bind_inv_throw in Hbody as [H|(t & s5 & H5 & Hbody)]; [discriminate H|].
  assert (s5 = s4) as -> by (by inversion H5).
  destruct t as [id|]; [|inversion Hbody; subst; chain_files].
  assert (id = T) as ->.
  { unfold getElementById in H5. erewrite bind_ok in H5 by reflexivity.
    simpl in H5. destruct (document s4 !! T); by inversion H5. }
  apply bind_inv_throw in Hbody as [H|([] & s6 & H6 & Hbody)].
  { track H K D. chain_files. }
  track H6 K6 D6.
  apply bind_inv_throw in Hbody as [H|([] & s7 & H7 & Hbody)]; [discriminate H|].
  inversion H7; subst s7. clear H7.
  apply bind_inv_throw in Hbody as [H|([] & s8 & H8 & Hbody)].
  { track H K D. chain_files. }
  track H8 K8 D8.
  apply bind_inv_throw in Hbody as [H|(c & s9 & H9 & Hbody)].
  { track H K D. chain_files. }
  track H9 K9 D9.
  apply bind_inv_throw in Hbody as [H|([] & s10 & H10 & Hbody)].
  { track H K D. chain_files. }
  track H10 K10 D10.
  apply bind_inv_throw in Hbody as [H|([] & s11 & H11 & Hbody)]; [discriminate H|].
  inversion H11; subst s11. clear H11.
  exfalso.
  set (s11 := add_download _ _ s10) in Hbody.
  assert (Hc11 : chromeReady s11).
  { eapply chromeReady_same_page; [|exact Hc].
    apply (same_page_trans _ s10); [chain_page|apply keeps_add_download]. }
  match type of Hbody with context [showMessage ?m ?t] =>
    destruct (showMessage_run m t s11 Hc11) as (em & Hem & Hshow) end.
  apply bind_inv_throw in Hbody as [H|([] & s12 & H12 & Hbody)];
    [rewrite Hshow in H; discriminate H|].
  apply bind_inv_throw in Hbody as [H|([] & s13 & H13 & Hbody)].
  { match type of H with announceToScreenReader ?m ?st = _ =>
      destruct (announce_ok m st) as (sa & Hrun & _) end.
    rewrite Hrun in H. discriminate H. }
  discriminate Hbody.
Qed.

Lemma generatePDF_files env fd s :
  same_files (snd (generateBody env fd s)) (snd (generatePDF env fd s)).
Proof.
  unfold generatePDF, try_finally, try_catch.
  destruct (generateBody env fd s) as [[[]|e] sb] eqn:Hbody; simpl.
  - destruct (generateFinally sb) as [[[]|e] s1] eqn:Hf; simpl.
    + unfold generateFinally in Hf. apply bind_inv_ok in Hf as ([] & s2 & H2 & Hf).
      inversion H2; subst s2. track Hf K D. apply (same_files_trans _ (set_isGenerating false sb));
        [by split|done].
    + unfold generateFinally in Hf. apply bind_inv_throw in Hf as [H|([] & s2 & H2 & Hf)];
        [discriminate H|].
      inversion H2; subst s2. track Hf K D. apply (same_files_trans _ (set_isGenerating false sb));
        [by split|done].
  - destruct (generateCatch e sb) as [r sc] eqn:Hcatch. 
    assert (Dc : same_files sb sc).
    { unfold generateCatch in Hcatch. track Hcatch K D. exact D. }
    assert (Df : same_files sc (snd (generateFinally sc))).
    { unfold generateFinally. unfold bind at 1. simpl.
      destruct (hideLoading (set_isGenerating false sc)) as [r' s'] eqn:Hh.
      track Hh K D. simpl. apply (same_files_trans _ (set_isGenerating false sc));
        [by split|done]. }
    destruct (generateFinally sc) as [[[]|e'] s1]; simpl in *;
      by eapply same_files_trans.
Qed.

(** The part of [generateBody] that follows a successful [populateTemplate]
    returns normally when the template is on the page and the rasterizer
    delivers. *)
Lemma render_ok env fd s e :
  chromeReady s ->
  document s !! ("pdf-" +:+ fd_template fd) = Some e ->
  (forall d o, exists c, html2canvas env d ("pdf-" +:+ fd_template fd) o = Ok c) ->
  exists sb,
    (templateElement <- getElementById ("pdf-" +:+ fd_template fd) ;;
     match templateElement with
     | None => throw (Error ("Template " +:+ fd_template fd +:+ " not found"))
     | Some id =>
         write (Some templateElement) "style" (with_self showOffscreen) ;;
         waitForResources ;;
         adjustTemplateForContent env id ;;
         canvas <- rasterize env id ;;
         write (Some templateElement) "style"
           (with_self (setStyle "display" (CssText "none"))) ;;
         let pdf := assembleA4 canvas in
         let fileName := sanitizeName (fd_name fd) +:+ "_Resume.pdf" in
         modify (add_download fileName pdf) ;;
         showMessage ("Resume generated successfully! Downloaded as " +:+ fileName)
           "success" ;;
         announceToScreenReader "Resume PDF generated and downloaded successfully" ;;
         saveSuccessfulGeneration fd
     end) s = (Ok tt, sb).
Proof.
  intros Hc He Hr. set (T := "pdf-" +:+ fd_template fd) in *.
  unfold getElementById. erewrite bind_ok by reflexivity. simpl. rewrite He.
  erewrite bind_ok by (apply write_run; exact He).
  unfold waitForResources. erewrite bind_ok by reflexivity.
  erewrite bind_ok by (apply adjustTemplateForContent_run; simpl; apply lookup_insert_eq).
  match goal with |- context [bind (rasterize env T) _ ?st] =>
    set (s8 := st);
    destruct (Hr (document s8)
                {| opt_scale := Num.dec 15 10;
                   opt_height := scrollHeight env (document s8) T;
                   opt_width := offsetWidth env (document s8) T |}) as [c Hcanvas];
    assert (Hras : rasterize env T s8 = (Ok c, s8)) by (unfold rasterize; by rewrite Hcanvas)
  end.
  erewrite bind_ok by exact Hras.
  erewrite bind_ok by (apply write_run; simpl; apply lookup_insert_eq).
  cbv zeta. erewrite bind_ok by reflexivity.
  match goal with |- context [bind (showMessage ?m ?t) _ ?st] =>
    assert (Hc11 : chromeReady st);
    [|destruct (showMessage_run m t st Hc11) as (em & Hem & Hshow)]
  end.
  { destruct Hc as (H1 & H2 & H3 & H4 & H5 & H6). unfold chromeReady. simpl.
    rewrite !lookup_insert_ne by done. done. }
  erewrite bind_ok by exact Hshow.
  match goal with |- context [bind (announceToScreenReader ?m) _ ?st] =>
    destruct (announce_ok m st) as (sa & Hann & _) end.
  erewrite bind_ok by exact Hann.
  by eexists.
Qed.

Lemma generateBody_ok env fd s :
  chromeReady s ->
  present (templateIds (fd_template fd)) s ->
  is_Some (document s !! ("pdf-" +:+ fd_template fd)) ->
  (forall d o, exists c, html2canvas env d ("pdf-" +:+ fd_template fd) o = Ok c) ->
  exists sb, generateBody env fd s = (Ok tt, sb).
Proof.
  intros Hc Hp Ht Hr.
  destruct (body_prefix env fd s Hc) as (s' & Hsame & ->).
  destruct (populateTemplate_ok fd s') as (s4 & Hpop).
  { by eapply present_same_page. }
  erewrite bind_ok by exact Hpop.
  assert (Hsame4 : same_page s s4).
  { eapply same_page_trans; [exact Hsame|].
    eapply step_same_page; [apply keeps_populateTemplate|exact Hpop]. }
  pose proof Hsame4 as (He & Hf & Hd).
  destruct (proj2 (Hd _) Ht) as [e4 He4].
  apply (render_ok env fd s4 e4); [|exact He4|exact Hr].
  by eapply chromeReady_same_page.
Qed.

Lemma noticeShown_ext s s' m t :
  document s' !! "message-container" = document s !! "message-container" ->
  noticeShown s m t -> noticeShown s' m t.
Proof. intros H. unfold noticeShown. by rewrite H. Qed.

Lemma generateBody_ok_notice env fd s sb :
  chromeReady s ->
  generateBody env fd s = (Ok tt, sb) ->
  noticeShown sb ("Resume generated successfully! Downloaded as " +:+ fileNameOf fd) "success".
Proof.
  intros Hc Hbody. unfold generateBody in Hbody. set (T := "pdf-" +:+ fd_template fd) in *.
  assert (K2 : same_page s (set_isGenerating true s)) by apply keeps_set_isGenerating.
  apply bind_inv_ok in Hbody as ([] & s2 & H2 & Hbody).
  inversion H2; subst s2. clear H2.
  apply bind_inv_ok in Hbody as ([] & s3 & H3 & Hbody). track H3 K3 D3.
  apply bind_inv_ok in Hbody as ([] & s4 & H4 & Hbody). track H4 K4 D4.
  apply bind_inv_ok in Hbody as (t & s5 & H5 & Hbody).
  assert (s5 = s4) as -> by (by inversion H5).
  destruct t as [id|]; [|discriminate].
  assert (id = T) as ->.
  { unfold getElementById in H5. erewrite bind_ok in H5 by reflexivity.
    simpl in H5. destruct (document s4 !! T); by inversion H5. }
  apply bind_inv_ok in Hbody as ([] & s6 & H6 & Hbody). track H6 K6 D6.
  apply bind_inv_ok in Hbody as ([] & s7 & H7 & Hbody).
  inversion H7; subst s7. clear H7.
  apply bind_inv_ok in Hbody as ([] & s8 & H8 & Hbody). track H8 K8 D8.
  apply bind_inv_ok in Hbody as (c & s9 & H9 & Hbody). track H9 K9 D9.
  apply bind_inv_ok in Hbody as ([] & s10 & H10 & Hbody). track H10 K10 D10.
  apply bind_inv_ok in Hbody as ([] & s11 & H11 & Hbody).
  inversion H11; subst s11. clear H11.
  set (s11 := add_download _ _ s10) in Hbody.
  assert (Hc11 : chromeReady s11).
  { eapply chromeReady_same_page; [|exact Hc].
    apply (same_page_trans _ s10); [chain_page|apply keeps_add_download]. }
  apply bind_inv_ok in Hbody as ([] & s12 & H12 & Hbody).
  match type of H12 with showMessage ?m ?t _ = _ =>
    destruct (showMessage_run m t s11 Hc11) as (em & Hem & Hshow) end.
  rewrite Hshow in H12. inversion H12; subst s12. clear H12.
  apply bind_inv_ok in Hbody as ([] & s13 & H13 & Hbody).
  inversion Hbody; subst sb. clear Hbody.
  apply (noticeShown_ext (set_document (<["message-container" :=
           with_self (notice ("Resume generated successfully! Downloaded as " +:+ fileNameOf fd)
                        "success") em]> (document s11)) s11)).
  - simpl. apply (frame_of ["live-region"] _ _ _ _ (touches_announce _ _ _ ltac:(apply list_elem_of_here)) H13).
    intros H. apply list_elem_of_singleton in H. discriminate H.
  - by apply noticeShown_after.
Qed.





Lemma touches_rasterize P W env id : touches_only P W (rasterize env id).
Proof. by intros s x _ _. Qed.
#[export] Hint Resolve touches_rasterize : touch.

Lemma keeps_generateCatch e : keeps_page (generateCatch e).
Proof. unfold generateCatch. keeps. Qed.
Lemma keeps_generateFinally : keeps_page generateFinally.
Proof. unfold generateFinally. keeps. Qed.
#[export] Hint Resolve keeps_generateBody keeps_generateCatch keeps_generateFinally : keeps.

Lemma touches_generateBody W env fd :
  (forall id, id ∈ templateIds (fd_template fd) ++ ["classic-header"] -> id ∈ W) ->
  "pdf-" +:+ fd_template fd ∈ W -> "message-container" ∈ W ->
  "loading-indicator" ∈ W -> "resumeForm" ∈ W -> "live-region" ∈ W ->
  touches_only tidy W (generateBody env fd).
Proof.
  intros HP HT HM HL HF HR. unfold generateBody.
  apply touches_bind; [eauto with touch|keeps|by apply touches_modify|intros _].
  apply touches_bind; [eauto with touch|keeps|by apply touches_showLoading|intros _].
  apply touches_bind; [eauto with touch|keeps| |intros _].
  { eapply touches_mono; [exact HP|apply touches_populateTemplate]. }
  apply touches_getElementById. intros r Hr.
  destruct r as [id|]; [|apply touches_throw].
  assert (id = "pdf-" +:+ fd_template fd) as -> by (by apply Hr).
  apply touches_bind; [eauto with touch|keeps| |intros _].
  { apply touches_write. by intros ? [= <-]. }
  apply touches_bind; [eauto with touch|unfold waitForResources; keeps
                      |apply touches_ret|intros _].
  apply touches_bind; [eauto with touch|keeps| |intros _].
  { unfold adjustTemplateForContent.
    apply touches_bind; [eauto with touch|keeps|apply touches_get|intros ?].
    apply touches_write. by intros ? [= <-]. }
  apply touches_bind; [eauto with touch|keeps|apply touches_rasterize|intros c].
  apply touches_bind; [eauto with touch|keeps| |intros _].
  { apply touches_write. by intros ? [= <-]. }
  cbv zeta.
  apply touches_bind; [eauto with touch|keeps|by apply touches_modify|intros _].
  apply touches_bind; [eauto with touch|keeps|by apply touches_showMessage|intros _].
  apply touches_bind; [eauto with touch|keeps|by apply touches_announce|intros _].
  by apply touches_modify.
Qed.

Lemma touches_generatePDF W env fd :
  (forall id, id ∈ templateIds (fd_template fd) ++ ["classic-header"] -> id ∈ W) ->
  "pdf-" +:+ fd_template fd ∈ W -> "message-container" ∈ W ->
  "loading-indicator" ∈ W -> "resumeForm" ∈ W -> "live-region" ∈ W ->
  touches_only tidy W (generatePDF env fd).
Proof.
  intros HP HT HM HL HF HR. unfold generatePDF.
  apply touches_try_finally; [eauto with touch|keeps| |].
  - apply touches_try_catch; [eauto with touch|keeps|by apply touches_generateBody|intros e].
    unfold generateCatch.
    apply touches_bind; [eauto with touch|keeps|by apply touches_showMessage|intros _].
    apply touches_throw.
  - unfold generateFinally.
    apply touches_bind; [eauto with touch|keeps|by apply touches_modify|intros _].
    by apply touches_hideLoading.
Qed.

Lemma field_not_template_part f t :
  f ∈ fieldNames -> f ∉ templateIds t ++ cycleIds t.
Proof.
  intros Hf Hin. apply list_elem_of_In in Hf. simpl in Hf.
  unfold templateIds, cycleIds in Hin. rewrite !fmap_cons, fmap_nil in Hin. simpl in Hin.
  repeat (destruct Hf as [<-|Hf];
          [revert Hin; other_part|]).
  done.
Qed.

(** X11. A generation cycle never changes what the user typed: after
    [cacheElements], [generatePDF] changes no element of the page but the
    parts of the selected template, the template itself, the classic
    header, the message container, the loading indicator, the form element
    and the live region; in particular every form field is left as it was.
    The cache is unchanged. *)
Theorem generatePDF_keeps_the_form (env : Env) (fd : FormData) (s : App) :
  initialised s ->
  (forall id, id ∉ templateIds (fd_template fd) ++ cycleIds (fd_template fd) ->
     document (snd (generatePDF env fd s)) !! id = document s !! id) /\
  (forall f, f ∈ fieldNames ->
     document (snd (generatePDF env fd s)) !! f = document s !! f) /\
  elements (snd (generatePDF env fd s)) = elements s /\
  fields (snd (generatePDF env fd s)) = fields s.
Proof.
  intros Hi.
  assert (Hfoot : forall id,
            id ∉ templateIds (fd_template fd) ++ cycleIds (fd_template fd) ->
            document (snd (generatePDF env fd s)) !! id = document s !! id).
  { intros id Hid.
    apply (touches_generatePDF (templateIds (fd_template fd) ++ cycleIds (fd_template fd)));
      try (by apply initialised_tidy); try done.
    - intros x Hx. apply elem_of_app in Hx as [Hx|Hx]; apply elem_of_app; [by left|right].
      apply list_elem_of_singleton in Hx as ->. apply list_elem_of_here.
    - apply elem_of_app. right. apply list_elem_of_further, list_elem_of_here.
    - apply elem_of_app. right. do 2 apply list_elem_of_further. apply list_elem_of_here.
    - apply elem_of_app. right. do 3 apply list_elem_of_further. apply list_elem_of_here.
    - apply elem_of_app. right. do 4 apply list_elem_of_further. apply list_elem_of_here.
    - apply elem_of_app. right. do 5 apply list_elem_of_further. apply list_elem_of_here. }
  split; [exact Hfoot|]. split.
  - intros f Hf. apply Hfoot. by apply field_not_template_part.
  - pose proof (keeps_try_finally _ _
      (keeps_try_catch _ _ (keeps_generateBody env fd) keeps_generateCatch)
      keeps_generateFinally s) as (He & Hf & _).
    by split.
Qed.

Lemma generatePDF_keeps_the_form_witness :
  (forall id, id ∉ templateIds "modern" ++ cycleIds "modern" ->
     document (snd (generatePDF Sample.tall Sample.ada Sample.ready)) !! id
     = document Sample.ready !! id) /\
  (forall f, f ∈ fieldNames ->
     document (snd (generatePDF Sample.tall Sample.ada Sample.ready)) !! f
     = document Sample.ready !! f) /\
  elements (snd (generatePDF Sample.tall Sample.ada Sample.ready)) = elements Sample.ready /\
  fields (snd (generatePDF Sample.tall Sample.ada Sample.ready)) = fields Sample.ready.
Proof.
  apply (generatePDF_keeps_the_form Sample.tall Sample.ada Sample.ready).
  apply cacheElements_initialised.
Defined.

(** X12. [generatePDF] leaves [isGenerating] false on every page and for
    every outcome, also when the page lacks the elements that the cleanup
    itself writes to. *)
Theorem busy_flag_always_reset (env : Env) (fd : FormData) (s : App) :
  isGenerating (snd (generatePDF env fd s)) = false.
Proof.
  unfold generatePDF, try_finally.
  destruct (try_catch (generateBody env fd) generateCatch s) as [r sc].
  unfold generateFinally. unfold bind at 1. simpl.
  pose proof (dom_hideLoading (set_isGenerating false sc)) as (Hg & _).
  destruct (hideLoading (set_isGenerating false sc)) as [[[]|e] s1]; simpl in *; exact Hg.
Qed.

(** ** [collectFormData] *)

Lemma ro_ret {A} (a : A) : reads_only (ret a).
Proof. by intros s. Qed.
Lemma ro_throw {A} e : reads_only (@throw A e).
Proof. by intros s. Qed.
Lemma ro_get : reads_only get.
Proof. by intros s. Qed.
Lemma ro_bind {A B} (m : M A) (k : A -> M B) :
  reads_only m -> (forall a, reads_only (k a)) -> reads_only (bind m k).
Proof.
  intros Hm Hk s. unfold bind. specialize (Hm s).
  destruct (m s) as [[a|e] s1]; simpl in *; subst; [apply Hk|done].
Qed.
Lemma ro_try_catch {A} (m : M A) (h : JSError -> M A) :
  reads_only m -> (forall e, reads_only (h e)) -> reads_only (try_catch m h).
Proof.
  intros Hm Hh s. unfold try_catch. specialize (Hm s).
  destruct (m s) as [[a|e] s1]; simpl in *; subst; [done|apply Hh].
Qed.
Lemma ro_cached key : reads_only (cached key).
Proof. by intros s. Qed.
Lemma ro_getElementById id : reads_only (getElementById id).
Proof. by intros s. Qed.
Lemma ro_fieldRef f : reads_only (fieldRef f).
Proof. intros s. unfold fieldRef, bind, get. simpl. by destruct (fields s). Qed.
Lemma ro_read {A} r what (f : Element -> A) : reads_only (read r what f).
Proof.
  intros s. unfold read, bind, get. simpl.
  destruct r as [[id|]|]; try done. by destruct (document s !! id).
Qed.

Create HintDb ro discriminated.
#[export] Hint Resolve ro_ret ro_throw ro_get ro_cached ro_getElementById ro_fieldRef
  ro_read : ro.

Ltac ro :=
  repeat first
    [ progress eauto with ro
    | apply ro_bind; [|intros ?]
    | apply ro_try_catch; [|intros ?]
    | match goal with
      | |- reads_only (match ?x with _ => _ end) => destruct x
      | |- reads_only (if ?x then _ else _) => destruct x
      end ].

Lemma ro_collectFormData : reads_only collectFormData.
Proof. unfold collectFormData, trimmedField, fieldValue, checkbox. ro. Qed.

Lemma ro_isFieldRequired f : reads_only (isFieldRequired f).
Proof. unfold isFieldRequired, checkbox. ro. Qed.

Lemma collectFormData_returns s : exists r, collectFormData s = (Ok r, s).
Proof.
  pose proof (ro_collectFormData s) as Hs.
  unfold collectFormData, try_catch in *.
  match goal with |- context [match ?inner s with _ => _ end] =>
    destruct (inner s) as [[r|e] s1] end; simpl in *; subst; by eauto.
Qed.

Lemma trimmedField_run f s :
  initialised s -> f ∈ fieldNames -> is_Some (document s !! f) ->
  trimmedField f s = (Ok (fieldText s f), s).
Proof.
  intros Hi Hin [e He]. unfold trimmedField, fieldText, valueOf. rewrite He.
  erewrite bind_ok by (by eapply fieldRef_on_page).
  erewrite bind_ok by (by apply fieldValue_run). done.
Qed.

Lemma trimmedField_missing f s :
  initialised s -> f ∈ fieldNames -> document s !! f = None ->
  exists e, trimmedField f s = (Throw e, s).
Proof.
  intros Hi Hin Hn. unfold trimmedField.
  rewrite (bind_ok _ _ _ _ _ (fieldRef_field f s Hi Hin)), Hn. by eexists.
Qed.

Lemma cached_initialised key id s :
  initialised s -> idOf key = Some id ->
  elements s !! key = Some (match document s !! id with Some _ => Some id | None => None end).
Proof.
  intros (He & _) Hid. rewrite He. unfold idOf in Hid.
  apply elem_of_list_to_map_2 in Hid.
  apply elem_of_list_to_map_1.
  - rewrite refsOf_keys. apply NoDup_ListNoDup. vm_compute.
    repeat constructor; simpl; intuition discriminate.
  - unfold refsOf. apply list_elem_of_fmap. by exists (key, id).
Qed.

Lemma trimmedField_present f s v s' :
  initialised s -> f ∈ fieldNames -> trimmedField f s = (Ok v, s') ->
  is_Some (document s !! f).
Proof.
  intros Hi Hin Hrun. destruct (document s !! f) as [e|] eqn:He; [by eexists|].
  destruct (trimmedField_missing f s Hi Hin He) as [err Hm]. congruence.
Qed.

Ltac field_name := apply list_elem_of_In; simpl; tauto.

Lemma collectFormData_run s :
  initialised s ->
  present (fieldNames ++ ["include-photo"]) s ->
  (checkedOf s "include-photo" = true -> is_Some (document s !! "photo-preview")) ->
  collectFormData s = (Ok (Some (formDataOf s)), s).
Proof.
  intros Hi Hp Hprev.
  assert (Hf : forall f, f ∈ fieldNames -> is_Some (document s !! f)).
  { intros f Hf. apply Hp, elem_of_app. by left. }
  destruct (Hp "include-photo") as [box Hbox].
  { apply elem_of_app. right. apply list_elem_of_here. }
  unfold collectFormData, try_catch.
  do 14 (erewrite bind_ok by (apply trimmedField_run; [done|field_name|apply Hf; field_name])).
  erewrite bind_ok by reflexivity.
  assert (Hcheck : checkbox "includePhoto" s = (Ok (checkedOf s "include-photo"), s)).
  { unfold checkbox. rewrite (bind_ok _ _ _ _ _ (cached_run _ s)).
    rewrite (cached_initialised "includePhoto" "include-photo") by done.
    rewrite Hbox. unfold checkedOf. rewrite Hbox.
    by apply (read_run _ _ (fun e => checked (self e))). }
  erewrite bind_ok by exact Hcheck.
  unfold formDataOf. destruct (checkedOf s "include-photo") eqn:Hchecked.
  + destruct (Hprev eq_refl) as [pv Hpv]. cbv iota.
    assert (Hphoto :
      (preview <- cached "photoPreview" ;;
       src <- read preview "src" (fun e => getProp "src" (self e)) ;;
       ret (Some src)) s = (Ok (Some (valueOf s "photo-preview" "src")), s)).
    { rewrite (bind_ok _ _ _ _ _ (cached_run _ s)).
      rewrite (cached_initialised "photoPreview" "photo-preview") by done.
      rewrite Hpv.
      erewrite bind_ok
        by (apply (read_run _ _ (fun e => getProp "src" (self e))); exact Hpv).
      unfold valueOf. by rewrite Hpv. }
    erewrite bind_ok by exact Hphoto. reflexivity.
  + cbv iota. erewrite bind_ok by reflexivity. reflexivity.
Qed.

(** X13. [collectFormData] only reads: it never throws and leaves the
    state as it was.  After [cacheElements], on a page that has the
    fourteen fields and the photo checkbox (and the preview image when the
    box is checked) it returns the trimmed values of the fields, the
    current template, and the photo only when the box is checked; when a
    field is missing from the page it returns [null]. *)
Theorem collectFormData_reads_the_form (s : App) :
  initialised s ->
  (exists r, collectFormData s = (Ok r, s)) /\
  (present (fieldNames ++ ["include-photo"]) s ->
   (checkedOf s "include-photo" = true -> is_Some (document s !! "photo-preview")) ->
   collectFormData s = (Ok (Some (formDataOf s)), s)) /\
  (forall f, f ∈ fieldNames -> document s !! f = None ->
     collectFormData s = (Ok None, s)).
Proof.
  intros Hi. split; [apply collectFormData_returns|]. split.
  - intros Hp Hprev. by apply collectFormData_run.
  - intros f Hin Hn.
    destruct (collectFormData_returns s) as [[fd|] Hrun]; [exfalso|exact Hrun].
    unfold collectFormData, try_catch in Hrun.
    match type of Hrun with context [match ?inner s with _ => _ end] =>
      destruct (inner s) as [[r|e] s1] eqn:Hinner end; [|discriminate].
    assert (Hall : forall g, g ∈ fieldNames -> is_Some (document s !! g)).
    { clear Hrun Hin Hn f.
      apply bind_inv_ok in Hinner as (? & s2 & H1 & Hinner).
      pose proof (trimmedField_state _ _ _ _ H1) as ->.
      apply bind_inv_ok in Hinner as (? & s2 & H2 & Hinner).
      pose proof (trimmedField_state _ _ _ _ H2) as ->.
      apply bind_inv_ok in Hinner as (? & s2 & H3 & Hinner).
      pose proof (trimmedField_state _ _ _ _ H3) as ->.
      apply bind_inv_ok in Hinner as (? & s2 & H4 & Hinner).
      pose proof (trimmedField_state _ _ _ _ H4) as ->.
      apply bind_inv_ok in Hinner as (? & s2 & H5 & Hinner).
      pose proof (trimmedField_state _ _ _ _ H5) as ->.
      apply bind_inv_ok in Hinner as (? & s2 & H6 & Hinner).
      pose proof (trimmedField_state _ _ _ _ H6) as ->.
      apply bind_inv_ok in Hinner as (? & s2 & H7 & Hinner).
      pose proof (trimmedField_state _ _ _ _ H7) as ->.
      apply bind_inv_ok in Hinner as (? & s2 & H8 & Hinner).
      pose proof (trimmedField_state _ _ _ _ H8) as ->.
      apply bind_inv_ok in Hinner as (? & s2 & H9 & Hinner).
      pose proof (trimmedField_state _ _ _ _ H9) as ->.
      apply bind_inv_ok in Hinner as (? & s2 & H10 & Hinner).
      pose proof (trimmedField_state _ _ _ _ H10) as ->.
      apply bind_inv_ok in Hinner as (? & s2 & H11 & Hinner).
      pose proof (trimmedField_state _ _ _ _ H11) as ->.
      apply bind_inv_ok in Hinner as (? & s2 & H12 & Hinner).
      pose proof (trimmedField_state _ _ _ _ H12) as ->.
      apply bind_inv_ok in Hinner as (? & s2 & H13 & Hinner).
      pose proof (trimmedField_state _ _ _ _ H13) as ->.
      apply bind_inv_ok in Hinner as (? & s2 & H14 & Hinner).
      pose proof (trimmedField_state _ _ _ _ H14) as ->.
      intros g Hg. apply list_elem_of_In in Hg. simpl in Hg.
      repeat (destruct Hg as [<-|Hg];
              [eapply (trimmedField_present _ s); [done|field_name|eassumption]|]).
      done. }
    destruct (Hall f Hin) as [e He]. congruence.
Qed.

Lemma collectFormData_reads_the_form_witness :
  (exists r, collectFormData Sample.ready = (Ok r, Sample.ready)) /\
  (present (fieldNames ++ ["include-photo"]) Sample.ready ->
   (checkedOf Sample.ready "include-photo" = true ->
    is_Some (document Sample.ready !! "photo-preview")) ->
   collectFormData Sample.ready = (Ok (Some (formDataOf Sample.ready)), Sample.ready)) /\
  (forall f, f ∈ fieldNames -> document Sample.ready !! f = None ->
     collectFormData Sample.ready = (Ok None, Sample.ready)).
Proof.
  apply (collectFormData_reads_the_form Sample.ready).
  apply cacheElements_initialised.
Defined.

(** ** The name of the saved file *)

Lemma string_length_app (a b : string) :
  String.length (a +:+ b) = (String.length a + String.length b)%nat.
Proof. induction a as [|c a IH]; simpl; [done|]. by rewrite IH. Qed.

(** X14. The stem of the file name that [generatePDF] saves under: the
    name with every character that is not an ASCII letter or digit turned
    into an underscore.  It consists of letters, digits and underscores, has
    the length of the name, is unchanged for a name that was already clean,
    and sanitizing twice changes nothing more. *)
Theorem sanitizeName_safe (name : string) :
  allChars safeChar (sanitizeName name) = true /\
  String.length (sanitizeName name) = String.length name /\
  sanitizeName (sanitizeName name) = sanitizeName name /\
  (allChars (fun c => isLetter c || isDigit c) name = true -> sanitizeName name = name).
Proof.
  split; [|split; [|split]].
  - induction name as [|c r IH]; [done|].
    change (sanitizeName (String c r))
      with ((if isLetter c || isDigit c then String c "" else "_") +:+ sanitizeName r).
    rewrite allChars_app, IH, andb_true_r.
    destruct (isLetter c || isDigit c) eqn:E; simpl; [|done].
    unfold safeChar. by rewrite E.
  - induction name as [|c r IH]; [done|].
    change (sanitizeName (String c r))
      with ((if isLetter c || isDigit c then String c "" else "_") +:+ sanitizeName r).
    rewrite string_length_app, IH. by destruct (isLetter c || isDigit c).
  - induction name as [|c r IH]; [done|].
    change (sanitizeName (String c r))
      with ((if isLetter c || isDigit c then String c "" else "_") +:+ sanitizeName r).
    destruct (isLetter c || isDigit c) eqn:E.
    + change (String c "" +:+ sanitizeName r) with (String c (sanitizeName r)).
      change (sanitizeName (String c (sanitizeName r)))
        with ((if isLetter c || isDigit c then String c "" else "_")
                +:+ sanitizeName (sanitizeName r)).
      by rewrite E, IH.
    + change ("_" +:+ sanitizeName r) with (String "_" (sanitizeName r)).
      change (sanitizeName (String "_" (sanitizeName r)))
        with ("_" +:+ sanitizeName (sanitizeName r)).
      by rewrite IH.
  - induction name as [|c r IH]; [done|]. simpl. intros H.
    apply andb_true_iff in H as [Hc Hr].
    change (sanitizeName (String c r))
      with ((if isLetter c || isDigit c then String c "" else "_") +:+ sanitizeName r).
    by rewrite Hc, IH.
Qed.

(** ** Photo upload *)

(** X15. [validatePhotoFile] accepts a file exactly when it is at most
    5 MB (5242880 bytes, the bound included) and of one of the four image
    types; the size is checked first, so a file that is both too large and of
    another type gets the size message. *)
Theorem validatePhotoFile_accepts (file : File) :
  (validatePhotoFile file = PhotoValid <->
   (file_size file <= 5242880)%N /\ file_type file ∈ ALLOWED_IMAGE_TYPES) /\
  ((5242880 < file_size file)%N ->
   validatePhotoFile file = PhotoInvalid "File size must be less than 5MB") /\
  ((file_size file <= 5242880)%N -> file_type file ∉ ALLOWED_IMAGE_TYPES ->
   validatePhotoFile file
   = PhotoInvalid "Please upload a valid image file (JPG, PNG, or WebP)").
Proof.
  unfold validatePhotoFile. change MAX_FILE_SIZE with 5242880%N.
  destruct (5242880 <? file_size file)%N eqn:Hs.
  - apply N.ltb_lt in Hs. split; [|split].
    + split; [discriminate|]. intros [Hle _]. lia.
    + intros _. reflexivity.
    + intros Hle. lia.
  - apply N.ltb_ge in Hs. destruct (decide (file_type file ∈ ALLOWED_IMAGE_TYPES)) as [Hin|Hin].
    + rewrite bool_decide_eq_true_2 by done. simpl. split; [|split]; [done|lia|done].
    + rewrite bool_decide_eq_false_2 by done. simpl. split; [|split].
      * split; [discriminate|]. by intros [_ H].
      * lia.
      * done.
Qed.

Lemma validatePhotoFile_accepts_witness :
  validatePhotoFile Studio.scan = PhotoInvalid "File size must be less than 5MB".
Proof.
  apply (validatePhotoFile_accepts Studio.scan). vm_compute. reflexivity.
Defined.

Lemma photoInput_cached s e :
  initialised s -> document s !! "photo" = Some e ->
  elements s !! "photoInput" = Some (Some "photo").
Proof.
  intros Hi He. rewrite (cached_initialised "photoInput" "photo") by done. by rewrite He.
Qed.

Lemma photoPreview_cached s e :
  initialised s -> document s !! "photo-preview" = Some e ->
  elements s !! "photoPreview" = Some (Some "photo-preview").
Proof.
  intros Hi He. rewrite (cached_initialised "photoPreview" "photo-preview") by done.
  by rewrite He.
Qed.

Lemma clearPhotoError_run s e fg :
  initialised s -> document s !! "photo" = Some e -> formGroup e = Some fg ->
  clearPhotoError s =
    (Ok tt, set_document
       (<["photo" := with_formGroup (fun fg =>
            {| group := classRemove "error" (group fg);
               errorElement := classRemove "show" <$> errorElement fg |}) e]> (document s)) s).
Proof.
  intros Hi He Hfg. unfold clearPhotoError.
  rewrite (bind_ok _ _ _ _ _ (cached_run _ s)), (photoInput_cached s e Hi He).
  erewrite bind_ok by (by eapply closestFormGroup_run).
  by apply write_run.
Qed.

Lemma showPhotoError_run m s e fg :
  initialised s -> document s !! "photo" = Some e -> formGroup e = Some fg ->
  showPhotoError m s =
    announceToScreenReader ("Photo upload error: " +:+ m)
      (set_document
         (<["photo" := with_formGroup (fun fg =>
              {| group := classAdd "error" (group fg);
                 errorElement := (fun e => classAdd "show" (setProp "textContent" m e))
                                   <$> errorElement fg |}) e]> (document s)) s).
Proof.
  intros Hi He Hfg. unfold showPhotoError.
  rewrite (bind_ok _ _ _ _ _ (cached_run _ s)), (photoInput_cached s e Hi He).
  erewrite bind_ok by (by eapply closestFormGroup_run).
  erewrite bind_ok by (by apply write_run). done.
Qed.

Lemma setPreview_run src s e :
  initialised s -> document s !! "photo-preview" = Some e ->
  setPreview src s =
    (Ok tt, set_document
       (<["photo-preview" := with_self (setProp "src" src) e]> (document s)) s).
Proof.
  intros Hi He. unfold setPreview.
  rewrite (bind_ok _ _ _ _ _ (cached_run _ s)), (photoPreview_cached s e Hi He).
  by apply write_run.
Qed.

(** The live region is not one of the photo controls. *)
Lemma announce_elsewhere m s :
  exists s', announceToScreenReader m s = (Ok tt, s') /\ only_dom s s' /\ same_page s s' /\
    forall id, id <> "live-region" -> document s' !! id = document s !! id.
Proof.
  destruct (announce_ok m s) as (s' & Hrun & _). exists s'. split; [exact Hrun|].
  split; [|split].
  - eapply step_dom; [apply dom_announce|exact Hrun].
  - eapply step_same_page; [apply keeps_announce|exact Hrun].
  - intros id Hid.
    apply (frame_of ["live-region"] _ _ _ _
             (touches_announce _ _ _ ltac:(apply list_elem_of_here)) Hrun).
    intros H. by apply list_elem_of_singleton in H.
Qed.

Lemma showPhotoError_shown m s :
  initialised s -> fieldInGroup s "photo" ->
  exists s', showPhotoError m s = (Ok tt, s') /\ photoErrorShown s' m /\
    only_dom s s' /\ same_page s s' /\
    (forall id, id <> "photo" -> id <> "live-region" ->
       document s' !! id = document s !! id) /\
    valueOf s' "photo" "value" = valueOf s "photo" "value".
Proof.
  intros Hi (e & fg & He & Hfg). rewrite (showPhotoError_run m s e fg Hi He Hfg).
  match goal with |- context [announceToScreenReader ?msg ?st] =>
    destruct (announce_elsewhere msg st) as (s' & Hrun & Hd & Hk & Hfr) end.
  exists s'. split; [exact Hrun|].
  assert (Hphoto : document s' !! "photo" =
            Some (with_formGroup (fun fg =>
              {| group := classAdd "error" (group fg);
                 errorElement := (fun e => classAdd "show" (setProp "textContent" m e))
                                   <$> errorElement fg |}) e)).
  { rewrite Hfr by done. simpl. apply lookup_insert_eq. }
  split; [|split; [|split; [|split]]].
  - do 2 eexists. split; [exact Hphoto|]. simpl. rewrite Hfg. simpl. split; [done|].
    simpl. split.
    + apply elem_of_union_r. by apply elem_of_singleton.
    + intros em Hem. destruct (errorElement fg); simpl in Hem; [|done].
      inversion Hem; subst. simpl. split; [apply lookup_insert_eq|].
      apply elem_of_union_r. by apply elem_of_singleton.
  - eapply only_dom_trans; [|exact Hd]. apply only_dom_set_document.
  - eapply same_page_trans; [|exact Hk].
    pose proof (keeps_write (Some (Some "photo")) "classList"
      (with_formGroup (fun fg =>
              {| group := classAdd "error" (group fg);
                 errorElement := (fun e => classAdd "show" (setProp "textContent" m e))
                                   <$> errorElement fg |})) s) as Hw.
    by rewrite (write_run _ _ _ _ _ He) in Hw.
  - intros id H1 H2. rewrite Hfr by done. simpl. by rewrite lookup_insert_ne.
  - unfold valueOf. by rewrite Hphoto, He.
Qed.

Lemma clearPhotoError_cleared s :
  initialised s -> fieldInGroup s "photo" ->
  exists s', clearPhotoError s = (Ok tt, s') /\ photoErrorCleared s' /\
    only_dom s s' /\ same_page s s' /\
    (forall id, id <> "photo" -> document s' !! id = document s !! id) /\
    valueOf s' "photo" "value" = valueOf s "photo" "value".
Proof.
  intros Hi (e & fg & He & Hfg). rewrite (clearPhotoError_run s e fg Hi He Hfg).
  eexists. split; [reflexivity|]. split; [|split; [|split; [|split]]].
  - do 2 eexists. split; [simpl; apply lookup_insert_eq|]. simpl. rewrite Hfg. simpl.
    split; [done|]. simpl. split.
    + rewrite elem_of_difference, elem_of_singleton. by intros [_ H].
    + intros em Hem. destruct (errorElement fg); simpl in Hem; [|done].
      inversion Hem; subst. simpl.
      rewrite elem_of_difference, elem_of_singleton. by intros [_ H].
  - apply only_dom_set_document.
  - pose proof (keeps_write (Some (Some "photo")) "classList"
      (with_formGroup (fun fg =>
            {| group := classRemove "error" (group fg);
               errorElement := classRemove "show" <$> errorElement fg |})) s) as Hw.
    by rewrite (write_run _ _ _ _ _ He) in Hw.
  - intros id Hid. simpl. by rewrite lookup_insert_ne.
  - unfold valueOf. simpl. by rewrite lookup_insert_eq, He.
Qed.

Lemma photoErrorCleared_ext s s' :
  document s' !! "photo" = document s !! "photo" -> photoErrorCleared s -> photoErrorCleared s'.
Proof. intros H. unfold photoErrorCleared. by rewrite H. Qed.

Lemma fieldInGroup_same s s' f :
  document s' !! f = document s !! f -> fieldInGroup s f -> fieldInGroup s' f.
Proof. intros H. unfold fieldInGroup. by rewrite H. Qed.

Lemma photo_group_kept s :
  photoErrorCleared s -> fieldInGroup s "photo".
Proof. intros (e & fg & He & Hfg & _). by exists e, fg. Qed.

(** X16. A file that [validatePhotoFile] rejects is not previewed: on a
    page with the photo controls, [handlePhotoUpload] returns normally,
    the form group of the input shows the message of the check, the input is
    emptied and the preview image is left as it was; the reader is not
    consulted. *)
Theorem rejected_photo_is_not_previewed (browser : Photos) (file : File)
    (message : string) (s : App) :
  photoReady s ->
  validatePhotoFile file = PhotoInvalid message ->
  exists s', handlePhotoUpload browser "photo" (Some file) s = (Ok tt, s') /\
    photoErrorShown s' message /\
    valueOf s' "photo" "value" = "" /\
    document s' !! "photo-preview" = document s !! "photo-preview" /\
    only_dom s s'.
Proof.
  intros (Hi & Hg & Hp) Hcheck.
  destruct (clearPhotoError_cleared s Hi Hg) as (s1 & Hclear & Hcl & Hd1 & Hk1 & Hfr1 & _).
  assert (Hi1 : initialised s1) by (by eapply initialised_same_page).
  destruct (showPhotoError_shown message s1 Hi1 (photo_group_kept s1 Hcl))
    as (s2 & Hshow & Hshown & Hd2 & Hk2 & Hfr2 & _).
  destruct Hshown as (e2 & fg2 & He2 & Hfg2 & Herr).
  exists (set_document (<["photo" := with_self (setProp "value" "") e2]> (document s2)) s2).
  split.
  - unfold handlePhotoUpload.
    match goal with |- bind ?m _ s = _ =>
      assert (Htry : m s = (Ok None,
                set_document (<["photo" := with_self (setProp "value" "") e2]> (document s2))
                  s2)) end.
    { unfold try_catch. erewrite bind_ok by exact Hclear. rewrite Hcheck.
      erewrite bind_ok by exact Hshow.
      erewrite bind_ok by (apply write_run; exact He2). reflexivity. }
    by rewrite (bind_ok _ _ _ _ _ Htry).
  - simpl. split; [|split; [|split]].
    + do 2 eexists. split; [simpl; apply lookup_insert_eq|]. simpl.
      split; [exact Hfg2|exact Herr].
    + unfold valueOf. simpl. rewrite lookup_insert_eq. simpl. unfold getProp. simpl.
      by rewrite lookup_insert_eq.
    + rewrite lookup_insert_ne by done. rewrite Hfr2 by done. by rewrite Hfr1.
    + eapply only_dom_trans; [exact Hd1|]. eapply only_dom_trans; [exact Hd2|].
      apply only_dom_set_document.
Qed.

Lemma studio_photoReady : photoReady Studio.opened.
Proof.
  split; [apply cacheElements_initialised|]. split.
  - do 2 eexists. split; [vm_compute; reflexivity|reflexivity].
  - intros id Hid. apply list_elem_of_In in Hid. simpl in Hid.
    repeat (destruct Hid as [<-|Hid]; [vm_compute; by eexists|]). done.
Qed.

Lemma rejected_photo_is_not_previewed_witness :
  exists s', handlePhotoUpload Studio.browser "photo" (Some Studio.scan) Studio.opened
             = (Ok tt, s') /\
    photoErrorShown s' "File size must be less than 5MB" /\
    valueOf s' "photo" "value" = "" /\
    document s' !! "photo-preview" = document Studio.opened !! "photo-preview" /\
    only_dom Studio.opened s'.
Proof.
  apply (rejected_photo_is_not_previewed Studio.browser Studio.scan).
  - exact studio_photoReady.
  - vm_compute. reflexivity.
Defined.

Lemma upload_previewed browser file url s :
  photoReady s ->
  validatePhotoFile file = PhotoValid -> readAsDataURL browser file = Some url ->
  exists s', handlePhotoUpload browser "photo" (Some file) s = (Ok tt, s') /\
    valueOf s' "photo-preview" "src" = url /\ photoErrorCleared s' /\
    valueOf s' "photo" "value" = valueOf s "photo" "value" /\
    only_dom s s' /\ same_page s s' /\
    (forall id, id <> "photo" -> id <> "photo-preview" -> id <> "live-region" ->
       document s' !! id = document s !! id).
Proof.
  intros (Hi & Hg & Hp) Hcheck Hread.
  destruct (clearPhotoError_cleared s Hi Hg) as (s1 & Hclear & Hcl & Hd1 & Hk1 & Hfr1 & Hv1).
  assert (Hi1 : initialised s1) by (by eapply initialised_same_page).
  destruct (Hp "photo-preview") as [pv Hpv]; [apply list_elem_of_here|].
  assert (Hpv1 : document s1 !! "photo-preview" = Some pv) by (by rewrite Hfr1).
  destruct (announce_elsewhere "Photo uploaded successfully"
              (set_document (<["photo-preview" := with_self (setProp "src" url) pv]>
                               (document s1)) s1))
    as (s3 & Hann & Hd3 & Hk3 & Hfr3).
  exists s3. split; [|split; [|split; [|split; [|split; [|split]]]]].
  - unfold handlePhotoUpload.
    match goal with |- bind ?m _ s = _ =>
      assert (Htry : m s = (Ok (Some file), s1)) end.
    { unfold try_catch. erewrite bind_ok by exact Hclear. by rewrite Hcheck. }
    rewrite (bind_ok _ _ _ _ _ Htry), Hread. unfold photoLoaded, try_catch.
    erewrite bind_ok by (by apply setPreview_run). by rewrite Hann.
  - unfold valueOf. rewrite Hfr3 by done. simpl. rewrite lookup_insert_eq. simpl.
    unfold getProp. simpl. by rewrite lookup_insert_eq.
  - eapply photoErrorCleared_ext; [|exact Hcl]. rewrite Hfr3 by done. simpl.
    by rewrite lookup_insert_ne.
  - rewrite <- Hv1. unfold valueOf. rewrite Hfr3 by done. simpl.
    by rewrite lookup_insert_ne.
  - eapply only_dom_trans; [exact Hd1|]. eapply only_dom_trans; [|exact Hd3].
    apply only_dom_set_document.
  - eapply same_page_trans; [exact Hk1|]. eapply same_page_trans; [|exact Hk3].
    pose proof (keeps_write (Some (Some "photo-preview")) "src"
                  (with_self (setProp "src" url)) s1) as Hw.
    by rewrite (write_run _ _ _ _ _ Hpv1) in Hw.
  - intros id H1 H2 H3. rewrite Hfr3 by done. simpl. rewrite lookup_insert_ne by done.
    by apply Hfr1.
Qed.

(** X17. A file that passes the check is previewed when the reader
    delivers: the preview image gets the data URL that was read, the error
    state of the form group is cleared, and the input keeps its value.  When
    the reader fails, the preview is left as it was and the form group shows
    'Failed to read photo file'.  When the dialog was closed without a file,
    the preview goes back to the default image.  In each case the handler
    returns normally. *)
Theorem accepted_photo_is_previewed (browser : Photos) (s : App) :
  photoReady s ->
  (forall file url,
     validatePhotoFile file = PhotoValid -> readAsDataURL browser file = Some url ->
     exists s', handlePhotoUpload browser "photo" (Some file) s = (Ok tt, s') /\
       valueOf s' "photo-preview" "src" = url /\ photoErrorCleared s' /\
       valueOf s' "photo" "value" = valueOf s "photo" "value") /\
  (forall file,
     validatePhotoFile file = PhotoValid -> readAsDataURL browser file = None ->
     exists s', handlePhotoUpload browser "photo" (Some file) s = (Ok tt, s') /\
       photoErrorShown s' "Failed to read photo file" /\
       document s' !! "photo-preview" = document s !! "photo-preview") /\
  (exists s', handlePhotoUpload browser "photo" None s = (Ok tt, s') /\
     valueOf s' "photo-preview" "src" = createDefaultPhotoDataURL browser /\
     photoErrorCleared s').
Proof.
  intros (Hi & Hg & Hp).
  destruct (clearPhotoError_cleared s Hi Hg) as (s1 & Hclear & Hcl & Hd1 & Hk1 & Hfr1 & Hv1).
  assert (Hi1 : initialised s1) by (by eapply initialised_same_page).
  destruct (Hp "photo-preview") as [pv Hpv]; [apply list_elem_of_here|].
  assert (Hpv1 : document s1 !! "photo-preview" = Some pv) by (by rewrite Hfr1).
  split; [|split].
  - intros file url Hcheck Hread.
    destruct (upload_previewed browser file url s) as (s3 & H1 & H2 & H3 & H4 & _);
      [exact (conj Hi (conj Hg Hp))|done|done|].
    by exists s3.
  - intros file Hcheck Hread.
    destruct (showPhotoError_shown "Failed to read photo file" s1 Hi1
                (photo_group_kept s1 Hcl))
      as (s2 & Hshow & Hshown & Hd2 & Hk2 & Hfr2 & _).
    exists s2. split; [|split; [exact Hshown|]].
    + unfold handlePhotoUpload.
      match goal with |- bind ?m _ s = _ =>
        assert (Htry : m s = (Ok (Some file), s1)) end.
      { unfold try_catch. erewrite bind_ok by exact Hclear. by rewrite Hcheck. }
      by rewrite (bind_ok _ _ _ _ _ Htry), Hread.
    + rewrite Hfr2 by done. by apply Hfr1.
  - exists (set_document
              (<["photo-preview" :=
                   with_self (setProp "src" (createDefaultPhotoDataURL browser)) pv]>
                 (document s1)) s1).
    split; [|split].
    + unfold handlePhotoUpload.
      match goal with |- bind ?m _ s = _ =>
        assert (Htry : m s = (Ok None, set_document
              (<["photo-preview" :=
                   with_self (setProp "src" (createDefaultPhotoDataURL browser)) pv]>
                 (document s1)) s1)) end.
      { unfold try_catch. erewrite bind_ok by exact Hclear.
        erewrite bind_ok by (by apply setPreview_run). reflexivity. }
      by rewrite (bind_ok _ _ _ _ _ Htry).
    + unfold valueOf. simpl. rewrite lookup_insert_eq. simpl.
      unfold getProp. simpl. by rewrite lookup_insert_eq.
    + eapply photoErrorCleared_ext; [|exact Hcl]. simpl. by rewrite lookup_insert_ne.
Qed.

Lemma accepted_photo_is_previewed_witness :
  exists s', handlePhotoUpload Studio.browser "photo" (Some Studio.portrait) Studio.opened
             = (Ok tt, s') /\
    valueOf s' "photo-preview" "src" = "data:image/png;base64,PHOTO" /\
    photoErrorCleared s' /\
    valueOf s' "photo" "value" = valueOf Studio.opened "photo" "value".
Proof.
  apply (proj1 (accepted_photo_is_previewed Studio.browser Studio.opened studio_photoReady)
           Studio.portrait); reflexivity.
Defined.

Lemma field_not_photo_control f :
  f ∈ fieldNames ->
  f <> "photo" /\ f <> "photo-preview" /\ f <> "photo-group" /\ f <> "include-photo" /\
  f <> "live-region".
Proof.
  intros H. apply list_elem_of_In in H. simpl in H.
  repeat (destruct H as [<-|H]; [by repeat split|]). done.
Qed.

Lemma same_page_update s id e e' :
  document s !! id = Some e -> same_page s (set_document (<[id := e']> (document s)) s).
Proof.
  intros He. pose proof (keeps_write (Some (Some id)) "" (fun _ => e') s) as Hw.
  by rewrite (write_run _ _ _ _ _ He) in Hw.
Qed.

Lemma initialised_update s id e e' :
  document s !! id = Some e -> initialised s ->
  initialised (set_document (<[id := e']> (document s)) s).
Proof. intros He. apply initialised_same_page. by eapply same_page_update. Qed.

Lemma checkbox_run key id s e :
  initialised s -> idOf key = Some id -> document s !! id = Some e ->
  checkbox key s = (Ok (checked (self e)), s).
Proof.
  intros Hi Hid He. unfold checkbox.
  rewrite (bind_ok _ _ _ _ _ (cached_run _ s)).
  rewrite (cached_initialised key id) by done. rewrite He.
  by apply (read_run _ _ (fun e => checked (self e))).
Qed.

Lemma togglePhotoSection_run (browser : Photos) (s : App) :
  photoReady s ->
  exists s', togglePhotoSection browser s = (Ok tt, s') /\
    displayOf s' "photo-group"
      = Some (CssText (if checkedOf s "include-photo" then "block" else "none")) /\
    (checkedOf s "include-photo" = false ->
       valueOf s' "photo-preview" "src" = createDefaultPhotoDataURL browser /\
       valueOf s' "photo" "value" = "") /\
    (checkedOf s "include-photo" = true ->
       document s' !! "photo-preview" = document s !! "photo-preview" /\
       document s' !! "photo" = document s !! "photo") /\
    checkedOf s' "include-photo" = checkedOf s "include-photo" /\
    (forall f, f ∈ fieldNames -> document s' !! f = document s !! f) /\
    only_dom s s'.
Proof.
  intros (Hi & (ph & fg & Hph & Hfg) & Hp).
  destruct (Hp "photo-preview") as [pv Hpv]; [apply list_elem_of_here|].
  destruct (Hp "include-photo") as [box Hbox];
    [apply list_elem_of_further, list_elem_of_here|].
  destruct (Hp "photo-group") as [grp Hgrp];
    [do 2 apply list_elem_of_further; apply list_elem_of_here|].
  unfold togglePhotoSection.
  erewrite bind_ok by (by apply (checkbox_run "includePhoto" "include-photo" s box)).
  rewrite (bind_ok _ _ _ _ _ (cached_run _ s)).
  rewrite (cached_initialised "photoGroup" "photo-group") by done. rewrite Hgrp.
  erewrite bind_ok by (apply write_run; exact Hgrp).
  unfold checkedOf at 1 2 3. rewrite Hbox.
  set (s1 := set_document _ s).
  assert (Hi1 : initialised s1) by (by eapply initialised_update).
  destruct (checked (self box)) eqn:Hchecked; simpl when.
  - erewrite bind_ok by reflexivity.
    destruct (announce_elsewhere "Photo section enabled" s1) as (s' & Hrun & Hd & Hk & Hfr).
    exists s'. split; [exact Hrun|]. split; [|split; [|split; [|split; [|split]]]].
    + unfold displayOf. rewrite Hfr by done. unfold s1. simpl.
      rewrite lookup_insert_eq. simpl. apply lookup_insert_eq.
    + discriminate.
    + intros _. rewrite !Hfr by done. unfold s1. simpl.
      by rewrite !lookup_insert_ne.
    + unfold checkedOf. rewrite Hfr by done. unfold s1. simpl.
      by rewrite lookup_insert_ne.
    + intros f Hf. destruct (field_not_photo_control f Hf) as (H1 & H2 & H3 & H4 & H5).
      rewrite Hfr by done. unfold s1. simpl. by rewrite lookup_insert_ne.
    + eapply only_dom_trans; [|exact Hd]. apply only_dom_set_document.
  - assert (Hpv1 : document s1 !! "photo-preview" = Some pv).
    { unfold s1. simpl. by rewrite lookup_insert_ne. }
    set (s2 := set_document
                 (<["photo-preview" :=
                      with_self (setProp "src" (createDefaultPhotoDataURL browser)) pv]>
                    (document s1)) s1).
    assert (Hi2 : initialised s2) by (by eapply initialised_update).
    assert (Hph2 : document s2 !! "photo" = Some ph).
    { unfold s2, s1. simpl. by rewrite !lookup_insert_ne. }
    erewrite bind_ok.
    2:{ erewrite bind_ok by (by apply setPreview_run). fold s2.
        rewrite (bind_ok _ _ _ _ _ (cached_run _ _)).
        rewrite (cached_initialised "photoInput" "photo") by done. rewrite Hph2.
        apply write_run. exact Hph2. }
    match goal with |- context [announceToScreenReader ?m ?st] =>
      destruct (announce_elsewhere m st) as (s' & Hrun & Hd & Hk & Hfr) end.
    exists s'. split; [exact Hrun|]. split; [|split; [|split; [|split; [|split]]]].
    + unfold displayOf. rewrite Hfr by done. unfold s1. simpl.
      rewrite !lookup_insert_ne by done. rewrite lookup_insert_eq. simpl.
      apply lookup_insert_eq.
    + intros _. unfold valueOf. rewrite !Hfr by done. simpl.
      rewrite lookup_insert_eq. rewrite lookup_insert_ne by done.
      rewrite lookup_insert_eq. simpl. unfold getProp. simpl.
      by rewrite !lookup_insert_eq.
    + discriminate.
    + unfold checkedOf. rewrite Hfr by done. unfold s1. simpl.
      by rewrite !lookup_insert_ne.
    + intros f Hf. destruct (field_not_photo_control f Hf) as (H1 & H2 & H3 & H4 & H5).
      rewrite Hfr by done. unfold s1. simpl. by rewrite !lookup_insert_ne.
    + eapply only_dom_trans; [|exact Hd].
      eapply only_dom_trans; [apply only_dom_set_document|].
      eapply only_dom_trans; apply only_dom_set_document.
Qed.

(** X19. A photo that was accepted and read is the photo of the next
    form data: on a page that has the fields and the photo controls, with
    the box checked, [collectFormData] after [handlePhotoUpload] returns the
    data URL that was read as [photo], and the other entries as they would
    have been without the upload. *)
Theorem uploaded_photo_is_collected (browser : Photos) (file : File) (url : string)
    (s : App) :
  photoReady s ->
  present fieldNames s ->
  checkedOf s "include-photo" = true ->
  validatePhotoFile file = PhotoValid -> readAsDataURL browser file = Some url ->
  exists s' fd,
    handlePhotoUpload browser "photo" (Some file) s = (Ok tt, s') /\
    collectFormData s' = (Ok (Some fd), s') /\
    fd_photo fd = Some url /\ fd_includePhoto fd = true /\
    fd_template fd = currentTemplate s /\
    fd_name fd = fieldText s "name" /\ fd_email fd = fieldText s "email" /\
    fd_phone fd = fieldText s "phone" /\ fd_address fd = fieldText s "address" /\
    fd_about fd = fieldText s "about" /\ fd_experience fd = fieldText s "experience" /\
    fd_education fd = fieldText s "education" /\ fd_skills fd = fieldText s "skills" /\
    fd_strengths fd = fieldText s "strengths" /\
    fd_achievements fd = fieldText s "achievements" /\
    fd_projects fd = fieldText s "projects" /\
    fd_certificates fd = fieldText s "certificates" /\
    fd_customTitle fd = fieldText s "custom-title" /\
    fd_customContent fd = fieldText s "custom-content".
Proof.
  intros Hr Hf Hchecked Hcheck Hread.
  destruct (upload_previewed browser file url s Hr Hcheck Hread)
    as (s' & Hrun & Hsrc & _ & _ & Hd & Hk & Hfr).
  destruct Hr as (Hi & Hg & Hp).
  assert (Hbox : document s' !! "include-photo" = document s !! "include-photo")
    by (by apply Hfr).
  assert (Hchecked' : checkedOf s' "include-photo" = true).
  { unfold checkedOf in *. by rewrite Hbox. }
  assert (Hfields : forall f, f ∈ fieldNames -> fieldText s' f = fieldText s f).
  { intros f Hin. destruct (field_not_photo_control f Hin) as (H1 & H2 & H3 & H4 & H5).
    unfold fieldText, valueOf. by rewrite Hfr. }
  exists s', (formDataOf s'). split; [exact Hrun|]. split.
  - apply collectFormData_run.
    + by eapply initialised_same_page.
    + eapply present_same_page; [exact Hk|]. intros id Hid.
      apply elem_of_app in Hid as [Hid|Hid]; [by apply Hf|].
      apply list_elem_of_singleton in Hid as ->. apply Hp.
      apply list_elem_of_further, list_elem_of_here.
    + intros _. destruct Hk as (_ & _ & Hdoc). apply Hdoc, Hp, list_elem_of_here.
  - unfold formDataOf. simpl. rewrite Hchecked', Hsrc.
    destruct Hd as (_ & Ht & _).
    repeat (split; [first [done | apply Hfields; field_name]|]).
    apply Hfields; field_name.
Qed.

Lemma studio_fields : present fieldNames Studio.opened.
Proof.
  intros id Hid. apply list_elem_of_In in Hid. simpl in Hid.
  repeat (destruct Hid as [<-|Hid]; [vm_compute; by eexists|]). done.
Qed.

Lemma uploaded_photo_is_collected_witness :
  exists s' fd,
    handlePhotoUpload Studio.browser "photo" (Some Studio.portrait) Studio.opened
      = (Ok tt, s') /\
    collectFormData s' = (Ok (Some fd), s') /\
    fd_photo fd = Some "data:image/png;base64,PHOTO" /\ fd_includePhoto fd = true.
Proof.
  destruct (uploaded_photo_is_collected Studio.browser Studio.portrait
              "data:image/png;base64,PHOTO" Studio.opened)
    as (s' & fd & H1 & H2 & H3 & H4 & _).
  - exact studio_photoReady.
  - exact studio_fields.
  - vm_compute. reflexivity.
  - vm_compute. reflexivity.
  - reflexivity.
  - by exists s', fd.
Defined.

Lemma populatePhoto_shows t fd url s s' :
  fd_includePhoto fd = true -> fd_photo fd = Some url -> truthy url = true ->
  populatePhoto t fd s = (Ok tt, s') ->
  propOf s' ("pdf-photo-" +:+ t) "src" = Some url /\
  propOf s' ("pdf-photo-" +:+ t) "alt" = Some (fd_name fd +:+ "'s profile photo") /\
  displayOf s' ("pdf-photo-" +:+ t) = Some (CssText "block").
Proof.
  intros Hinc Hphoto Hurl. unfold populatePhoto. rewrite Hinc, Hphoto. simpl. rewrite Hurl.
  intros H. apply byId_inv in H as (e & He & ->).
  unfold propOf, displayOf. simpl. rewrite !lookup_insert_eq. simpl.
  split; [|split].
  - rewrite lookup_insert_ne by done. apply lookup_insert_eq.
  - apply lookup_insert_eq.
  - apply lookup_insert_eq.
Qed.

Lemma populatePhoto_hides t fd s s' :
  fd_includePhoto fd && truthy (default "" (fd_photo fd)) = false ->
  is_Some (document s !! ("pdf-photo-" +:+ t)) ->
  populatePhoto t fd s = (Ok tt, s') ->
  displayOf s' ("pdf-photo-" +:+ t) = Some (CssText "none").
Proof.
  intros Hno [e He]. unfold populatePhoto. rewrite Hno.
  unfold getElementById at 1. erewrite bind_ok by reflexivity. simpl. rewrite He.
  erewrite bind_ok by (apply write_run; exact He).
  intros H.
  assert (Hh : document s' !! ("pdf-photo-" +:+ t)
               = Some (with_self (setStyle "display" (CssText "none")) e)).
  { revert H. destruct (bool_decide _); simpl.
    - unfold getElementById. erewrite bind_ok by reflexivity. simpl.
      rewrite lookup_insert_ne by done.
      destruct (document s !! "classic-header") as [h|] eqn:Hh.
      + destruct (negb _); simpl.
        * intros H. apply write_inv in H as (h' & Hh' & ->). simpl.
          rewrite lookup_insert_ne by done. apply lookup_insert_eq.
        * intros H. inversion H. simpl. apply lookup_insert_eq.
      + intros H. inversion H. simpl. apply lookup_insert_eq.
    - intros H. inversion H. simpl. apply lookup_insert_eq. }
  unfold displayOf. rewrite Hh. simpl. apply lookup_insert_eq.
Qed.

(** X20. The photo of the form data is the photo of the template: when
    [populateTemplate] returns and the data include a non-empty photo, the
    photo element of the template shows it, with the name in its alternative
    text; when the data include no photo, the photo element, if the template
    has one, is hidden. *)
Theorem photo_reaches_the_template (fd : FormData) (s s' : App) :
  populateTemplate fd s = (Ok tt, s') ->
  let photoId := "pdf-photo-" +:+ fd_template fd in
  (forall url, fd_includePhoto fd = true -> fd_photo fd = Some url -> truthy url = true ->
     propOf s' photoId "src" = Some url /\
     propOf s' photoId "alt" = Some (fd_name fd +:+ "'s profile photo") /\
     displayOf s' photoId = Some (CssText "block")) /\
  (fd_includePhoto fd && truthy (default "" (fd_photo fd)) = false ->
   is_Some (document s !! photoId) ->
   displayOf s' photoId = Some (CssText "none")).
Proof.
  intros Hrun photoId. subst photoId.
  destruct (populateTemplate_steps fd s s' Hrun)
    as (s1 & s2 & s3 & s4 & s5 & s6 & s7 & s8 & s9 & s10 & s11 & s12 & s13 &
        H1 & H2 & H3 & H4 & H5 & H6 & H7 & H8 & H9 & H10 & H11 & H12 & H13 & H14).
  set (t := fd_template fd) in *.
  pose proof (frame_of _ _ _ _ _ (touches_setText _ _ _) H1) as F1.
  pose proof (frame_of _ _ _ _ _ (touches_setText _ _ _) H2) as F2.
  pose proof (frame_of _ _ _ _ _ (touches_setText _ _ _) H3) as F3.
  pose proof (frame_of _ _ _ _ _ (touches_setText _ _ _) H4) as F4.
  pose proof (frame_of _ _ _ _ _ (touches_populateSection _ _ _ _) H5) as F5.
  pose proof (frame_of _ _ _ _ _ (touches_populateSection _ _ _ _) H7) as F7.
  pose proof (frame_of _ _ _ _ _ (touches_populateSection _ _ _ _) H8) as F8.
  pose proof (frame_of _ _ _ _ _ (touches_populateSkills _ _ _) H9) as F9.
  pose proof (frame_of _ _ _ _ _ (touches_populateSection _ _ _ _) H10) as F10.
  pose proof (frame_of _ _ _ _ _ (touches_populateSection _ _ _ _) H11) as F11.
  pose proof (frame_of _ _ _ _ _ (touches_populateSection _ _ _ _) H12) as F12.
  pose proof (frame_of _ _ _ _ _ (touches_populateSection _ _ _ _) H13) as F13.
  pose proof (frame_of _ _ _ _ _ (touches_populateCustom _ _ _ _) H14) as F14.
  set (photoId := "pdf-photo-" +:+ t).
  assert (Hafter : document s' !! photoId = document s6 !! photoId).
  { unfold photoId.
    rewrite (F14 _) by other_part. rewrite (F13 _) by other_part.
    rewrite (F12 _) by other_part. rewrite (F11 _) by other_part.
    rewrite (F10 _) by other_part. rewrite (F9 _) by other_part.
    rewrite (F8 _) by other_part. by rewrite (F7 _) by other_part. }
  assert (Hbefore : document s5 !! photoId = document s !! photoId).
  { unfold photoId.
    rewrite (F5 _) by other_part. rewrite (F4 _) by other_part.
    rewrite (F3 _) by other_part. rewrite (F2 _) by other_part.
    by rewrite (F1 _) by other_part. }
  split.
  - intros url Hinc Hphoto Hurl.
    destruct (populatePhoto_shows t fd url s5 s6 Hinc Hphoto Hurl H6) as (Hs & Ha & Hd).
    unfold propOf, displayOf in *. by rewrite Hafter.
  - intros Hno Hsome.
    pose proof (populatePhoto_hides t fd s5 s6 Hno) as Hh.
    unfold displayOf in *. rewrite Hafter. apply Hh; [|exact H6].
    fold photoId. by rewrite Hbefore.
Qed.

Lemma photo_reaches_the_template_witness :
  displayOf (snd (populateTemplate Sample.ada Sample.ready)) "pdf-photo-modern"
    = Some (CssText "none").
Proof.
  apply (photo_reaches_the_template Sample.ada Sample.ready
           (snd (populateTemplate Sample.ada Sample.ready))).
  - vm_compute. reflexivity.
  - reflexivity.
  - vm_compute. by eexists.
Defined.

(** ** The window: template choice *)

Lemma wbind_ok {A B} (m : W A) (k : A -> W B) w a w' :
  m w = (Ok a, w') -> wbind m k w = k a w'.
Proof. unfold wbind. by intros ->. Qed.

Lemma wbind_throw {A B} (m : W A) (k : A -> W B) w e w' :
  m w = (Throw e, w') -> wbind m k w = (Throw e, w').
Proof. unfold wbind. by intros ->. Qed.

Lemma lift_run {A} (m : M A) w r s :
  m (resumeBuilder w) = (r, s) -> lift m w = (r, set_app s w).
Proof. unfold lift. by intros ->. Qed.

Lemma lift_announce m w :
  exists s', lift (announceToScreenReader m) w = (Ok tt, set_app s' w) /\
    only_dom (resumeBuilder w) s' /\ same_page (resumeBuilder w) s' /\
    forall id, id <> "live-region" -> document s' !! id = document (resumeBuilder w) !! id.
Proof.
  destruct (announce_elsewhere m (resumeBuilder w)) as (s' & Hrun & H).
  exists s'. split; [by apply lift_run|exact H].
Qed.

Lemma saveTemplateChoice_run w :
  saveTemplateChoice w =
    (Ok tt, set_localStorage
              (<["selectedTemplate" := currentTemplate (resumeBuilder w)]> (localStorage w)) w).
Proof. reflexivity. Qed.

Lemma handleTemplateChange_run value w :
  exists s',
    handleTemplateChange value w =
      (Ok tt, set_app s'
                (set_localStorage (<["selectedTemplate" := value]> (localStorage w)) w)) /\
    currentTemplate s' = value /\
    isGenerating s' = isGenerating (resumeBuilder w) /\
    elements s' = elements (resumeBuilder w) /\ fields s' = fields (resumeBuilder w) /\
    forall id, id <> "live-region" -> document s' !! id = document (resumeBuilder w) !! id.
Proof.
  set (w1 := set_app (set_currentTemplate value (resumeBuilder w)) w).
  set (w2 := set_localStorage (<["selectedTemplate" := value]> (localStorage w1)) w1).
  destruct (lift_announce ("Selected " +:+ value +:+ " template") w2)
    as (s' & Hrun & (H1 & H2 & H3 & H4 & _) & _ & Hfr).
  exists s'. split; [|by repeat split].
  unfold handleTemplateChange, wtry.
  erewrite wbind_ok by reflexivity. fold w1.
  erewrite wbind_ok by apply saveTemplateChoice_run.
  change (set_localStorage _ w1) with w2.
  by rewrite Hrun.
Qed.

Lemma loadSavedTemplate_run value w :
  localStorage w !! "selectedTemplate" = Some value -> truthy value = true ->
  exists w', loadSavedTemplate w = (Ok tt, w') /\
    resumeBuilder w' = set_currentTemplate value (resumeBuilder w) /\
    localStorage w' = localStorage w /\
    checkedRadio w' = match templateRadio w value with
                      | Ok true => Some value
                      | _ => checkedRadio w
                      end.
Proof.
  intros Hstored Htruthy. unfold loadSavedTemplate, wtry.
  erewrite wbind_ok by reflexivity. rewrite Hstored, Htruthy. simpl.
  erewrite wbind_ok by reflexivity.
  unfold checkTemplateRadio. simpl.
  destruct (templateRadio w value) as [[]|e]; by eexists.
Qed.



(** ** The window: saving progress *)

Lemma formReady_collect s :
  formReady s -> collectFormData s = (Ok (Some (formDataOf s)), s).
Proof.
  intros (Hi & Hp). apply collectFormData_run; [done| |].
  - intros id Hid. apply Hp. apply elem_of_app in Hid as [Hid|Hid]; apply elem_of_app;
      [by left|right].
    apply list_elem_of_singleton in Hid as ->. apply list_elem_of_here.
  - intros _. apply Hp, elem_of_app. right. apply list_elem_of_further, list_elem_of_here.
Qed.

Lemma formReady_same_page s s' : same_page s s' -> formReady s -> formReady s'.
Proof.
  intros Hk (Hi & Hp). split; [by eapply initialised_same_page|by eapply present_same_page].
Qed.

Lemma formDataOf_ext s s' :
  currentTemplate s' = currentTemplate s ->
  (forall id, id ∈ fieldNames ++ ["include-photo"; "photo-preview"] ->
     document s' !! id = document s !! id) ->
  formDataOf s' = formDataOf s.
Proof.
  intros Ht Hd.
  assert (Hf : forall f, f ∈ fieldNames -> fieldText s' f = fieldText s f).
  { intros f Hf. unfold fieldText, valueOf. rewrite Hd; [done|]. apply elem_of_app. by left. }
  assert (Hc : checkedOf s' "include-photo" = checkedOf s "include-photo").
  { unfold checkedOf. rewrite Hd; [done|]. apply elem_of_app. right. apply list_elem_of_here. }
  assert (Hv : valueOf s' "photo-preview" "src" = valueOf s "photo-preview" "src").
  { unfold valueOf. rewrite Hd; [done|]. apply elem_of_app. right.
    apply list_elem_of_further, list_elem_of_here. }
  unfold formDataOf. rewrite Ht, Hc, Hv.
  rewrite !Hf by field_name. reflexivity.
Qed.

Lemma form_not_chrome id :
  id ∈ fieldNames ++ ["include-photo"; "photo-preview"] ->
  id <> "message-container" /\ id <> "live-region".
Proof.
  intros H. apply elem_of_app in H as [H|H].
  - apply list_elem_of_In in H. simpl in H.
    repeat (destruct H as [<-|H]; [by split|]). done.
  - apply list_elem_of_In in H. simpl in H.
    repeat (destruct H as [<-|H]; [by split|]). done.
Qed.

Lemma key_not_auto : LOCAL_STORAGE_KEY <> LOCAL_STORAGE_KEY +:+ "_auto".
Proof. by vm_compute. Qed.

Lemma saveProgress_run json w :
  chromeReady (resumeBuilder w) -> formReady (resumeBuilder w) ->
  exists s1,
    saveProgress json w =
      (Ok tt, set_app s1
                (set_localStorage
                   (<[LOCAL_STORAGE_KEY := stringify json (formDataOf (resumeBuilder w))]>
                      (localStorage w)) w)) /\
    noticeShown s1 "Progress saved successfully!" "success" /\
    only_dom (resumeBuilder w) s1 /\ same_page (resumeBuilder w) s1 /\
    forall id, id <> "message-container" -> id <> "live-region" ->
      document s1 !! id = document (resumeBuilder w) !! id.
Proof.
  intros Hc Hf. set (s := resumeBuilder w) in *.
  destruct (showMessage_run "Progress saved successfully!" "success" s Hc)
    as (em & Hem & Hshow).
  set (s2 := set_document _ s) in Hshow.
  destruct (announce_elsewhere "Form progress saved" s2) as (s3 & Hann & Hd3 & Hk3 & Hfr3).
  exists s3. split; [|split; [|split; [|split]]].
  - unfold saveProgress, wtry.
    erewrite wbind_ok by (apply lift_run; fold s; by apply formReady_collect).
    cbv beta iota. erewrite wbind_ok by reflexivity.
    erewrite wbind_ok by (apply lift_run; exact Hshow).
    erewrite lift_run by exact Hann. reflexivity.
  - apply (noticeShown_ext s2); [by apply Hfr3|]. by apply noticeShown_after.
  - eapply only_dom_trans; [|exact Hd3]. apply only_dom_set_document.
  - eapply same_page_trans; [|exact Hk3]. by eapply same_page_update.
  - intros id H1 H2. rewrite Hfr3 by done. unfold s2. simpl. by rewrite lookup_insert_ne.
Qed.


Lemma desk_chromeReady : chromeReady (resumeBuilder Desk.window).
Proof. apply cacheElements_chrome; vm_compute; by eexists. Qed.

Lemma desk_formReady : formReady (resumeBuilder Desk.window).
Proof.
  split; [apply cacheElements_initialised|].
  intros id Hid. apply list_elem_of_In in Hid. simpl in Hid.
  repeat (destruct Hid as [<-|Hid]; [vm_compute; by eexists|]). done.
Qed.


(** ** The window: restoring saved data *)

Lemma keeps_restoreFields l data : keeps_page (restoreFields l data).
Proof. induction l as [|f l IH]; simpl; keeps. Qed.

Lemma dom_restoreFields l data : preserves only_dom (restoreFields l data).
Proof. induction l as [|f l IH]; simpl; dom. Qed.

Lemma restoreFields_run l data :
  NoDup l -> (forall f, f ∈ l -> f ∈ fieldNames) ->
  forall s, initialised s -> (forall f, f ∈ l -> is_Some (document s !! f)) ->
  exists s', restoreFields l data s = (Ok tt, s') /\
    (forall f, f ∈ l ->
       valueOf s' f "value" = restored data f (valueOf s f "value")) /\
    (forall id, id ∉ l -> document s' !! id = document s !! id).
Proof.
  induction l as [|x l IH]; intros Hnd Hl s Hi Hp.
  - exists s. split; [done|]. split; [|done]. intros f Hf. by apply elem_of_nil in Hf.
  - apply NoDup_cons in Hnd as [Hx Hnd].
    destruct (Hp x) as [e He]; [apply list_elem_of_here|].
    assert (Hxf : x ∈ fieldNames) by apply Hl, list_elem_of_here.
    assert (Hstep : exists s1,
      (match dataProperty data x with
       | Some value =>
           when (truthy value)
             (write (Some (Some x)) "value" (with_self (setProp "value" value)))
       | None => ret tt
       end) s = (Ok tt, s1) /\
      valueOf s1 x "value" = restored data x (valueOf s x "value") /\
      same_page s s1 /\
      (forall id, id <> x -> document s1 !! id = document s !! id)).
    { unfold restored. destruct (dataProperty data x) as [v|]; [|by exists s].
      destruct (truthy v); simpl; [|by exists s].
      erewrite write_run by exact He. eexists. split; [reflexivity|]. split; [|split].
      - unfold valueOf. simpl. rewrite lookup_insert_eq. simpl. unfold getProp. simpl.
        by rewrite lookup_insert_eq.
      - by eapply same_page_update.
      - intros id Hid. simpl. by rewrite lookup_insert_ne. }
    destruct Hstep as (s1 & Hrun & Hv & Hk & Hfr).
    destruct (IH Hnd (fun f Hf => Hl f (list_elem_of_further _ _ _ Hf)) s1)
      as (s' & Hrest & Hvals & Hframe).
    { by eapply initialised_same_page. }
    { intros f Hf. destruct Hk as (_ & _ & Hdoc). apply Hdoc, Hp.
      by apply list_elem_of_further. }
    exists s'. split; [|split].
    + simpl. erewrite bind_ok by (by eapply fieldRef_on_page).
      erewrite bind_ok by exact Hrun. exact Hrest.
    + intros f Hf. apply elem_of_cons in Hf as [->|Hf].
      * rewrite <- Hv. unfold valueOf. by rewrite Hframe.
      * rewrite Hvals by done. f_equal. unfold valueOf. rewrite Hfr; [done|].
        intros ->. done.
    + intros id Hid. rewrite Hframe by (intros H; by apply Hid, list_elem_of_further).
      apply Hfr. intros ->. apply Hid, list_elem_of_here.
Qed.

Lemma keeps_setPreview src : keeps_page (setPreview src).
Proof. unfold setPreview. keeps. Qed.
Lemma keeps_togglePhotoSection browser : keeps_page (togglePhotoSection browser).
Proof. unfold togglePhotoSection, setPreview, checkbox. keeps. Qed.
Lemma dom_setPreview src : preserves only_dom (setPreview src).
Proof. unfold setPreview. dom. Qed.

Lemma photoReady_step s s' :
  same_page s s' -> document s' !! "photo" = document s !! "photo" ->
  photoReady s -> photoReady s'.
Proof.
  intros Hk Hph (Hi & Hg & Hp). split; [by eapply initialised_same_page|]. split.
  - by eapply fieldInGroup_same.
  - by eapply present_same_page.
Qed.

Lemma photo_not_field : "photo" ∉ fieldNames.
Proof. intros H. apply list_elem_of_In in H. simpl in H. intuition discriminate. Qed.

Lemma control_not_field id :
  id ∈ ["photo"; "photo-preview"; "include-photo"; "photo-group"; "live-region"] ->
  id ∉ fieldNames.
Proof.
  intros Hid H. apply list_elem_of_In in Hid. simpl in Hid.
  apply list_elem_of_In in H. simpl in H.
  repeat (destruct Hid as [<-|Hid]; [intuition discriminate|]). done.
Qed.

(** What [populateFormFields] leaves in the preview image. *)
Lemma populateFormFields_run browser data s :
  formReady s -> photoReady s ->
  exists s', populateFormFields browser data s = (Ok tt, s') /\
    (forall f, f ∈ fieldNames ->
       valueOf s' f "value" = restored data f (valueOf s f "value")) /\
    checkedOf s' "include-photo" = fd_includePhoto data /\
    displayOf s' "photo-group"
      = Some (CssText (if fd_includePhoto data then "block" else "none")) /\
    (fd_includePhoto data = false ->
     valueOf s' "photo-preview" "src" = createDefaultPhotoDataURL browser) /\
    (fd_includePhoto data = true -> forall photo,
     fd_photo data = Some photo -> truthy photo = true ->
     photo <> createDefaultPhotoDataURL browser ->
     valueOf s' "photo-preview" "src" = photo) /\
    only_dom s s' /\ same_page s s'.
Proof.
  intros (Hi & Hp) Hr.
  assert (Hfields : forall f, f ∈ fieldNames -> is_Some (document s !! f)).
  { intros f Hf. apply Hp, elem_of_app. by left. }
  destruct (restoreFields_run fieldNames data fieldNames_NoDup (fun f H => H) s Hi Hfields)
    as (s1 & Hrest & Hvals & Hfr1).
  assert (Hk1 : same_page s s1).
  { eapply step_same_page; [apply keeps_restoreFields|exact Hrest]. }
  assert (Hd1 : only_dom s s1).
  { eapply step_dom; [apply dom_restoreFields|exact Hrest]. }
  assert (Hr1 : photoReady s1).
  { eapply photoReady_step; [exact Hk1| |exact Hr]. apply Hfr1, photo_not_field. }
  (* the photo *)
  assert (Hphoto : exists s2,
    (match fd_photo data with
     | Some photo =>
         when (truthy photo && negb (bool_decide (photo = createDefaultPhotoDataURL browser)))
           (setPreview photo)
     | None => ret tt
     end) s1 = (Ok tt, s2) /\ same_page s1 s2 /\ only_dom s1 s2 /\
    (forall id, id <> "photo-preview" -> document s2 !! id = document s1 !! id) /\
    (forall photo, fd_photo data = Some photo -> truthy photo = true ->
       photo <> createDefaultPhotoDataURL browser ->
       valueOf s2 "photo-preview" "src" = photo)).
  { assert (Hsame : exists s2, ret tt s1 = (Ok tt, s2) /\ same_page s1 s2 /\ only_dom s1 s2 /\
      (forall id, id <> "photo-preview" -> document s2 !! id = document s1 !! id)).
    { exists s1. split; [done|]. split; [apply same_page_refl|].
      split; [apply only_dom_refl|done]. }
    destruct Hr1 as (Hi1 & _ & Hp1).
    destruct (Hp1 "photo-preview") as [pv Hpv]; [apply list_elem_of_here|].
    destruct (fd_photo data) as [photo|].
    2: { destruct Hsame as (s2 & H1 & H2 & H3 & H4). exists s2.
         split; [exact H1|]. split; [exact H2|]. split; [exact H3|]. split; [exact H4|].
         intros p Hp'. discriminate Hp'. }
    destruct (truthy photo) eqn:Htruthy; simpl.
    2: { destruct Hsame as (s2 & H1 & H2 & H3 & H4). exists s2.
         split; [exact H1|]. split; [exact H2|]. split; [exact H3|]. split; [exact H4|].
         intros p [= <-] Ht. congruence. }
    destruct (decide (photo = createDefaultPhotoDataURL browser)) as [Heq|Hne].
    - rewrite bool_decide_eq_true_2 by done. simpl.
      destruct Hsame as (s2 & H1 & H2 & H3 & H4). exists s2.
      split; [exact H1|]. split; [exact H2|]. split; [exact H3|]. split; [exact H4|].
      intros p [= <-] _ Hp'. done.
    - rewrite bool_decide_eq_false_2 by done. simpl.
      rewrite (setPreview_run photo s1 pv Hi1 Hpv). eexists. split; [reflexivity|].
      split; [by eapply same_page_update|]. split; [apply only_dom_set_document|]. split.
      + intros id Hid. simpl. by rewrite lookup_insert_ne.
      + intros p [= <-] _ _. unfold valueOf. simpl. rewrite lookup_insert_eq. simpl.
        unfold getProp. simpl. by rewrite lookup_insert_eq. }
  destruct Hphoto as (s2 & Hph & Hk2 & Hd2 & Hfr2 & Hsrc2).
  assert (Hr2 : photoReady s2) by (eapply photoReady_step; [exact Hk2|by apply Hfr2|exact Hr1]).
  (* the checkbox *)
  destruct Hr2 as (Hi2 & Hg2 & Hp2).
  destruct (Hp2 "include-photo") as [box Hbox];
    [apply list_elem_of_further, list_elem_of_here|].
  set (s3 := set_document
               (<["include-photo" := with_self (setChecked (fd_includePhoto data)) box]>
                  (document s2)) s2).
  assert (Hk3 : same_page s2 s3) by (by eapply same_page_update).
  assert (Hr3 : photoReady s3).
  { eapply (photoReady_step s2); [exact Hk3| |exact (conj Hi2 (conj Hg2 Hp2))].
    unfold s3. simpl. by rewrite lookup_insert_ne. }
  assert (Hc3 : checkedOf s3 "include-photo" = fd_includePhoto data).
  { unfold checkedOf, s3. simpl. by rewrite lookup_insert_eq. }
  destruct (togglePhotoSection_run browser s3 Hr3)
    as (s4 & Htog & Hdisp & Hoff & Hon & Hc4 & Hf4 & Hd4).
  rewrite Hc3 in Hdisp, Hoff, Hon, Hc4.
  assert (Hk4 : same_page s3 s4).
  { eapply step_same_page; [apply keeps_togglePhotoSection|exact Htog]. }
  exists s4. split; [|split; [|split; [|split; [|split; [|split; [|split]]]]]].
  - unfold populateFormFields. erewrite bind_ok by reflexivity.
    destruct Hi as (_ & Hfs). rewrite Hfs, refsOf_keys.
    erewrite bind_ok by exact Hrest.
    erewrite bind_ok by exact Hph.
    rewrite (bind_ok _ _ _ _ _ (cached_run _ s2)).
    rewrite (cached_initialised "includePhoto" "include-photo") by done. rewrite Hbox.
    erewrite bind_ok by (apply write_run; exact Hbox). exact Htog.
  - intros f Hf. rewrite <- (Hvals f Hf). unfold valueOf.
    rewrite (Hf4 f Hf). unfold s3. simpl.
    destruct (field_not_photo_control f Hf) as (H1 & H2 & H3 & H4 & H5).
    rewrite lookup_insert_ne by done. by rewrite Hfr2.
  - exact Hc4.
  - exact Hdisp.
  - intros Hoffd. rewrite Hoffd in Hoff. by destruct (Hoff eq_refl).
  - intros Hond photo Hphoto Htruthy Hne. rewrite Hond in Hon.
    destruct (Hon eq_refl) as [Hpv _].
    rewrite <- (Hsrc2 photo Hphoto Htruthy Hne). unfold valueOf. rewrite Hpv.
    unfold s3. simpl. by rewrite lookup_insert_ne.
  - eapply only_dom_trans; [exact Hd1|]. eapply only_dom_trans; [exact Hd2|].
    eapply only_dom_trans; [apply only_dom_set_document|exact Hd4].
  - eapply same_page_trans; [exact Hk1|]. eapply same_page_trans; [exact Hk2|].
    eapply same_page_trans; [exact Hk3|exact Hk4].
Qed.

(** ** The window: restoring saved progress *)

Lemma set_app_same w : set_app (resumeBuilder w) w = w.
Proof. by destruct w. Qed.

Lemma templateStep_page t w :
  exists r w', wwhen (truthy t) (setCurrentTemplate t ;; checkTemplateRadio t)%win w = (r, w') /\
    document (resumeBuilder w') = document (resumeBuilder w) /\
    localStorage w' = localStorage w /\ templateRadio w' = templateRadio w /\
    (truthy t = true -> currentTemplate (resumeBuilder w') = t) /\
    (truthy t = false -> w' = w) /\
    ((forall e, templateRadio w t <> Throw e) -> r = Ok tt).
Proof.
  destruct (truthy t) eqn:Ht; simpl.
  - unfold wbind, setCurrentTemplate, checkTemplateRadio. simpl.
    destruct (templateRadio w t) as [[]|e] eqn:Hr; do 2 eexists;
      (split; [reflexivity|]); simpl; repeat split; try done.
    intros H. by destruct (H e).
  - exists (Ok tt), w. repeat split; done.
Qed.

Lemma loadSavedTemplate_page w :
  exists w', loadSavedTemplate w = (Ok tt, w') /\
    document (resumeBuilder w') = document (resumeBuilder w) /\
    localStorage w' = localStorage w /\
    currentTemplate (resumeBuilder w')
      = match localStorage w !! "selectedTemplate" with
        | Some t => if truthy t then t else currentTemplate (resumeBuilder w)
        | None => currentTemplate (resumeBuilder w)
        end.
Proof.
  unfold loadSavedTemplate, wtry. erewrite wbind_ok by reflexivity.
  destruct (localStorage w !! "selectedTemplate") as [t|]; [|by exists w].
  destruct (templateStep_page t w) as (r & w' & Hrun & Hd & Hl & _ & Ht & Hf & _).
  rewrite Hrun. destruct (truthy t) eqn:Htruthy.
  - destruct r as [[]|e]; exists w'; (split; [done|]); (split; [done|]); (split; [done|]);
      by apply Ht.
  - rewrite (Hf eq_refl) in *. destruct r as [[]|e]; by exists w.
Qed.

Lemma valueOf_page s s' id key :
  document s' !! id = document s !! id -> valueOf s' id key = valueOf s id key.
Proof. unfold valueOf. by intros ->. Qed.

Lemma loadSavedData_run json browser w text data :
  formReady (resumeBuilder w) -> photoReady (resumeBuilder w) ->
  savedText w = Some text -> truthy text = true -> parse json text = Some data ->
  exists s1 w',
    populateFormFields browser data (resumeBuilder w) = (Ok tt, s1) /\
    loadSavedData json browser w = (Ok tt, w') /\
    document (resumeBuilder w') = document s1 /\
    localStorage w' = localStorage w /\
    ((forall e, templateRadio w (fd_template data) <> Throw e) ->
     currentTemplate (resumeBuilder w')
       = let fromData := if truthy (fd_template data) then fd_template data
                         else currentTemplate (resumeBuilder w) in
         match localStorage w !! "selectedTemplate" with
         | Some t => if truthy t then t else fromData
         | None => fromData
         end).
Proof.
  intros Hf Hr Hsaved Htruthy Hparse.
  destruct (populateFormFields_run browser data _ Hf Hr)
    as (s1 & Hpop & _ & _ & _ & _ & _ & (_ & Ht1 & _) & _).
  set (w1 := set_app s1 w).
  destruct (templateStep_page (fd_template data) w1)
    as (r & w2 & Hstep & Hd2 & Hl2 & Hr2 & Ht2 & Hf2 & Hok2).
  destruct (loadSavedTemplate_page w2) as (w3 & Hload & Hd3 & Hl3 & Ht3).
  assert (Hsource : (if hasText (localStorage w !! LOCAL_STORAGE_KEY)
                     then wret (localStorage w !! LOCAL_STORAGE_KEY)
                     else getItem (LOCAL_STORAGE_KEY +:+ "_auto")) w = (Ok (Some text), w)).
  { rewrite <- Hsaved. unfold savedText.
    by destruct (hasText (localStorage w !! LOCAL_STORAGE_KEY)). }
  assert (Hrestore : (lift (populateFormFields browser data) ;;
                      wwhen (truthy (fd_template data))
                        (setCurrentTemplate (fd_template data) ;;
                         checkTemplateRadio (fd_template data)))%win w = (r, w2)).
  { erewrite wbind_ok by (apply lift_run; exact Hpop). exact Hstep. }
  assert (Hbody : loadSavedData json browser w
                  = match r with Ok _ => loadSavedTemplate w2 | Throw e => (Ok tt, w2) end).
  { unfold loadSavedData, wtry.
    erewrite wbind_ok by reflexivity. cbv beta.
    erewrite wbind_ok by exact Hsource. cbv beta iota.
    rewrite Htruthy, Hparse. unfold wwhen at 1. unfold wbind at 1.
    rewrite Hrestore. destruct r as [[]|e]; [|reflexivity].
    by rewrite Hload. }
  destruct r as [[]|e].
  - exists s1, w3. split; [done|]. split; [|split; [|split]].
    + by rewrite Hbody, Hload.
    + by rewrite Hd3, Hd2.
    + by rewrite Hl3, Hl2.
    + intros _. rewrite Ht3, Hl2. simpl.
      destruct (truthy (fd_template data)) eqn:Htd.
      * by rewrite (Ht2 eq_refl).
      * rewrite (Hf2 eq_refl). simpl. by rewrite Ht1.
  - exists s1, w2. split; [done|]. split; [|split; [|split]].
    + by rewrite Hbody.
    + by rewrite Hd2.
    + by rewrite Hl2.
    + intros Hno. by specialize (Hok2 Hno).
Qed.

(** X23. A saved progress comes back when the page is opened again.
    [loadSavedData] takes the manual save, or the automatic one when there
    is no manual save, and returns normally.  Every field whose entry in
    the saved data is a non-empty string gets that string as its value and
    the other fields keep the value they had; the two fields of the custom
    section always keep theirs, since the data has them under other keys
    than the fields have.  The photo checkbox gets the saved state and the
    photo group is shown or hidden with it.  The storage is not written.
    The current template is the separately stored choice if there is one,
    and else the one of the saved data. *)
Theorem saved_progress_is_restored (json : JSON) (browser : Photos) (w : Window)
    (text : string) (data : FormData) :
  formReady (resumeBuilder w) -> photoReady (resumeBuilder w) ->
  savedText w = Some text -> truthy text = true -> parse json text = Some data ->
  exists w', loadSavedData json browser w = (Ok tt, w') /\
    localStorage w' = localStorage w /\
    (forall f, f ∈ fieldNames ->
       valueOf (resumeBuilder w') f "value"
         = restored data f (valueOf (resumeBuilder w) f "value")) /\
    valueOf (resumeBuilder w') "custom-title" "value"
      = valueOf (resumeBuilder w) "custom-title" "value" /\
    valueOf (resumeBuilder w') "custom-content" "value"
      = valueOf (resumeBuilder w) "custom-content" "value" /\
    checkedOf (resumeBuilder w') "include-photo" = fd_includePhoto data /\
    displayOf (resumeBuilder w') "photo-group"
      = Some (CssText (if fd_includePhoto data then "block" else "none")) /\
    ((forall e, templateRadio w (fd_template data) <> Throw e) ->
     currentTemplate (resumeBuilder w')
       = let fromData := if truthy (fd_template data) then fd_template data
                         else currentTemplate (resumeBuilder w) in
         match localStorage w !! "selectedTemplate" with
         | Some t => if truthy t then t else fromData
         | None => fromData
         end).
Proof.
  intros Hf Hr Hsaved Htruthy Hparse.
  destruct (loadSavedData_run json browser w text data Hf Hr Hsaved Htruthy Hparse)
    as (s1 & w' & Hpop & Hload & Hd & Hl & Ht).
  destruct (populateFormFields_run browser data _ Hf Hr)
    as (s1' & Hpop' & Hvals & Hc & Hdisp & _).
  assert (s1' = s1) as -> by congruence.
  assert (Hv : forall f, f ∈ fieldNames ->
    valueOf (resumeBuilder w') f "value"
      = restored data f (valueOf (resumeBuilder w) f "value")).
  { intros f Hin. rewrite <- (Hvals f Hin). apply valueOf_page. by rewrite Hd. }
  exists w'. split; [exact Hload|]. split; [exact Hl|]. split; [exact Hv|].
  split; [exact (Hv "custom-title" ltac:(field_name))|].
  split; [exact (Hv "custom-content" ltac:(field_name))|].
  split; [unfold checkedOf; by rewrite Hd|].
  split; [unfold displayOf; by rewrite Hd|]. exact Ht.
Qed.

Lemma saved_progress_is_restored_witness :
  exists w', loadSavedData Desk.json Studio.browser Desk.revisited = (Ok tt, w') /\
    localStorage w' = localStorage Desk.revisited /\
    (forall f, f ∈ fieldNames ->
       valueOf (resumeBuilder w') f "value"
         = restored (formDataOf Studio.opened) f
             (valueOf (resumeBuilder Desk.revisited) f "value")) /\
    valueOf (resumeBuilder w') "custom-title" "value"
      = valueOf (resumeBuilder Desk.revisited) "custom-title" "value" /\
    valueOf (resumeBuilder w') "custom-content" "value"
      = valueOf (resumeBuilder Desk.revisited) "custom-content" "value" /\
    checkedOf (resumeBuilder w') "include-photo" = fd_includePhoto (formDataOf Studio.opened) /\
    displayOf (resumeBuilder w') "photo-group"
      = Some (CssText (if fd_includePhoto (formDataOf Studio.opened)
                       then "block" else "none")) /\
    ((forall e, templateRadio Desk.revisited (fd_template (formDataOf Studio.opened))
                <> Throw e) ->
     currentTemplate (resumeBuilder w')
       = let fromData := if truthy (fd_template (formDataOf Studio.opened))
                         then fd_template (formDataOf Studio.opened)
                         else currentTemplate (resumeBuilder Desk.revisited) in
         match localStorage Desk.revisited !! "selectedTemplate" with
         | Some t => if truthy t then t else fromData
         | None => fromData
         end).
Proof.
  apply (saved_progress_is_restored Desk.json Studio.browser Desk.revisited
           "{name:Ada Lovelace,email:ada@example.org}" (formDataOf Studio.opened)).
  - exact desk_formReady.
  - exact studio_photoReady.
  - vm_compute. reflexivity.
  - reflexivity.
  - vm_compute. reflexivity.
Defined.

Lemma dataProperty_collected s f :
  f ∈ fieldNames -> f <> "custom-title" -> f <> "custom-content" ->
  dataProperty (formDataOf s) f = Some (fieldText s f).
Proof.
  intros Hf H1 H2. apply list_elem_of_In in Hf. simpl in Hf.
  repeat (destruct Hf as [<-|Hf]; [first [reflexivity|done]|]). done.
Qed.



(** ** Unchecking the photo box *)

(** X18. [togglePhotoSection] on a page with the photo controls returns
    normally and shows the photo group exactly when the box is checked.
    With the box unchecked it also puts the default image back into the
    preview and empties the file input, so that a photo chosen earlier is
    gone, and the form data collected afterwards carries no photo; with the
    box checked it leaves the preview and the file input alone.  The form
    fields and the box itself are never changed. *)
Theorem togglePhotoSection_resets (browser : Photos) (s : App) :
  photoReady s ->
  exists s', togglePhotoSection browser s = (Ok tt, s') /\
    displayOf s' "photo-group"
      = Some (CssText (if checkedOf s "include-photo" then "block" else "none")) /\
    (checkedOf s "include-photo" = false ->
       valueOf s' "photo-preview" "src" = createDefaultPhotoDataURL browser /\
       valueOf s' "photo" "value" = "" /\
       (formReady s ->
        exists fd, collectFormData s' = (Ok (Some fd), s') /\
          fd_includePhoto fd = false /\ fd_photo fd = None)) /\
    (checkedOf s "include-photo" = true ->
       valueOf s' "photo-preview" "src" = valueOf s "photo-preview" "src" /\
       valueOf s' "photo" "value" = valueOf s "photo" "value") /\
    checkedOf s' "include-photo" = checkedOf s "include-photo" /\
    (forall f, f ∈ fieldNames -> valueOf s' f "value" = valueOf s f "value").
Proof.
  intros Hr.
  destruct (togglePhotoSection_run browser s Hr)
    as (s' & Hrun & Hdisp & Hoff & Hon & Hbox & Hfields & _).
  exists s'. split; [exact Hrun|]. split; [exact Hdisp|]. split; [|split; [|split]].
  - intros Hunchecked. destruct (Hoff Hunchecked) as [Hsrc Hinput].
    split; [exact Hsrc|]. split; [exact Hinput|]. intros Hf.
    assert (Hf' : formReady s').
    { eapply formReady_same_page; [|exact Hf].
      eapply step_same_page; [apply keeps_togglePhotoSection|exact Hrun]. }
    exists (formDataOf s'). split; [by apply formReady_collect|]. simpl.
    by rewrite Hbox, Hunchecked.
  - intros Hchecked. destruct (Hon Hchecked) as [Hsrc Hinput].
    split; by apply valueOf_page.
  - exact Hbox.
  - intros f Hf. apply valueOf_page. by apply Hfields.
Qed.

Lemma togglePhotoSection_resets_witness :
  exists s', togglePhotoSection Studio.browser Studio.opened = (Ok tt, s') /\
    displayOf s' "photo-group"
      = Some (CssText (if checkedOf Studio.opened "include-photo" then "block" else "none")) /\
    (checkedOf Studio.opened "include-photo" = false ->
       valueOf s' "photo-preview" "src" = createDefaultPhotoDataURL Studio.browser /\
       valueOf s' "photo" "value" = "" /\
       (formReady Studio.opened ->
        exists fd, collectFormData s' = (Ok (Some fd), s') /\
          fd_includePhoto fd = false /\ fd_photo fd = None)) /\
    (checkedOf Studio.opened "include-photo" = true ->
       valueOf s' "photo-preview" "src" = valueOf Studio.opened "photo-preview" "src" /\
       valueOf s' "photo" "value" = valueOf Studio.opened "photo" "value") /\
    checkedOf s' "include-photo" = checkedOf Studio.opened "include-photo" /\
    (forall f, f ∈ fieldNames -> valueOf s' f "value" = valueOf Studio.opened f "value").
Proof.
  apply (togglePhotoSection_resets Studio.browser Studio.opened).
  exact studio_photoReady.
Defined.

(** ** Keyboard shortcuts *)

Lemma submitListener_returns env s : exists s', submitListener env s = (Ok tt, s').
Proof.
  unfold submitListener, try_catch.
  destruct (handleFormSubmission env s) as [[[]|e] s1]; [by eexists|].
  destruct (showMessage _ _ s1) as [[[]|e'] s2]; by eexists.
Qed.

Lemma saveProgress_returns json w :
  chromeReady (resumeBuilder w) ->
  exists w', saveProgress json w = (Ok tt, w') /\
    forall id, id <> "message-container" -> id <> "live-region" ->
      document (resumeBuilder w') !! id = document (resumeBuilder w) !! id.
Proof.
  intros Hc. destruct (collectFormData_returns (resumeBuilder w)) as [r Hcollect].
  unfold saveProgress, wtry.
  erewrite wbind_ok by (apply lift_run; exact Hcollect). rewrite set_app_same.
  destruct r as [fd|]; [|by exists w].
  erewrite wbind_ok by reflexivity.
  set (w1 := set_localStorage _ w).
  destruct (showMessage_run "Progress saved successfully!" "success" (resumeBuilder w1) Hc)
    as (em & Hem & Hshow).
  erewrite wbind_ok by (apply lift_run; exact Hshow).
  match goal with |- context [lift (announceToScreenReader ?m) ?w2] =>
    destruct (lift_announce m w2) as (s3 & Hann & _ & _ & Hfr) end.
  rewrite Hann. eexists. split; [reflexivity|].
  intros id H1 H2. simpl. rewrite Hfr by done. simpl. by rewrite lookup_insert_ne.
Qed.

Lemma dismissMessage_run s :
  chromeReady s ->
  exists s', dismissMessage s = (Ok tt, s') /\
    (exists e, document s' !! "message-container" = Some e /\ "hidden" ∈ classList (self e)) /\
    (forall id, id <> "message-container" -> document s' !! id = document s !! id) /\
    only_dom s s'.
Proof.
  intros (H1 & _ & _ & [e He] & _). unfold dismissMessage.
  rewrite (bind_ok _ _ _ _ _ (cached_run _ s)). rewrite H1.
  erewrite bind_ok by (apply (read_run _ _ (fun e => bool_decide ("hidden" ∈ classList (self e))));
                       exact He).
  destruct (decide ("hidden" ∈ classList (self e))) as [Hin|Hout].
  - rewrite bool_decide_eq_true_2 by done. simpl. exists s.
    split; [done|]. split; [by exists e|]. split; [done|apply only_dom_refl].
  - rewrite bool_decide_eq_false_2 by done. simpl.
    rewrite (write_run _ _ _ _ _ He). eexists. split; [reflexivity|]. split; [|split].
    + eexists. split; [simpl; apply lookup_insert_eq|]. simpl.
      apply elem_of_union. right. by apply elem_of_singleton.
    + intros id Hid. simpl. by rewrite lookup_insert_ne.
    + apply only_dom_set_document.
Qed.

(** X25. The keyboard handler on a page that has its message container and
    its form: no key press makes it throw.  Escape leaves the message
    container hidden and touches no other element; Ctrl+Enter or Cmd+Enter
    while a generation is running changes nothing at all (no warning is
    shown); Ctrl+S or Cmd+S changes at most the message container and the
    live region of the page; a key without Ctrl or Cmd other than Escape
    changes nothing. *)
Theorem keyboard_shortcuts_never_throw (json : JSON) (env : Env) (event : KeyboardEvent)
    (w : Window) :
  chromeReady (resumeBuilder w) ->
  exists w', handleKeyboardShortcuts json env event w = (Ok tt, w') /\
    (key event = "Escape" ->
       (exists e, document (resumeBuilder w') !! "message-container" = Some e /\
                  "hidden" ∈ classList (self e)) /\
       (forall id, id <> "message-container" ->
          document (resumeBuilder w') !! id = document (resumeBuilder w) !! id) /\
       localStorage w' = localStorage w) /\
    (ctrlKey event || metaKey event = true -> key event = "Enter" ->
       isGenerating (resumeBuilder w) = true -> w' = w) /\
    (ctrlKey event || metaKey event = true -> key event = "s" ->
       forall id, id <> "message-container" -> id <> "live-region" ->
         document (resumeBuilder w') !! id = document (resumeBuilder w) !! id) /\
    (ctrlKey event || metaKey event = false -> key event <> "Escape" -> w' = w).
Proof.
  intros Hc. unfold handleKeyboardShortcuts.
  destruct (ctrlKey event || metaKey event) eqn:Hmod; simpl andb.
  - destruct (decide (key event = "s")) as [Hs|Hs].
    { rewrite bool_decide_eq_true_2 by done.
      destruct (saveProgress_returns json w Hc) as (w' & Hrun & Hfr).
      exists w'. split; [exact Hrun|]. split; [|split; [|split]].
      - intros Hk. rewrite Hk in Hs. discriminate Hs.
      - intros _ Hk. rewrite Hk in Hs. discriminate Hs.
      - intros _ _. exact Hfr.
      - discriminate. }
    rewrite bool_decide_eq_false_2 by done.
    destruct (decide (key event = "Enter")) as [He|He].
    { rewrite bool_decide_eq_true_2 by done.
      destruct (isGenerating (resumeBuilder w)) eqn:Hgen.
      - exists w. split.
        + unfold lift, bind, get. simpl. rewrite Hgen. simpl. by rewrite set_app_same.
        + split; [intros Hk; rewrite Hk in He; discriminate He|].
          split; [done|]. split; [done|discriminate].
      - destruct Hc as (_ & _ & Hform & _ & _ & [fe Hfe]).
        assert (Hfirst : (form <- cached "form" ;;
                          read form "dispatchEvent" (fun _ => tt) ;;
                          submitListener env)%js (resumeBuilder w)
                         = submitListener env (resumeBuilder w)).
        { rewrite (bind_ok _ _ _ _ _ (cached_run _ _)). rewrite Hform.
          by rewrite (bind_ok _ _ _ _ _ (read_run "resumeForm" "dispatchEvent" (fun _ => tt) _ fe Hfe)). }
        destruct (submitListener_returns env (resumeBuilder w)) as (s' & Hsub).
        exists (set_app s' w). split.
        + unfold lift, bind at 1, get. simpl. rewrite Hgen. simpl when.
          by rewrite Hfirst, Hsub.
        + split; [intros Hk; rewrite Hk in He; discriminate He|].
          split; [discriminate|]. split; [|discriminate].
          intros _ Hk. rewrite Hk in He. discriminate He. }
    rewrite bool_decide_eq_false_2 by done.
    destruct (decide (key event = "Escape")) as [Hk|Hk].
    + rewrite bool_decide_eq_true_2 by done.
      destruct (dismissMessage_run _ Hc) as (s' & Hrun & Hhid & Hfr & _).
      exists (set_app s' w). split; [by apply lift_run|].
      split; [intros _; split; [exact Hhid|split; [exact Hfr|reflexivity]]|]. split; [by intros _ He'|]. split; [by intros _ Hs'|discriminate].
    + rewrite bool_decide_eq_false_2 by done. exists w. split; [done|].
      split; [done|]. split; [by intros _ He'|]. split; [by intros _ Hs'|discriminate].
  - destruct (decide (key event = "Escape")) as [Hk|Hk].
    + rewrite (bool_decide_eq_true_2 (key event = "Escape")) by done. cbv iota.
      destruct (dismissMessage_run _ Hc) as (s' & Hrun & Hhid & Hfr & _).
      exists (set_app s' w). split; [by apply lift_run|].
      split; [intros _; split; [exact Hhid|split; [exact Hfr|reflexivity]]|]. split; [discriminate|]. split; [discriminate|done].
    + rewrite (bool_decide_eq_false_2 (key event = "Escape")) by done. cbv iota. exists w. split; [done|].
      split; [done|]. split; [discriminate|]. split; [discriminate|done].
Qed.

Lemma keyboard_shortcuts_never_throw_witness :
  exists w',
    handleKeyboardShortcuts Desk.json Sample.rejecting
      {| ctrlKey := false; metaKey := false; key := "Escape" |} Desk.window = (Ok tt, w') /\
    (exists e, document (resumeBuilder w') !! "message-container" = Some e /\
               "hidden" ∈ classList (self e)) /\
    (forall id, id <> "message-container" ->
       document (resumeBuilder w') !! id = document (resumeBuilder Desk.window) !! id) /\
    localStorage w' = localStorage Desk.window.
Proof.
  destruct (keyboard_shortcuts_never_throw Desk.json Sample.rejecting
              {| ctrlKey := false; metaKey := false; key := "Escape" |} Desk.window
              desk_chromeReady) as (w' & Hrun & Hescape & _).
  exists w'. split; [exact Hrun|]. exact (Hescape eq_refl).
Defined.

(** ** The default image *)

(** X26. [initializePhotoPreview] leaves a usable image in the preview.
    When the default image is a non-empty URL other than the address of
    the page, then on a page with the photo controls the function returns
    normally and the preview's [src] is afterwards neither empty nor the
    address of the page: a [src] that was usable is kept, any other is
    replaced by the default image.  No other element changes, and running
    the function again changes nothing. *)
Theorem initializePhotoPreview_gives_an_image (browser : Photos) (s : App) :
  photoReady s ->
  truthy (createDefaultPhotoDataURL browser) = true ->
  createDefaultPhotoDataURL browser <> locationHref browser ->
  exists s', initializePhotoPreview browser s = (Ok tt, s') /\
    truthy (valueOf s' "photo-preview" "src") = true /\
    valueOf s' "photo-preview" "src" <> locationHref browser /\
    (truthy (valueOf s "photo-preview" "src") = true ->
     valueOf s "photo-preview" "src" <> locationHref browser -> s' = s) /\
    (valueOf s' "photo-preview" "src" <> valueOf s "photo-preview" "src" ->
     valueOf s' "photo-preview" "src" = createDefaultPhotoDataURL browser) /\
    (forall id, id <> "photo-preview" -> document s' !! id = document s !! id) /\
    initializePhotoPreview browser s' = (Ok tt, s').
Proof.
  intros (Hi & _ & Hp) Hdefault Hpage.
  destruct (Hp "photo-preview") as [pv Hpv]; [apply list_elem_of_here|].
  assert (Hrun : forall st e, initialised st -> document st !! "photo-preview" = Some e ->
    initializePhotoPreview browser st
    = if negb (truthy (getProp "src" (self e)))
         || bool_decide (getProp "src" (self e) = locationHref browser)
      then (Ok tt, set_document
                     (<["photo-preview" :=
                          with_self (setProp "src" (createDefaultPhotoDataURL browser)) e]>
                        (document st)) st)
      else (Ok tt, st)).
  { intros st e Hst He. unfold initializePhotoPreview.
    rewrite (bind_ok _ _ _ _ _ (cached_run _ st)).
    rewrite (cached_initialised "photoPreview" "photo-preview") by done. rewrite He.
    rewrite (bind_ok _ _ _ _ _
               (read_run "photo-preview" "src" (fun e => getProp "src" (self e)) st e He)).
    destruct (negb (truthy (getProp "src" (self e)))
              || bool_decide (getProp "src" (self e) = locationHref browser)); simpl.
    - by apply write_run.
    - reflexivity. }
  assert (Hsrc : valueOf s "photo-preview" "src" = getProp "src" (self pv)).
  { unfold valueOf. by rewrite Hpv. }
  rewrite (Hrun s pv Hi Hpv), Hsrc.
  destruct (truthy (getProp "src" (self pv))) eqn:Htruthy; simpl negb; simpl orb.
  - destruct (decide (getProp "src" (self pv) = locationHref browser)) as [Heq|Hne].
    + rewrite bool_decide_eq_true_2 by done.
      set (s' := set_document _ s).
      assert (Hsrc' : valueOf s' "photo-preview" "src" = createDefaultPhotoDataURL browser).
      { unfold valueOf, s'. simpl. rewrite lookup_insert_eq. simpl. unfold getProp. simpl.
        by rewrite lookup_insert_eq. }
      exists s'. split; [done|]. rewrite Hsrc'. split; [done|]. split; [done|].
      split; [by intros _ Hn|]. split; [done|]. split.
      * intros id Hid. unfold s'. simpl. by rewrite lookup_insert_ne.
      * erewrite (Hrun s'); [|by eapply initialised_update|unfold s'; simpl; apply lookup_insert_eq].
        simpl. unfold getProp. simpl. rewrite lookup_insert_eq. simpl.
        fold (createDefaultPhotoDataURL browser). rewrite Hdefault. simpl.
        by rewrite bool_decide_eq_false_2.
    + rewrite bool_decide_eq_false_2 by done. exists s. split; [done|].
      rewrite Hsrc. split; [done|]. split; [done|]. split; [done|]. split; [done|].
      split; [done|]. rewrite (Hrun s pv Hi Hpv), Htruthy. simpl.
      by rewrite bool_decide_eq_false_2.
  - set (s' := set_document _ s).
    assert (Hsrc' : valueOf s' "photo-preview" "src" = createDefaultPhotoDataURL browser).
    { unfold valueOf, s'. simpl. rewrite lookup_insert_eq. simpl. unfold getProp. simpl.
      by rewrite lookup_insert_eq. }
    exists s'. split; [done|]. rewrite Hsrc'. split; [done|]. split; [done|].
    split; [discriminate|]. split; [done|]. split.
    * intros id Hid. unfold s'. simpl. by rewrite lookup_insert_ne.
    * erewrite (Hrun s'); [|by eapply initialised_update|unfold s'; simpl; apply lookup_insert_eq].
      simpl. unfold getProp. simpl. rewrite lookup_insert_eq. simpl.
      fold (createDefaultPhotoDataURL browser). rewrite Hdefault. simpl.
      by rewrite bool_decide_eq_false_2.
Qed.

Lemma initializePhotoPreview_gives_an_image_witness :
  exists s', initializePhotoPreview Studio.browser Studio.opened = (Ok tt, s') /\
    truthy (valueOf s' "photo-preview" "src") = true /\
    valueOf s' "photo-preview" "src" <> locationHref Studio.browser /\
    (truthy (valueOf Studio.opened "photo-preview" "src") = true ->
     valueOf Studio.opened "photo-preview" "src" <> locationHref Studio.browser ->
     s' = Studio.opened) /\
    (valueOf s' "photo-preview" "src" <> valueOf Studio.opened "photo-preview" "src" ->
     valueOf s' "photo-preview" "src" = createDefaultPhotoDataURL Studio.browser) /\
    (forall id, id <> "photo-preview" -> document s' !! id = document Studio.opened !! id) /\
    initializePhotoPreview Studio.browser s' = (Ok tt, s').
Proof.
  apply (initializePhotoPreview_gives_an_image Studio.browser Studio.opened).
  - exact studio_photoReady.
  - reflexivity.
  - vm_compute. discriminate.
Defined.
